(** * The multi-filter AST noise model of BEAST (core/noisemodel/trunchen.py)

    A shallow embedding of [MultiFilterASTs] and the properties of its
    per-model covariance estimator, of the bulk aggregator and of the
    grid interpolator.

    Numbers.  Every finite float is a rational number, so array cells are
    canonical rationals ([Qc]) and [+], [-], [*], [/] are the exact field
    operations: rounding, overflow, NaN and the float32/float64 casts are
    not modelled.  The transcendental and library routines the module
    calls ([np.power(10.0, .)], [np.sqrt], [np.log10], [cKDTree.query],
    [np.linalg.inv], [np.linalg.slogdet]) and the content of freshly
    allocated [np.empty] arrays are parameters of the development.

    The second part embeds the helpers of the project pipeline
    (beast/projects/mf_dev/pipeline.py) that name and find the chunks
    of an observation catalogue: [t_project_dir],
    [prepare_individual_inputs] and [run_chunk_fit]. *)

From Stdlib Require Import QArith Qcanon Qround Lia Sorted Ascii String.
From stdpp Require Import base option list strings numbers gmap pretty.

Local Open Scope Qc_scope.
Local Open Scope string_scope.

(** ** Python exceptions and the result monad *)

Inductive exn : Type :=
| IndexError
| AttributeError
| LinAlgError
| NameError.

Inductive res (A : Type) : Type :=
| Ok (a : A)
| Raise (e : exn).
Arguments Ok {A} a.
Arguments Raise {A} e.

Definition res_bind {A B : Type} (m : res A) (k : A -> res B) : res B :=
  match m with
  | Ok a => k a
  | Raise e => Raise e
  end.

Notation "x <-! m ;; k" := (res_bind m (fun x => k))
  (at level 100, m at next level, right associativity).

(** An out-of-range subscript raises [IndexError]. *)
Definition subscript {A : Type} (l : list A) (i : nat) : res A :=
  match l !! i with
  | Some a => Ok a
  | None => Raise IndexError
  end.

(** Fancy indexing [a[indxs]] with an integer index array. *)
Fixpoint take_indices {A : Type} (l : list A) (indxs : list nat) : res (list A) :=
  match indxs with
  | [] => Ok []
  | i :: rest =>
      a <-! subscript l i ;;
      r <-! take_indices l rest ;;
      Ok (a :: r)
  end.

(** ** Numbers and arrays *)

Definition Qc_of_nat (n : nat) : Qc := Qc_of_Z (Z.of_nat n).

(** [n - 1] on a Python integer, as a float. *)
Definition Qc_pred_nat (n : nat) : Qc := Qc_of_Z (Z.of_nat n - 1).

Definition Qc_ltb (x y : Qc) : bool := bool_decide (x < y).

Definition ninety : Qc := Qc_of_Z 90.
Definition minus_04 : Qc := Q2Qc (-4 # 10).
Definition minus_half : Qc := Q2Qc (-1 # 2).

Abbreviation vec := (list Qc).
Abbreviation mat := (list (list Qc)).

(** Reading a cell at a position that the surrounding loop takes from
    the shape of the array; the default is never read there. *)
Definition get1 (v : vec) (i : nat) : Qc := default 0 (v !! i).
Definition get2 (m : mat) (i j : nat) : Qc := get1 (default [] (m !! i)) j.

(** [m[i,j] = f(m[i,j])] *)
Definition upd2 (f : Qc -> Qc) (i j : nat) (m : mat) : mat :=
  alter (alter f j) i m.

Definition vsum (v : vec) : Qc := foldr Qcplus 0 v.

(** [np.mean] of a 1-d array. *)
Definition np_mean (v : vec) : Qc := vsum v / Qc_of_nat (length v).

(** [np.where(mask)]: the positions of the true entries, ascending. *)
Fixpoint where_from (i : nat) (mask : list bool) : list nat :=
  match mask with
  | [] => []
  | b :: rest => if b then i :: where_from (S i) rest else where_from (S i) rest
  end.
Definition np_where (mask : list bool) : list nat := where_from 0 mask.

(** [np.unique]: the sorted distinct values. *)
Fixpoint insert_unique (x : Qc) (l : vec) : vec :=
  match l with
  | [] => [x]
  | y :: rest =>
      if Qc_ltb x y then x :: l
      else if Qc_ltb y x then y :: insert_unique x rest
      else l
  end.
Definition np_unique (v : vec) : vec := foldr insert_unique [] v.

(** A loop whose body may raise. *)
Fixpoint res_foldl {A B : Type} (f : A -> B -> res A) (a : A) (l : list B) : res A :=
  match l with
  | [] => Ok a
  | b :: rest => a' <-! f a b ;; res_foldl f a' rest
  end.

(** [enumerate(l)] *)
Definition enumerate {A : Type} (l : list A) : list (nat * A) :=
  imap (fun i a => (i, a)) l.

(** ** The AST table

    [self.data] is a structured array: every row carries one value per
    named column. *)

Abbreviation Row := (string -> Qc).
Abbreviation Table := (list (string -> Qc)).

(** [asts[name][k]]; every [k] it is read at comes from
    [range(len(asts))] or from [np.where] over [asts]. *)
Definition cell (asts : Table) (name : string) (k : nat) : Qc :=
  match asts !! k with
  | Some r => r name
  | None => 0
  end.

(** [asts[name]] *)
Definition column (asts : Table) (name : string) : vec :=
  map (fun r : Row => r name) asts.

Inductive ast_result : Type :=
| Rejected
| CovBias (cov_matrix : mat) (biases : vec)
| CovAll (cov_matrix : mat) (biases : vec) (stddevs : vec)
         (corr_matrix : mat) (diffs : mat) (imags : vec).

Section NoiseModel.

(** [np.power(10.0, x)], [np.sqrt(x)] and [np.log10(x)]. *)
Variable np_power10 : Qc -> Qc.
Variable np_sqrt : Qc -> Qc.
Variable np_log10 : Qc -> Qc.

(** The content of a cell of the array allocated by [np.empty] for the
    named variable, before anything is stored in it. *)
Variable uninit : string -> list nat -> Qc.

Definition np_empty1 (name : string) (n : nat) : vec :=
  map (fun i => uninit name [i]) (seq 0 n).
Definition np_empty2 (name : string) (n m : nat) : mat :=
  map (fun i => map (fun j => uninit name [i; j]) (seq 0 m)) (seq 0 n).
Definition np_empty3 (name : string) (n m p : nat) : list mat :=
  map (fun i =>
         map (fun j => map (fun k => uninit name [i; j; k]) (seq 0 p)) (seq 0 m))
      (seq 0 n).
Definition np_full2 (n m : nat) (x : Qc) : mat := replicate n (replicate m x).

(** [np.std] of a 1-d array with its default [ddof=0]:
    [sqrt(mean(abs(x - x.mean())**2))]. *)
Definition np_std (v : vec) : Qc :=
  np_sqrt (np_mean (map (fun x => (x - np_mean v) * (x - np_mean v)) v)).

(** *** [_calc_ast_cov] *)

(** The inner loop over the filters that counts in how many of them the
    AST [k] was recovered. *)
Definition count_good (asts : Table) (filters : list string) (k : nat) : nat :=
  foldl (fun cgood cfilter =>
           if Qc_ltb (cell asts (cfilter ++ "_VEGA") k) ninety
           then (cgood + 1)%nat else cgood)
        0%nat filters.

Definition calc_gtindxs (asts : Table) (filters : list string) : list nat :=
  let n_asts := length asts in
  foldl (fun gtindxs k => <[k := count_good asts filters k]> gtindxs)
        (replicate n_asts 1%nat) (seq 0 n_asts).

(** [np.where(gtindxs > 0)] *)
Definition good_indxs (asts : Table) (filters : list string) : list nat :=
  np_where (map (fun g => bool_decide (0 < g)%nat) (calc_gtindxs asts filters)).

(** The four per-filter arrays filled by the first loop over the
    filters. *)
Record filter_arrays : Type := FilterArrays {
  fa_imags : vec;
  fa_diffs : mat;
  fa_biases : vec;
  fa_stddevs : vec
}.

(** [asts[cfilter+'_RATE'][indxs] - np.power(10.0, -0.4*asts[cfilter+'_IN'][indxs])] *)
Definition diff_row (asts : Table) (cfilter : string) (indxs : list nat) : vec :=
  map (fun i => cell asts (cfilter ++ "_RATE") i
                - np_power10 (minus_04 * cell asts (cfilter ++ "_IN") i))
      indxs.

(** The body of the first loop over [enumerate(filters)]. *)
Definition filter_step (asts : Table) (indxs : list nat)
    (st : filter_arrays) (it : nat * string) : filter_arrays :=
  let '(ck, cfilter) := it in
  let imags := <[ck := cell asts (cfilter ++ "_IN") (default 0%nat (indxs !! 0%nat))]>
                 (fa_imags st) in
  let diffs := <[ck := diff_row asts cfilter indxs]> (fa_diffs st) in
  let biases := <[ck := np_mean (default [] (diffs !! ck))]> (fa_biases st) in
  let stddevs := <[ck := np_std (default [] (diffs !! ck))]> (fa_stddevs st) in
  FilterArrays imags diffs biases stddevs.

(** The covariance accumulation, three nested loops. *)
Definition cov_accumulate (n_filters n_indxs : nat) (diffs : mat) (biases : vec)
    (cov_matrix : mat) : mat :=
  foldl (fun cov ck =>
    foldl (fun cov dk =>
      foldl (fun cov ci =>
               upd2 (fun c => c + (get2 diffs ck ci - get1 biases ck)
                                  * (get2 diffs dk ci - get1 biases dk))
                    ck dk cov)
            cov (seq 0 n_indxs))
      cov (seq 0 n_filters))
    cov_matrix (seq 0 n_filters).

(** The correlation loop. *)
Definition corr_fill (n_filters : nat) (stddevs : vec) (corr_matrix : mat) : mat :=
  foldl (fun corr ck =>
    foldl (fun corr dk =>
             if Qc_ltb 0 (get1 stddevs ck * get1 stddevs dk)
             then upd2 (fun c => c / (get1 stddevs ck * get1 stddevs dk)) ck dk corr
             else upd2 (fun _ => 0) ck dk corr)
          corr (seq 0 n_filters))
    corr_matrix (seq 0 n_filters).

(** [Rejected] is the [False] the method returns in place of a tuple. *)
Definition _calc_ast_cov (data : Table) (indxs : list nat) (filters : list string)
    (return_all : bool) : res ast_result :=
  (* asts = self.data[indxs] *)
  asts <-! take_indices data indxs ;;
  (* indxs, = np.where(gtindxs > 0) *)
  let indxs := good_indxs asts filters in
  let n_indxs := length indxs in
  if bool_decide (n_indxs <= 5)%nat then Ok Rejected
  else
    let n_filters := length filters in
    let st0 := FilterArrays (np_empty1 "imags" n_filters)
                            (np_empty2 "diffs" n_filters n_indxs)
                            (np_empty1 "biases" n_filters)
                            (np_empty1 "stddevs" n_filters) in
    let st := foldl (filter_step asts indxs) st0 (enumerate filters) in
    let cov_matrix :=
      cov_accumulate n_filters n_indxs (fa_diffs st) (fa_biases st)
                     (np_full2 n_filters n_filters 0) in
    (* cov_matrix /= (n_indxs-1) *)
    let cov_matrix := map (map (fun c => c / Qc_pred_nat n_indxs)) cov_matrix in
    (* corr_matrix = np.array(cov_matrix) *)
    let corr_matrix := corr_fill n_filters (fa_stddevs st) cov_matrix in
    if return_all
    then Ok (CovAll cov_matrix (fa_biases st) (fa_stddevs st) corr_matrix
                    (fa_diffs st) (fa_imags st))
    else Ok (CovBias cov_matrix (fa_biases st)).

(** *** [_calc_all_ast_cov] *)

Record agg_arrays : Type := AggArrays {
  all_covs : list mat;
  all_corrs : list mat;
  all_biases : mat;
  all_imags : mat;
  good_asts : list bool
}.

(** [np.where(self.data[filtername] == uval)] *)
Definition model_indxs (data : Table) (filtername : string) (uval : Qc) : list nat :=
  np_where (map (fun v => bool_decide (v = uval)) (column data filtername)).

(** One iteration of the loop over the unique models.  With
    [return_all=True] the estimator returns [False] or the tuple of six;
    subscripting a tuple of two at 3 would raise. *)
Definition agg_step (data : Table) (filters : list string) (filtername : string)
    (uvals : vec) (st : agg_arrays) (i : nat) : res agg_arrays :=
  let indxs := model_indxs data filtername (get1 uvals i) in
  let n_asts := length indxs in
  if bool_decide (5 < n_asts)%nat then
    results <-! _calc_ast_cov data indxs filters true ;;
    match results with
    | CovAll cov biases _ corr _ imags =>
        Ok (AggArrays (<[i := cov]> (all_covs st))
                      (<[i := corr]> (all_corrs st))
                      (<[i := biases]> (all_biases st))
                      (<[i := imags]> (all_imags st))
                      (good_asts st))
    | CovBias _ _ => Raise IndexError
    | Rejected =>
        Ok (AggArrays (all_covs st) (all_corrs st) (all_biases st) (all_imags st)
                      (<[i := false]> (good_asts st)))
    end
  else Ok st.

Definition agg_init (n_models n_filters : nat) : agg_arrays :=
  AggArrays (np_empty3 "all_covs" n_models n_filters n_filters)
            (np_empty3 "all_corrs" n_models n_filters n_filters)
            (np_empty2 "all_biases" n_models n_filters)
            (np_empty2 "all_imags" n_models n_filters)
            (replicate n_models true).

(** The state of the arrays when the loop over the models ends. *)
Definition agg_loop (data : Table) (filters : list string) (filtername : string)
    (uvals : vec) : res agg_arrays :=
  res_foldl (agg_step data filters filtername uvals)
            (agg_init (length uvals) (length filters))
            (seq 0 (length uvals)).

Record aggregate : Type := Aggregate {
  agg_covs : list mat;
  agg_biases : mat;
  agg_corrs : list mat;
  agg_ifluxes : mat
}.

Definition _calc_all_ast_cov (data : Table) (filters : list string) : res aggregate :=
  (* filtername = filters[-1] + '_IN' *)
  lastf <-! match list.last filters with Some f => Ok f | None => Raise IndexError end ;;
  let filtername := lastf ++ "_IN" in
  let uvals := np_unique (column data filtername) in
  st <-! agg_loop data filters filtername uvals ;;
  let indxs := np_where (good_asts st) in
  covs <-! take_indices (all_covs st) indxs ;;
  biases <-! take_indices (all_biases st) indxs ;;
  corrs <-! take_indices (all_corrs st) indxs ;;
  imags <-! take_indices (all_imags st) indxs ;;
  Ok (Aggregate covs biases corrs
                (map (map (fun m => np_power10 (minus_04 * m))) imags)).

(** *** [process_asts] and [__call__] *)

(** [cKDTree.query(x, k)] on the tree built over the given points:
    the distances and the positions of the neighbours. *)
Variable kdtree_query : list vec -> vec -> nat -> vec * list nat.
(** [np.linalg.inv], which raises [LinAlgError] on a singular matrix,
    and [np.linalg.slogdet], which returns (sign, ln|det|). *)
Variable linalg_inv : mat -> res mat.
Variable linalg_slogdet : mat -> Qc * Qc.

Record MultiFilterASTs : Type := {
  data : Table;
  filters : list string;
  vega_flux : vec;
  _input_fluxes : mat;
  _biases : mat;
  _cov_matrices : list mat;
  _corr_matrices : list mat;
  (** the points the k-d tree was built over *)
  _kdtree : list vec
}.

(** The object after [__init__] (which sets [data], [filters] and
    [vega_flux]) and [process_asts(filters)]. *)
Definition process_asts (data : Table) (self_filters : list string) (vega_flux : vec)
    (filters : list string) : res MultiFilterASTs :=
  results <-! _calc_all_ast_cov data filters ;;
  Ok {| data := data; filters := self_filters; vega_flux := vega_flux;
        _cov_matrices := agg_covs results;
        _biases := agg_biases results;
        _corr_matrices := agg_corrs results;
        _input_fluxes := agg_ifluxes results;
        _kdtree := map (map np_log10) (agg_ifluxes results) |}.

(** The model grid: [sedgrid.seds] with its [shape]. *)
Record SedGrid : Type := {
  seds : mat;
  seds_shape : nat * nat
}.

(** The output arrays of [__call__], and the record of the queries it
    has sent to the k-d tree (query point, number of neighbours). *)
Record call_state : Type := CallState {
  bias : mat;
  sigmas : mat;
  icov_diag : mat;
  icov_offdiag : mat;
  q_norm : vec;
  compl : mat;
  queries : list (vec * nat)
}.

(** Statements that update the arrays and may raise: the arrays keep
    what was stored before the exception. *)
Definition eff (A : Type) : Type := call_state -> call_state * res A.

Definition eff_ret {A : Type} (a : A) : eff A := fun st => (st, Ok a).
Definition eff_bind {A B : Type} (m : eff A) (k : A -> eff B) : eff B :=
  fun st => match m st with
            | (st', Ok a) => k a st'
            | (st', Raise e) => (st', Raise e)
            end.
Definition eff_lift {A : Type} (r : res A) : eff A := fun st => (st, r).
Definition eff_modify (f : call_state -> call_state) : eff unit :=
  fun st => (f st, Ok tt).

Notation "x <- m ;;; k" := (eff_bind m (fun x => k))
  (at level 100, m at next level, right associativity).
Notation "m ;;; k" := (eff_bind m (fun _ => k))
  (at level 100, right associativity).

Fixpoint eff_for (l : list nat) (body : nat -> eff unit) : eff unit :=
  match l with
  | [] => eff_ret tt
  | i :: rest => body i ;;; eff_for rest body
  end.

(** A loop that carries a local variable. *)
Fixpoint eff_foldl {A : Type} (body : A -> nat -> eff A) (a : A) (l : list nat) : eff A :=
  match l with
  | [] => eff_ret a
  | i :: rest => a' <- body a i ;;; eff_foldl body a' rest
  end.

Definition set_sigmas (f : mat -> mat) : eff unit :=
  eff_modify (fun st => CallState (bias st) (f (sigmas st)) (icov_diag st)
                                  (icov_offdiag st) (q_norm st) (compl st) (queries st)).
Definition set_icov_diag (f : mat -> mat) : eff unit :=
  eff_modify (fun st => CallState (bias st) (sigmas st) (f (icov_diag st))
                                  (icov_offdiag st) (q_norm st) (compl st) (queries st)).
Definition set_icov_offdiag (f : mat -> mat) : eff unit :=
  eff_modify (fun st => CallState (bias st) (sigmas st) (icov_diag st)
                                  (f (icov_offdiag st)) (q_norm st) (compl st) (queries st)).
Definition set_q_norm (f : vec -> vec) : eff unit :=
  eff_modify (fun st => CallState (bias st) (sigmas st) (icov_diag st)
                                  (icov_offdiag st) (f (q_norm st)) (compl st) (queries st)).

(** [self._kdtree.query(x, k)] *)
Definition query (tree : list vec) (x : vec) (k : nat) : eff (vec * list nat) :=
  fun st => (CallState (bias st) (sigmas st) (icov_diag st) (icov_offdiag st)
                       (q_norm st) (compl st) (queries st ++ [(x, k)]),
             Ok (kdtree_query tree x k)).

(** [np.average(ms, axis=0, weights=w)] for a stack of [n] by [n]
    matrices: the weighted sum over the sum of the weights, cell by
    cell. *)
Definition np_average (n : nat) (ms : list mat) (w : vec) : mat :=
  map (fun a =>
         map (fun b => vsum (zip_with (fun wk mk => wk * get2 mk a b) w ms) / vsum w)
             (seq 0 n))
      (seq 0 n).

Definition np_diagonal (n : nat) (m : mat) : vec :=
  map (fun k => get2 m k k) (seq 0 n).

(** The packing loops.  [m] is the running position in the
    off-diagonal row. *)
Definition store_offdiag (inv : mat) (i k : nat) (m l : nat) : eff nat :=
  set_icov_offdiag (upd2 (fun _ => get2 inv k l) i m) ;;;
  eff_ret (m + 1)%nat.

Definition pack_offdiag_row (inv : mat) (n_filters i k : nat) (m : nat) : eff nat :=
  eff_foldl (store_offdiag inv i k) m (seq (k + 1) (n_filters - (k + 1))).

Definition pack_row (inv : mat) (n_filters i : nat) (m k : nat) : eff nat :=
  set_icov_diag (upd2 (fun _ => get2 inv k k) i k) ;;;
  pack_offdiag_row inv n_filters i k m.

(** With no filter, [inv_cur_cov_matrix[n_filters-1, n_filters-1]]
    subscripts an empty matrix. *)
Definition pack_icov (inv : mat) (n_filters i : nat) : eff unit :=
  match n_filters with
  | O => eff_lift (Raise IndexError)
  | S last =>
      set_icov_diag (upd2 (fun _ => get2 inv last last) i last) ;;;
      _ <- eff_foldl (pack_row inv n_filters i) 0%nat (seq 0 last) ;;;
      eff_ret tt
  end.

(** The body of the loop over the grid rows. *)
Definition eval_row (self : MultiFilterASTs) (flux : mat) (n_filters i : nat) : eff unit :=
  (* cur_flux = flux[i,:]/self.vega_flux *)
  row <- eff_lift (subscript flux i) ;;;
  let cur_flux := zip_with Qcdiv row (vega_flux self) in
  (* result = self._kdtree.query(np.log10(cur_flux),10) *)
  result <- query (_kdtree self) (map np_log10 cur_flux) 10 ;;;
  let dist := fst result in
  let indxs := snd result in
  let dist_weights := map (fun d => 1 / d) dist in
  let dist_weights := map (fun w => w / vsum dist_weights) dist_weights in
  covs <- eff_lift (take_indices (_cov_matrices self) indxs) ;;;
  let cur_cov_matrix := np_average n_filters covs dist_weights in
  set_sigmas (<[i := map np_sqrt (np_diagonal n_filters cur_cov_matrix)]>) ;;;
  inv_cur_cov_matrix <- eff_lift (linalg_inv cur_cov_matrix) ;;;
  pack_icov inv_cur_cov_matrix n_filters i ;;;
  let det := linalg_slogdet cur_cov_matrix in
  set_q_norm (<[i := minus_half * snd det]>).

(** The arrays bound to local names when the [return] statement is
    reached; the method has no other variable, the module no global
    and Python no builtin called [sigma]. *)
Inductive ndarray : Type :=
| Arr1 (v : vec)
| Arr2 (m : mat).

Definition local_name (st : call_state) (name : string) : res ndarray :=
  if String.eqb name "bias" then Ok (Arr2 (bias st))
  else if String.eqb name "sigmas" then Ok (Arr2 (sigmas st))
  else if String.eqb name "icov_diag" then Ok (Arr2 (icov_diag st))
  else if String.eqb name "icov_offdiag" then Ok (Arr2 (icov_offdiag st))
  else if String.eqb name "q_norm" then Ok (Arr1 (q_norm st))
  else if String.eqb name "compl" then Ok (Arr2 (compl st))
  else Raise NameError.

(** [return (bias, sigma, compl, q_norm, icov_diag, icov_offdiag)] *)
Definition return_tuple (st : call_state) : res (list ndarray) :=
  a <-! local_name st "bias" ;;
  b <-! local_name st "sigma" ;;
  c <-! local_name st "compl" ;;
  d <-! local_name st "q_norm" ;;
  e <-! local_name st "icov_diag" ;;
  f <-! local_name st "icov_offdiag" ;;
  Ok [a; b; c; d; e; f].

(** [((n_filters**2) - n_filters) / 2] on Python 2 integers. *)
Definition calc_n_offdiag (n_filters : nat) : nat :=
  ((n_filters ^ 2 - n_filters) / 2)%nat.

Definition call_init (n_models n_filters : nat) : call_state :=
  CallState (np_empty2 "bias" n_models n_filters)
            (np_empty2 "sigmas" n_models n_filters)
            (np_empty2 "icov_diag" n_models n_filters)
            (np_empty2 "icov_offdiag" n_models (calc_n_offdiag n_filters))
            (np_empty1 "q_norm" n_models)
            (np_empty2 "compl" n_models n_filters)
            [].

(** The state in which the loop over the grid rows ends, and whether
    it ended by an exception.  [n_models'] is [n_models] after the
    assignment [n_models = 10]. *)
Definition call_loop (self : MultiFilterASTs) (sedgrid : SedGrid) : call_state * res unit :=
  let flux := seds sedgrid in
  let '(n_models, n_filters) := seds_shape sedgrid in
  let n_models' := 10%nat in
  eff_for (seq 0 n_models') (eval_row self flux n_filters)
          (call_init n_models n_filters).

Definition __call__ (self : MultiFilterASTs) (sedgrid : SedGrid) : res (list ndarray) :=
  let '(n_models, n_filters) := seds_shape sedgrid in
  if bool_decide (n_filters <> length (filters self)) then Raise AttributeError
  else
    match call_loop self sedgrid with
    | (st, Ok _) => return_tuple st
    | (_, Raise e) => Raise e
    end.

End NoiseModel.


(** ** Rational stand-ins for the library routines

    Coarse but computable versions of the routines the model takes as
    parameters; they serve to run the model on concrete tables.  They
    are exact where the examples need them: on integer powers of ten and
    on squares of rationals. *)

(** The rational values of the cells of an array. *)
Definition rationals (v : vec) : list Q := map this v.

Module Approx.

Definition floor_pow10 (z : Z) : Qc := Q2Qc (Qpower 10 z).

(** [10 ^ floor(x)] *)
Definition power10 (x : Qc) : Qc := floor_pow10 (Qfloor x).

(** The square root of [x = p / q] to six decimal places:
    [floor(sqrt(p * q * 10^12)) / (q * 10^6)]. *)
Definition sqrt (x : Qc) : Qc :=
  Q2Qc (Z.sqrt (Qnum x * Zpos (Qden x) * 10 ^ 12) # (Qden x * 10 ^ 6)).

Fixpoint digits (fuel : nat) (n : Z) : Z :=
  match fuel with
  | O => 0
  | S fuel' => if (n <? 10)%Z then 0%Z else (1 + digits fuel' (n / 10))%Z
  end.

(** [floor(log10(n))] for a positive integer *)
Definition ilog10 (n : Z) : Z := digits (Z.to_nat (Z.log2 n) + 1) n.

(** [floor(log10(x))] for [x >= 1], [- floor(log10(1/x))] for
    [0 < x < 1] and [0] elsewhere *)
Definition log10 (x : Qc) : Qc :=
  if bool_decide (1 <= x) then Qc_of_Z (ilog10 (Qfloor x))
  else if bool_decide (0 < x) then Qc_of_Z (- ilog10 (Qfloor (/ x)))
  else 0.

(** Euclidean distance, with the rational square root. *)
Definition distance (x y : vec) : Qc :=
  sqrt (vsum (zip_with (fun a b => (a - b) * (a - b)) x y)).

Fixpoint insert_by_dist (e : Qc * nat) (l : list (Qc * nat)) : list (Qc * nat) :=
  match l with
  | [] => [e]
  | e' :: rest =>
      if bool_decide (fst e < fst e') then e :: l else e' :: insert_by_dist e rest
  end.

(** The [k] nearest points by exhaustive search; as in SciPy, missing
    neighbours get the index [len(points)] (their distance, infinite in
    SciPy, is given as 0 here). *)
Definition kdtree_query (points : list vec) (x : vec) (k : nat) : vec * list nat :=
  let sorted := foldr insert_by_dist [] (imap (fun i p => (distance x p, i)) points) in
  let found := take k sorted in
  let missing := replicate (k - length found) (0, length points) in
  (map fst (found ++ missing)%list, map snd (found ++ missing)%list).

Definition drop_col (j : nat) (m : mat) : mat := map (fun r => (take j r ++ drop (S j) r)%list) m.
Definition minor (i j : nat) (m : mat) : mat := drop_col j (take i m ++ drop (S i) m)%list.

Definition sign_of (j : nat) : Qc := if Nat.even j then 1 else - 1.

(** Laplace expansion along the first row of an [n] by [n] matrix. *)
Fixpoint det (n : nat) (m : mat) : Qc :=
  match n with
  | O => 1
  | S n' =>
      match m with
      | [] => 1
      | r :: rest =>
          vsum (imap (fun j a => sign_of j * a * det n' (drop_col j rest)) r)
      end
  end.

(** The inverse as adjugate over determinant. *)
Definition linalg_inv (m : mat) : res mat :=
  let n := length m in
  let d := det n m in
  if bool_decide (d = 0) then Raise LinAlgError
  else Ok (map (fun i =>
                  map (fun j => sign_of (i + j) * det (n - 1) (minor j i m) / d)
                      (seq 0 n))
               (seq 0 n)).

Definition Qc_abs (x : Qc) : Qc := if bool_decide (x < 0) then - x else x.

(** sign and [ln 10 * floor(log10 |det|)], with [ln 10] as 2302585/10^6 *)
Definition linalg_slogdet (m : mat) : Qc * Qc :=
  let d := det (length m) m in
  (if bool_decide (d = 0) then 0 else if bool_decide (d < 0) then - 1 else 1,
   Q2Qc (2302585 # 1000000) * log10 (Qc_abs d)).

(** Unwritten memory reads as the number of the dimensions of the
    index plus 1000. *)
Definition uninit (name : string) (idx : list nat) : Qc :=
  Qc_of_Z (1000 + Z.of_nat (length idx)).

End Approx.

(** ** Concrete tables and grids *)

Module Examples.

(** A one-filter AST record: input magnitude, recovered flux ratio and
    recovered magnitude of filter F1. *)
Definition ast_row (mag rate vega : Q) : Row := fun c =>
  if String.eqb c "F1_IN" then Q2Qc mag
  else if String.eqb c "F1_RATE" then Q2Qc rate
  else if String.eqb c "F1_VEGA" then Q2Qc vega
  else 0.

(** Six recovered ASTs of one model of input magnitude [mag]: the
    recovered flux ratio is the input flux [flux] plus or minus [d]. *)
Definition six_asts (mag flux d : Q) : Table :=
  [ast_row mag (flux + d) 19; ast_row mag (flux - d) 19;
   ast_row mag (flux + d) 19; ast_row mag (flux - d) 19;
   ast_row mag (flux + d) 19; ast_row mag (flux - d) 19].

(** One model at magnitude 0 (flux 1) with six recovered ASTs. *)
Definition one_model : Table := six_asts 0 1 1.

(** A model with six ASTs and a model with only three. *)
Definition small_group : Table :=
  (six_asts 0 1 1 ++ [ast_row 5 1 19; ast_row 5 1 19; ast_row 5 1 19])%list.

(** The model of magnitude [2.5 j], of flux [10^-j], recovered with
    half its flux too much or too little. *)
Definition model (j : nat) : Table :=
  six_asts (inject_Z (Z.of_nat j) * (5 # 2))
           (Qpower 10 (- Z.of_nat j)) (Qpower 10 (- Z.of_nat j) / 2).

(** Ten models, at magnitudes 0, 2.5, ..., 22.5. *)
Definition ten_models : Table := flat_map model (seq 0 10).

(** Three models, at magnitudes 0, 2.5 and 5. *)
Definition three_models : Table := flat_map model (seq 0 3).

Definition process (data : Table) : res (MultiFilterASTs) :=
  process_asts Approx.power10 Approx.sqrt Approx.log10 Approx.uninit
               data ["F1"] [1] ["F1"].

(** A one-filter grid with the given fluxes. *)
Definition grid (fluxes : list Q) : SedGrid :=
  {| seds := map (fun f => [Q2Qc f]) fluxes;
     seds_shape := (length fluxes, 1%nat) |}.

Definition call (data : Table) (g : SedGrid) : res (list ndarray) :=
  self <-! process data ;;
  __call__ Approx.sqrt Approx.log10 Approx.uninit
           Approx.kdtree_query Approx.linalg_inv Approx.linalg_slogdet self g.

Definition loop (data : Table) (g : SedGrid) : res (call_state * res unit) :=
  self <-! process data ;;
  Ok (call_loop Approx.sqrt Approx.log10 Approx.uninit
                Approx.kdtree_query Approx.linalg_inv Approx.linalg_slogdet self g).

Definition grid11 : SedGrid :=
  grid [1 # 2; 1 # 3; 1 # 20; 1 # 30; 1 # 200; 1 # 300; 1 # 2000; 1 # 3000;
        1 # 5; 1 # 50; 1 # 500]%Q.
Definition grid10 : SedGrid :=
  grid [1 # 2; 1 # 3; 1 # 20; 1 # 30; 1 # 200; 1 # 300; 1 # 2000; 1 # 3000;
        1 # 5; 1 # 50]%Q.
Definition grid3 : SedGrid := grid [1 # 2; 1 # 3; 1 # 20]%Q.


End Examples.

(** ** Notions used to state the properties *)

Section Notions.

Variable np_power10 : Qc -> Qc.
Variable np_sqrt : Qc -> Qc.
Variable np_log10 : Qc -> Qc.
Variable kdtree_query : list vec -> vec -> nat -> vec * list nat.

(** *** Matrices *)

(** The cell [m[a,b]], when it exists. *)
Definition lk2 (m : mat) (a b : nat) : option Qc := m !! a ≫= (.!! b).

(** Two nested loops that update every cell of [rows] x [cols] once. *)
Definition loop2 (G : nat -> nat -> Qc -> Qc) (rows cols : list nat) (m : mat) : mat :=
  foldl (fun m ck => foldl (fun m dk => upd2 (G ck dk) ck dk m) m cols) m rows.

(** *** The per-model estimator *)

(** An AST instance is recovered in a filter when its recovered
    magnitude is below 90, and usable when it is recovered in at least
    one filter. *)
Definition recovered (r : Row) (cfilter : string) : bool :=
  Qc_ltb (r (cfilter ++ "_VEGA")) ninety.
Definition usable (filters : list string) (r : Row) : bool :=
  existsb (recovered r) filters.
Definition retained (filters : list string) (asts : Table) : Table :=
  List.filter (usable filters) asts.

(** The flux differences of the retained instances in one filter:
    recovered flux ratio minus [10^(-0.4 * input magnitude)]. *)
Definition flux_diffs (kept : Table) (cfilter : string) : vec :=
  map (fun r => r (cfilter ++ "_RATE")
                - np_power10 (minus_04 * r (cfilter ++ "_IN")))
      kept.

(** The mean of the differences. *)
Definition mean_diff (d : vec) : Qc := vsum d / Qc_of_nat (length d).

(** The unbiased sample covariance of two rows of [K] differences with
    biases [bi] and [bj]:
    [(1/(K-1)) * sum (d_i - bias_i) * (d_j - bias_j)]. *)
Definition sample_cov (K : nat) (bi bj : Qc) (di dj : vec) : Qc :=
  1 / (Qc_of_nat K - 1) * vsum (zip_with (fun x y => (x - bi) * (y - bj)) di dj).

(** The standard deviation with divisor [K], as [np.std] computes it. *)
Definition population_std (d : vec) : Qc :=
  np_sqrt (vsum (map (fun x => (x - mean_diff d) * (x - mean_diff d)) d)
           / Qc_of_nat (length d)).

(** The arrays after the loop has gone through the filters [l]. *)
Definition filter_arrays_after (asts : Table) (indxs : list nat) (l : list string)
    (st0 : filter_arrays) : filter_arrays :=
  let n := length l in
  FilterArrays
    (map (fun f => cell asts (f ++ "_IN") (default 0%nat (indxs !! 0%nat))) l
         ++ drop n (fa_imags st0))%list
    (map (fun f => diff_row np_power10 asts f indxs) l ++ drop n (fa_diffs st0))%list
    (map (fun f => np_mean (diff_row np_power10 asts f indxs)) l
         ++ drop n (fa_biases st0))%list
    (map (fun f => np_std np_sqrt (diff_row np_power10 asts f indxs)) l
         ++ drop n (fa_stddevs st0))%list.

(** What the three covariance loops add to the cell [ck, dk]. *)
Definition cov_term (diffs : mat) (biases : vec) (n_indxs ck dk : nat) : Qc :=
  vsum (map (fun ci => (get2 diffs ck ci - get1 biases ck)
                       * (get2 diffs dk ci - get1 biases dk))
            (seq 0 n_indxs)).

(** What the correlation loop stores in the cell [ck, dk]. *)
Definition corr_cell (stddevs : vec) (ck dk : nat) (c : Qc) : Qc :=
  if Qc_ltb 0 (get1 stddevs ck * get1 stddevs dk)
  then c / (get1 stddevs ck * get1 stddevs dk) else 0.

(** *** The aggregator *)

(** The ASTs of the model whose reference input magnitude is [uval]. *)
Definition group_rows (data : Table) (filtername : string) (uval : Qc) : Table :=
  List.filter (fun r => bool_decide (r filtername = uval)) data.

(** Whether the loop leaves the flag of the model at [True]: it clears
    the flag only when the estimator has been called, that is with more
    than five ASTs, and has rejected the model. *)
Definition flag_kept (data : Table) (filters : list string) (filtername : string)
    (uval : Qc) : bool :=
  negb (bool_decide (5 < length (group_rows data filtername uval))%nat
        && bool_decide (length (retained filters (group_rows data filtername uval)) < 6)%nat).

(** *** The interpolator *)

(** A statement preserves [P] when [P] holds of the arrays it leaves,
    whether it raises or not. *)
Definition preserves {A : Type} (P : call_state -> Prop) (m : eff A) : Prop :=
  forall st, P st -> P (fst (m st)).

Definition row_is (j : nat) (s d o : option vec) (q : option Qc) (st : call_state) : Prop :=
  sigmas st !! j = s /\ icov_diag st !! j = d
  /\ icov_offdiag st !! j = o /\ q_norm st !! j = q.

(** The distance-weighted average of the covariance matrices of the
    neighbours of a grid row. *)
Definition interpolated_cov (self : MultiFilterASTs) (n_filters : nat) (row : vec)
    : res mat :=
  let cur_flux := zip_with Qcdiv row (vega_flux self) in
  let result := kdtree_query (_kdtree self) (map np_log10 cur_flux) 10 in
  let dist_weights := map (fun d => 1 / d) result.1 in
  let dist_weights := map (fun w => w / vsum dist_weights) dist_weights in
  covs <-! take_indices (_cov_matrices self) result.2 ;;
  Ok (np_average n_filters covs dist_weights).

(** *** The packed inverse covariance *)

(** The strictly-upper entries of an [n] by [n] matrix, by increasing
    row, then by increasing column. *)
Definition upper_triangle (n : nat) (inv : mat) : vec :=
  flat_map (fun k => map (fun l => get2 inv k l) (seq (S k) (n - S k))) (seq 0 n).



(** The arrays after a change of [icov_diag] and of [icov_offdiag]. *)
Definition with_icov (fd fo : mat -> mat) (st : call_state) : call_state :=
  CallState (bias st) (sigmas st) (fd (icov_diag st)) (fo (icov_offdiag st))
            (q_norm st) (compl st) (queries st).

(** Stores at the consecutive positions [m], [m + 1], ... *)
Fixpoint write_seq (m : nat) (vals row : vec) : vec :=
  match vals with
  | [] => row
  | v :: vs => write_seq (S m) vs (<[m := v]> row)
  end.

End Notions.

(** ** Further notions: results, stored rows, exceptions *)

Section MoreNotions.

Variable np_power10 : Qc -> Qc.
Variable np_sqrt : Qc -> Qc.
Variable uninit : string -> list nat -> Qc.

(** The covariance matrix of a result, when the model is not rejected. *)
Definition result_cov (r : ast_result) : option mat :=
  match r with
  | Rejected => None
  | CovBias cov _ => Some cov
  | CovAll cov _ _ _ _ _ => Some cov
  end.

(** An [n] by [n] matrix. *)
Definition square (n : nat) (m : mat) : Prop :=
  length m = n /\ Forall (fun r : vec => length r = n) m.



End MoreNotions.

Module MoreExamples.

(** A two-filter AST record: input magnitude, recovered flux ratio and
    recovered magnitude of F1, then of F2. *)
Definition ast_row2 (mag1 rate1 vega1 mag2 rate2 vega2 : Q) : Row := fun c =>
  if String.eqb c "F1_IN" then Q2Qc mag1
  else if String.eqb c "F1_RATE" then Q2Qc rate1
  else if String.eqb c "F1_VEGA" then Q2Qc vega1
  else if String.eqb c "F2_IN" then Q2Qc mag2
  else if String.eqb c "F2_RATE" then Q2Qc rate2
  else if String.eqb c "F2_VEGA" then Q2Qc vega2
  else 0.

(** Seven ASTs of one model in two filters; the last one is recovered
    in F2 only and the sixth in F1 only. *)
Definition two_filters : Table :=
  [ast_row2 0 2 19 0 3 18; ast_row2 0 0 19 0 1 18; ast_row2 0 3 19 0 1 18;
   ast_row2 0 1 19 0 0 18; ast_row2 0 2 19 0 2 18; ast_row2 0 1 19 0 1 99;
   ast_row2 0 1 99 0 2 18].

(** The object [process_asts] leaves for a table; the second case does
    not arise with one filter. *)
Definition fitted (data : Table) : MultiFilterASTs :=
  match Examples.process data with
  | Ok self => self
  | Raise _ =>
      {| data := data; filters := ["F1"]; vega_flux := [1];
         _input_fluxes := []; _biases := []; _cov_matrices := [];
         _corr_matrices := []; _kdtree := [] |}
  end.

End MoreExamples.

(** ** Further notions: the rows of the aggregated arrays *)

Section AggregatorNotions.

Variable np_power10 : Qc -> Qc.
Variable np_sqrt : Qc -> Qc.
Variable uninit : string -> list nat -> Qc.

(** The rows of the model at position [i] in the four arrays of the
    loop: covariance, correlation, biases, input magnitudes. *)
Definition agg_rows (st : agg_arrays) (i : nat)
    : option mat * option mat * option vec * option vec :=
  (all_covs st !! i, all_corrs st !! i, all_biases st !! i, all_imags st !! i).

(** The rows the iteration for the model of reference magnitude [uval]
    leaves, [before] being the rows it found. *)
Definition model_rows (data : Table) (filters : list string) (filtername : string)
    (uval : Qc) (before : option mat * option mat * option vec * option vec)
    : option mat * option mat * option vec * option vec :=
  if bool_decide (5 < length (model_indxs data filtername uval))%nat then
    match _calc_ast_cov np_power10 np_sqrt uninit data
                        (model_indxs data filtername uval) filters true with
    | Ok (CovAll cov biases _ corr _ imags) =>
        (Some cov, Some corr, Some biases, Some imags)
    | _ => before
    end
  else before.

(** The reference magnitudes of the models whose flag the loop leaves
    at [True], in the order of [np.unique]. *)
Definition kept_models (data : Table) (filters : list string) (lastf : string) : vec :=
  List.filter (flag_kept data filters (lastf ++ "_IN"))
              (np_unique (column data (lastf ++ "_IN"))).

(** The rows of the four arrays the aggregator returns. *)
Definition out_rows (agg : aggregate) (j : nat)
    : option mat * option mat * option vec * option vec :=
  (agg_covs agg !! j, agg_corrs agg !! j, agg_biases agg !! j, agg_ifluxes agg !! j).

(** [np.power(10.0, -0.4*imags)] on a row of input magnitudes. *)
Definition to_fluxes (rows : option mat * option mat * option vec * option vec)
    : option mat * option mat * option vec * option vec :=
  let '(c, r, b, m) := rows in
  (c, r, b, map (fun x => np_power10 (minus_04 * x)) <$> m).

End AggregatorNotions.

(** ** Further tables and runs *)

Module Cases.

(** The statistics of the seven ASTs of [two_filters]. *)
Definition two_filter_result : ast_result :=
  match _calc_ast_cov Approx.power10 Approx.sqrt Approx.uninit
                      MoreExamples.two_filters (seq 0 7) ["F1"; "F2"] true with
  | Ok r => r
  | Raise _ => Rejected
  end.
Definition two_filter_cov : mat := default [] (result_cov two_filter_result).
Definition two_filter_corr : mat :=
  match two_filter_result with
  | CovAll _ _ _ corr _ _ => corr
  | _ => []
  end.

(** What the aggregator returns for a one-filter table. *)
Definition aggregated (data : Table) : aggregate :=
  match _calc_all_ast_cov Approx.power10 Approx.sqrt Approx.uninit data ["F1"] with
  | Ok agg => agg
  | Raise _ => Aggregate [] [] [] []
  end.

(** The reference magnitude of the [j]-th retained model. *)
Definition kept_at (data : Table) (j : nat) : Qc :=
  default 0 (kept_models data ["F1"] "F1" !! j).

(** The arrays when the loop of [__call__] ends. *)
Definition loop_state (data : Table) (g : SedGrid) : call_state :=
  (call_loop Approx.sqrt Approx.log10 Approx.uninit
             Approx.kdtree_query Approx.linalg_inv Approx.linalg_slogdet
             (MoreExamples.fitted data) g).1.

(** The model of magnitude [2.5 j], of flux [10^-j], recovered with
    1 too much or too little whatever its flux. *)
Definition same_scatter (j : nat) : Table :=
  Examples.six_asts (inject_Z (Z.of_nat j) * (5 # 2)) (Qpower 10 (- Z.of_nat j)) 1.

(** Ten models with the same covariance. *)
Definition ten_alike : Table := flat_map same_scatter (seq 0 10).

(** The covariance matrix of the first of them. *)
Definition alike_cov : mat :=
  default [] (_cov_matrices (MoreExamples.fitted ten_alike) !! 0%nat).

End Cases.

(** * The chunked runs of the project pipeline
      (beast/projects/mf_dev/pipeline.py)

    [t_project_dir], [prepare_individual_inputs] and [run_chunk_fit]
    compute file names and talk to the file system, to the table
    reader and writer and to the task pipeline.  Those are parameters
    ([Externals]); the model threads their state and keeps a log of
    the calls it makes to them. *)

Module Pipeline.

Inductive py_error : Type :=
| PyException (msg : string)
| PyValueError (msg : string)
| PyIndexError
(** raised by the operating system or by a library *)
| PyForeign (name : string).

Inductive outcome (A : Type) : Type :=
| Returns (a : A)
| Raises (e : py_error).
Arguments Returns {A} a.
Arguments Raises {A} e.

(** What a call to the outside gives back: a value, or the name of
    the exception it raised. *)
Inductive foreign (A : Type) : Type :=
| Done (a : A)
| Failed (name : string).
Arguments Done {A} a.
Arguments Failed {A} name.

(** The calls that change or show something outside the program. *)
Inductive event : Type :=
| Mkdir (path : string)
| ReadTable (name : string)
| WriteTable (rows : list nat) (name : string)
| Glob (pattern : string)
| Print (msg : string)
| GetNoiseModelCat
| FitData (project l_obs l_file : string).

Record Externals : Type := {
  (** the state of the file system and of the libraries *)
  world : Type;
  obs_table : Type;
  ast_table : Type;
  model_grid : Type;
  fit_output : Type;
  os_path_exists : string -> world -> bool;
  os_path_isdir : string -> world -> bool;
  os_mkdir : string -> world -> world * foreign unit;
  (** [Table(name)] and [obs.nrows] *)
  read_table : string -> world -> world * foreign obs_table;
  nrows : obs_table -> nat;
  (** [beast.tools.helpers.chunks(l, n)], as a list *)
  chunks : list nat -> Z -> list (list nat);
  (** [Table(obs[rows]).write(name)] *)
  write_table : obs_table -> list nat -> string -> world -> world * foreign unit;
  glob_glob : string -> world -> list string;
  datamodel_obsfile : string;
  (** [noisemodel.get_noisemodelcat(datamodel.astfile)] *)
  get_noisemodelcat : world -> world * foreign ast_table;
  (** the pipeline [fit_data] built from the four tasks, run on
      [project] *)
  fit_data : string -> model_grid -> ast_table -> string -> string
             -> world -> world * foreign fit_output
}.

(** ** Strings *)

(** [s.split(c)] for a separator of one character. *)
Fixpoint split_on (c : ascii) (s : string) : list string :=
  match s with
  | EmptyString => [EmptyString]
  | String a rest =>
      if Ascii.eqb a c then EmptyString :: split_on c rest
      else match split_on c rest with
           | [] => [String a EmptyString]
           | w :: ws => String a w :: ws
           end
  end.

(** [sep.join(l)] *)
Fixpoint join (sep : string) (l : list string) : string :=
  match l with
  | [] => EmptyString
  | x :: rest =>
      match rest with
      | [] => x
      | _ :: _ => x ++ sep ++ join sep rest
      end
  end.

(** The format [{:d}] of an integer. *)
Definition fmt_d (z : Z) : string := pretty z.

Definition dot : ascii := "."%char.
Definition double_quote : string := String "034"%char EmptyString.

(** [l[i]] for a Python integer [i]: negative positions count from
    the end. *)
Definition list_item {A : Type} (l : list A) (i : Z) : outcome A :=
  let n := Z.of_nat (length l) in
  let pos := if bool_decide (i < 0)%Z then (i + n)%Z else i in
  if bool_decide (0 <= pos < n)%Z then
    match l !! Z.to_nat pos with
    | Some x => Returns x
    | None => Raises PyIndexError
    end
  else Raises PyIndexError.

(** [l[-1]] *)
Definition last_item {A : Type} (l : list A) : outcome A :=
  match list.last l with
  | Some x => Returns x
  | None => Raises PyIndexError
  end.

(** ['{0:s}.part{1:d}.{2:s}'.format(base, fpart, ext)] *)
Definition part_name (base : string) (fpart : Z) (ext : string) : string :=
  base ++ ".part" ++ fmt_d fpart ++ "." ++ ext.

Section Model.

Variable E : Externals.

Definition state : Type := world E * list event.
Definition io (A : Type) : Type := state -> state * outcome A.

Definition io_ret {A : Type} (a : A) : io A := fun st => (st, Returns a).
Definition io_raise {A : Type} (e : py_error) : io A := fun st => (st, Raises e).
Definition io_bind {A B : Type} (m : io A) (k : A -> io B) : io B :=
  fun st => match m st with
            | (st', Returns a) => k a st'
            | (st', Raises e) => (st', Raises e)
            end.
Definition io_lift {A : Type} (r : outcome A) : io A := fun st => (st, r).

(** A look at the outside that changes nothing. *)
Definition io_read {A : Type} (f : world E -> A) : io A :=
  fun st => (st, Returns (f st.1)).

(** A call to the outside, put on the log whether it raises or not. *)
Definition io_call {A : Type} (ev : event) (f : world E -> world E * foreign A) : io A :=
  fun st => (((f st.1).1, (st.2 ++ [ev])%list),
             match (f st.1).2 with
             | Done a => Returns a
             | Failed name => Raises (PyForeign name)
             end).

Definition print (msg : string) : io unit :=
  io_call (Print msg) (fun w => (w, Done tt)).

Notation "x <- m ;;; k" := (io_bind m (fun x => k))
  (at level 100, m at next level, right associativity).
Notation "m ;;; k" := (io_bind m (fun _ => k))
  (at level 100, right associativity).

(** *** [t_project_dir], the function under the task decorator *)

Definition t_project_dir (project : string) : io string :=
  let outdir := project in
  found <- io_read (os_path_exists E outdir) ;;;
  (if found then
     isdir <- io_read (os_path_isdir E outdir) ;;;
     if negb isdir then
       io_raise (PyException ("Output directory " ++ double_quote ++ outdir ++ double_quote
                              ++ " already exists but is not a directory"))
     else io_ret tt
   else io_call (Mkdir outdir) (os_mkdir E outdir)) ;;;
  io_ret (outdir ++ "/" ++ project).

(** *** [prepare_individual_inputs] *)

(** The loop over the chunks, with its two variables [obsfiles] and
    [fpart]. *)
Fixpoint write_chunks (obs : obs_table E) (outname : string * string)
    (slices : list (list nat)) (obsfiles : list string) (fpart : Z)
    : io (list string) :=
  match slices with
  | [] => io_ret obsfiles
  | chunk_slice :: rest =>
      let l_file := part_name outname.1 fpart outname.2 in
      io_call (WriteTable chunk_slice l_file) (write_table E obs chunk_slice l_file) ;;;
      write_chunks obs outname rest (obsfiles ++ [l_file])%list (fpart + 1)%Z
  end.

Definition prepare_individual_inputs (obsfile : string) (chunksize : Z)
    : io (list string) :=
  if bool_decide (chunksize <= 0)%Z then io_ret [obsfile]
  else
    obs <- io_call (ReadTable obsfile) (read_table E obsfile) ;;;
    let outname := split_on dot obsfile in
    ext <- io_lift (last_item outname) ;;;
    let outname := (join "." (removelast outname), ext) in
    write_chunks obs outname (chunks E (seq 0 (nrows E obs)) chunksize) [] 0%Z.

(** *** [run_chunk_fit] *)

Definition run_chunk_fit (project : string) (g : model_grid E) (chunk : Z)
    (ast : option (ast_table E)) (obsfile : option string) : io (fit_output E) :=
  let obsfile := default (datamodel_obsfile E) obsfile in
  ast <- match ast with
         | None => io_call GetNoiseModelCat (get_noisemodelcat E)
         | Some a => io_ret a
         end ;;;
  let obs_base := split_on dot obsfile in
  obs_ext <- io_lift (last_item obs_base) ;;;
  let obs_base := removelast obs_base in
  let pattern := join "." obs_base ++ ".part*." ++ obs_ext in
  lst <- io_call (Glob pattern) (fun w => (w, Done (glob_glob E pattern w))) ;;;
  if bool_decide (length lst = 0%nat) then
    io_raise (PyValueError "cannot find any chunk. Did you run prepare_individual_inputs?")
  else
    (if bool_decide (Z.of_nat (length lst) <= chunk)%Z then print "Chunk not valid"
     else io_ret tt) ;;;
    l_obs <- io_lift (list_item lst chunk) ;;;
    print ("running chunk " ++ l_obs) ;;;
    let outname := project in
    let l_file := outname ++ "/" ++ outname ++ ".part" ++ fmt_d chunk in
    io_call (FitData project l_obs l_file) (fit_data E project g ast l_obs l_file).

End Model.

(** ** Notions used to state the properties *)

(** The names of the tables written, in the order of the calls. *)
Definition written (log : list event) : list string :=
  flat_map (fun ev => match ev with WriteTable _ name => [name] | _ => [] end) log.

(** Whether the character occurs in the string. *)
Fixpoint has_char (c : ascii) (s : string) : bool :=
  match s with
  | EmptyString => false
  | String a rest => Ascii.eqb a c || has_char c rest
  end.

(** The base name and the extension [prepare_individual_inputs] and
    [run_chunk_fit] take from a file name. *)
Definition base_of (obsfile : string) : string :=
  join "." (removelast (split_on dot obsfile)).
Definition ext_of (obsfile : string) : string :=
  default EmptyString (list.last (split_on dot obsfile)).

(** What the file system must do for [t_project_dir]: a directory that
    [os.mkdir] has made exists and is a directory. *)
Definition mkdir_makes (E : Externals) : Prop :=
  forall path w w',
    os_mkdir E path w = (w', Done tt) ->
    os_path_exists E path w' = true /\ os_path_isdir E path w' = true.

(** ** A file system in which nothing fails *)

Inductive node : Type := RegularFile | Directory.

(** Paths name files or directories; a table is the list of its row
    numbers; reading never fails, writing makes a file, and [glob]
    finds nothing. *)
Definition simple : Externals :=
  {| world := gmap string node;
     obs_table := list nat;
     ast_table := unit;
     model_grid := unit;
     fit_output := string * string;
     os_path_exists := fun p w => bool_decide (is_Some (w !! p));
     os_path_isdir := fun p w =>
       match w !! p with
       | Some Directory => true
       | _ => false
       end;
     os_mkdir := fun p w =>
       match w !! p with
       | Some _ => (w, Failed "OSError")
       | None => (<[p := Directory]> w, Done tt)
       end;
     read_table := fun name w => (w, Done (seq 0 5));
     nrows := length;
     chunks := fun l n =>
       [take (Z.to_nat n) l; take (Z.to_nat n) (drop (Z.to_nat n) l);
        drop (Z.to_nat n + Z.to_nat n) l];
     write_table := fun obs rows name w => (<[name := RegularFile]> w, Done tt);
     glob_glob := fun pattern w => ["obs.part0.fits"; "obs.part1.fits"];
     datamodel_obsfile := "obs.fits";
     get_noisemodelcat := fun w => (w, Done tt);
     fit_data := fun project g ast l_obs l_file w => (w, Done (l_obs, l_file)) |}.

(** The empty file system, before any call. *)
Definition fresh : state simple := (∅, []).

(** The file system after [t_project_dir] has made the directory. *)
Definition after_mkdir : state simple := (t_project_dir simple "run" fresh).1.

(** The file system after the catalogue has been cut in chunks of two
    rows. *)
Definition after_chunks : state simple :=
  (prepare_individual_inputs simple "obs.fits" 2 fresh).1.

End Pipeline.

(** ** Facts about the array primitives *)

Section ArrayFacts.

Context {A : Type}.

(** A loop that stores [f k] at every position [k < n] leaves the
    computed prefix followed by the untouched tail. *)
Lemma foldl_insert_seq (f : nat -> A) (n : nat) (g : list A) :
  (n <= length g)%nat ->
  foldl (fun g k => <[k := f k]> g) g (seq 0 n) = (map f (seq 0 n) ++ drop n g)%list.
Proof.
  induction n as [|n IH]; intros Hn.
  - by rewrite drop_0.
  - rewrite seq_S, foldl_app, map_app. cbn [foldl map Nat.add].
    rewrite IH by lia.
    rewrite insert_app_r_alt; rewrite length_map, length_seq; [|lia].
    rewrite Nat.sub_diag, <- app_assoc. f_equal.
    destruct (lookup_lt_is_Some_2 g n) as [x Hx]; [lia|].
    by rewrite (drop_S g x n Hx).
Qed.

Lemma foldl_insert_seq_full (f : nat -> A) (g : list A) :
  foldl (fun g k => <[k := f k]> g) g (seq 0 (length g)) = map f (seq 0 (length g)).
Proof.
  rewrite foldl_insert_seq by lia. by rewrite drop_all, app_nil_r.
Qed.

(** Mapping over the positions of a list is mapping over its
    elements. *)
Lemma map_seq_lookup {B : Type} (l : list A) (i : nat) (g : nat -> B) (h : A -> B) :
  (forall k a, l !! k = Some a -> g (i + k)%nat = h a) ->
  map g (seq i (length l)) = map h l.
Proof.
  revert i. induction l as [|a l IH]; intros i Hg; [done|].
  cbn. f_equal.
  - rewrite <- (Hg 0%nat a); [f_equal; lia | done].
  - apply IH. intros k b Hk. rewrite <- (Hg (S k) b); [f_equal; lia | done].
Qed.

Lemma where_from_length (p : A -> bool) (l : list A) (i : nat) :
  length (where_from i (map p l)) = length (List.filter p l).
Proof.
  revert i. induction l as [|a l IH]; intros i; [done|].
  cbn. destruct (p a); cbn; by rewrite IH.
Qed.

(** Reading at the positions [np.where] returns is reading the
    selected elements. *)
Lemma where_from_map {B : Type} (p : A -> bool) (l : list A) (i : nat)
    (g : nat -> B) (h : A -> B) :
  (forall k a, l !! k = Some a -> g (i + k)%nat = h a) ->
  map g (where_from i (map p l)) = map h (List.filter p l).
Proof.
  revert i. induction l as [|a l IH]; intros i Hg; [done|].
  assert (Hrest : forall k b, l !! k = Some b -> g (S i + k)%nat = h b).
  { intros k b Hk. rewrite <- (Hg (S k) b); [f_equal; lia | done]. }
  cbn. destruct (p a); cbn; [f_equal|]; try by apply IH.
  rewrite <- (Hg 0%nat a); [f_equal; lia | done].
Qed.

Lemma where_from_bound (mask : list bool) (i k : nat) :
  k ∈ where_from i mask -> (i <= k < i + length mask)%nat.
Proof.
  revert i. induction mask as [|b mask IH]; intros i; cbn.
  - by intros ?%elem_of_nil.
  - destruct b; [intros [->|H]%elem_of_cons|intros H]; try lia;
      apply IH in H; lia.
Qed.

Lemma take_indices_in_range (l : list A) (indxs : list nat) :
  (forall k, k ∈ indxs -> k < length l)%nat ->
  exists r, take_indices l indxs = Ok r /\ length r = length indxs.
Proof.
  induction indxs as [|i indxs IH]; intros Hin; [by exists []|].
  destruct IH as [r [Hr Hlen]].
  { intros k Hk. apply Hin. by right. }
  destruct (lookup_lt_is_Some_2 l i) as [a Ha].
  { apply Hin. by left. }
  exists (a :: r). cbn. unfold subscript. rewrite Ha. cbn. rewrite Hr. cbn.
  by rewrite Hlen.
Qed.

End ArrayFacts.

(** ** [np.unique] *)

Section Unique.

Lemma Qc_ltb_lt (x y : Qc) : Qc_ltb x y = true <-> x < y.
Proof. unfold Qc_ltb. apply bool_decide_eq_true. Qed.

Lemma Qc_ltb_neither (x y : Qc) : Qc_ltb x y = false -> Qc_ltb y x = false -> x = y.
Proof.
  unfold Qc_ltb. intros Hxy%bool_decide_eq_false Hyx%bool_decide_eq_false.
  apply Qcle_antisym; by apply Qcnot_lt_le.
Qed.

Lemma insert_unique_elem (x y : Qc) (l : vec) :
  x ∈ insert_unique y l <-> x = y \/ x ∈ l.
Proof.
  induction l as [|z l IH]; cbn.
  - rewrite list_elem_of_singleton. split; [by left|]. by intros [?|?%elem_of_nil].
  - destruct (Qc_ltb y z) eqn:Hyz; [by rewrite elem_of_cons|].
    destruct (Qc_ltb z y) eqn:Hzy.
    + rewrite !elem_of_cons, IH. tauto.
    + rewrite (Qc_ltb_neither _ _ Hyz Hzy). rewrite elem_of_cons. tauto.
Qed.

(** The values [np.unique] returns are those of the array. *)
Lemma np_unique_elem (x : Qc) (v : vec) : x ∈ np_unique v <-> x ∈ v.
Proof.
  induction v as [|y v IH]; [done|].
  cbn. rewrite insert_unique_elem, IH, elem_of_cons. tauto.
Qed.

Lemma insert_unique_sorted (y : Qc) (l : vec) :
  StronglySorted Qclt l -> StronglySorted Qclt (insert_unique y l).
Proof.
  induction 1 as [|z l Hl IH Hz]; cbn.
  - by repeat constructor.
  - destruct (Qc_ltb y z) eqn:Hyz.
    + apply Qc_ltb_lt in Hyz. constructor; [by constructor|].
      constructor; [done|]. apply list.Forall_forall. intros w Hw.
      apply Qclt_trans with z; [done|].
      by apply (proj1 (list.Forall_forall _ _) Hz).
    + destruct (Qc_ltb z y) eqn:Hzy; [|by constructor].
      apply Qc_ltb_lt in Hzy. constructor; [done|].
      apply list.Forall_forall. intros w [->|Hw]%insert_unique_elem; [done|].
      by apply (proj1 (list.Forall_forall _ _) Hz).
Qed.

Lemma np_unique_sorted (v : vec) : StronglySorted Qclt (np_unique v).
Proof.
  induction v as [|y v IH]; [constructor|]. by apply insert_unique_sorted.
Qed.

(** They are pairwise distinct: [len(uvals)] is the number of distinct
    values of the array. *)
Lemma np_unique_NoDup (v : vec) : NoDup (np_unique v).
Proof.
  induction (np_unique_sorted v) as [|z l Hl IH Hz]; constructor; [|done].
  intros Hin. apply (Qclt_not_eq z z); [|done].
  by apply (proj1 (list.Forall_forall _ _) Hz).
Qed.

End Unique.

(** ** Loops that update the cells of a matrix *)

Section MatrixLoops.

Lemma get2_lk2 (m : mat) (a b : nat) (x : Qc) : lk2 m a b = Some x -> get2 m a b = x.
Proof.
  unfold lk2, get2, get1. destruct (m !! a) as [r|]; cbn; [|done].
  by intros ->.
Qed.

Lemma lk2_upd2 (f : Qc -> Qc) (i j : nat) (m : mat) (a b : nat) :
  lk2 (upd2 f i j m) a b
  = if decide (a = i /\ b = j) then f <$> lk2 m a b else lk2 m a b.
Proof.
  unfold lk2, upd2. destruct (decide (a = i)) as [->|Ha].
  - rewrite list_lookup_alter_eq. destruct (m !! i) as [r|]; cbn.
    + destruct (decide (b = j)) as [->|Hb].
      * rewrite list_lookup_alter_eq. by rewrite decide_True.
      * rewrite list_lookup_alter_ne by done. rewrite decide_False; [done|tauto].
    + by destruct (decide _).
  - rewrite list_lookup_alter_ne by done. rewrite decide_False; [done|tauto].
Qed.

Lemma foldl_ext_eq {A B : Type} (f g : A -> B -> A) (a : A) (l : list B) :
  (forall x y, f x y = g x y) -> foldl f a l = foldl g a l.
Proof.
  intros Hfg. revert a. induction l as [|b l IH]; intros a; [done|].
  cbn. by rewrite Hfg, IH.
Qed.

(** Repeated updates of one cell amount to one update. *)
Lemma foldl_upd2_same {B : Type} (h : B -> Qc -> Qc) (i j : nat) (m : mat) (l : list B) :
  foldl (fun m x => upd2 (h x) i j m) m l
  = upd2 (fun c => foldl (fun c x => h x c) c l) i j m.
Proof.
  revert m. induction l as [|x l IH]; intros m; cbn.
  - unfold upd2. symmetry. apply list_alter_id. intros r.
    by apply list_alter_id.
  - rewrite IH. unfold upd2. rewrite list_alter_alter_eq.
    apply list_alter_ext; [|done]. intros r _. cbn.
    by rewrite list_alter_alter_eq.
Qed.

(** One pass over the columns [cols] of row [ck]. *)
Lemma lk2_loop_cols (G : nat -> Qc -> Qc) (ck : nat) (cols : list nat) (m : mat)
    (a b : nat) :
  NoDup cols ->
  lk2 (foldl (fun m dk => upd2 (G dk) ck dk m) m cols) a b
  = if decide (a = ck /\ b ∈ cols) then G b <$> lk2 m a b else lk2 m a b.
Proof.
  intros Hnd. revert m. induction Hnd as [|d cols Hd Hnd IH]; intros m; cbn.
  - rewrite decide_False; [done|]. intros [_ ?%elem_of_nil]. done.
  - rewrite IH, lk2_upd2.
    destruct (decide (a = ck)) as [->|Ha].
    + destruct (decide (b = d)) as [->|Hb].
      * rewrite (decide_False (P := _ /\ d ∈ cols)) by tauto.
        rewrite !decide_True; [done|by split; [|left]|done].
      * rewrite (decide_False (P := _ /\ b = d)) by tauto.
        destruct (decide (ck = ck /\ b ∈ cols)) as [[_ Hin]|Hn].
        -- rewrite decide_True; [done|by split; [|right]].
        -- rewrite decide_False; [done|].
           intros [_ [?|?]%elem_of_cons]; tauto.
    + rewrite !decide_False; tauto.
Qed.

Lemma lk2_loop2 (G : nat -> nat -> Qc -> Qc) (rows cols : list nat) (m : mat)
    (a b : nat) :
  NoDup rows -> NoDup cols ->
  lk2 (loop2 G rows cols m) a b
  = if decide (a ∈ rows /\ b ∈ cols) then G a b <$> lk2 m a b else lk2 m a b.
Proof.
  intros Hr Hc. unfold loop2. revert m.
  induction Hr as [|r rows Hnr Hr IH]; intros m; cbn.
  - rewrite decide_False; [done|]. intros [?%elem_of_nil _]. done.
  - rewrite IH, (lk2_loop_cols (G r)) by done.
    destruct (decide (a = r)) as [->|Ha].
    + rewrite (decide_False (P := r ∈ rows /\ _)) by tauto.
      destruct (decide (b ∈ cols)) as [Hb|Hb].
      * rewrite !decide_True; [done|by split; [left|]|done].
      * rewrite !decide_False; [done| |]; tauto.
    + rewrite (decide_False (P := a = r /\ _)) by tauto.
      destruct (decide (a ∈ rows /\ b ∈ cols)) as [[Hin Hb]|Hn].
      * rewrite decide_True; [done|by split; [right|]].
      * rewrite decide_False; [done|].
        intros [[?|?]%elem_of_cons ?]; tauto.
Qed.

Lemma lk2_map (f : Qc -> Qc) (m : mat) (a b : nat) :
  lk2 (map (map f) m) a b = f <$> lk2 m a b.
Proof.
  unfold lk2. rewrite list_lookup_fmap. destruct (m !! a) as [r|]; cbn; [|done].
  by rewrite list_lookup_fmap.
Qed.

Lemma lk2_replicate (n k : nat) (x : Qc) (a b : nat) :
  (a < n)%nat -> (b < k)%nat -> lk2 (replicate n (replicate k x)) a b = Some x.
Proof.
  intros Ha Hb. unfold lk2. rewrite lookup_replicate_2 by done. cbn.
  by rewrite lookup_replicate_2.
Qed.

Lemma foldl_add (t : nat -> Qc) (c : Qc) (l : list nat) :
  foldl (fun c ci => c + t ci) c l = c + vsum (map t l).
Proof.
  revert c. induction l as [|x l IH]; intros c; cbn.
  - ring.
  - rewrite IH. unfold vsum. ring.
Qed.

(** A sum over the positions of two rows of equal length is the sum
    over their paired elements. *)
Lemma vsum_seq_zip (F : Qc -> Qc -> Qc) (u v : vec) :
  length u = length v ->
  vsum (map (fun ci => F (get1 u ci) (get1 v ci)) (seq 0 (length u)))
  = vsum (zip_with F u v).
Proof.
  revert v. induction u as [|x u IH]; intros [|y v] Hlen; try done.
  cbn. f_equal. rewrite <- IH by (cbn in Hlen; lia).
  by rewrite <- seq_shift, map_map.
Qed.

End MatrixLoops.

(** ** The per-model estimator: which models are rejected *)

Section Estimator.

Variable np_power10 : Qc -> Qc.
Variable np_sqrt : Qc -> Qc.
Variable uninit : string -> list nat -> Qc.

Lemma cell_lookup (asts : Table) (name : string) (k : nat) (r : Row) :
  asts !! k = Some r -> cell asts name k = r name.
Proof. intros Hk. unfold cell. by rewrite Hk. Qed.

Lemma count_good_from (asts : Table) (filters : list string) (k acc : nat) (r : Row) :
  asts !! k = Some r ->
  foldl (fun cgood cfilter =>
           if Qc_ltb (cell asts (cfilter ++ "_VEGA") k) ninety
           then (cgood + 1)%nat else cgood) acc filters
  = (acc + length (List.filter (recovered r) filters))%nat.
Proof.
  intros Hk. revert acc. induction filters as [|f filters IH]; intros acc; cbn; [lia|].
  rewrite IH, (cell_lookup _ _ _ _ Hk). unfold recovered at 2.
  destruct (Qc_ltb _ _); cbn; lia.
Qed.

Lemma count_good_row (asts : Table) (filters : list string) (k : nat) (r : Row) :
  asts !! k = Some r ->
  count_good asts filters k = length (List.filter (recovered r) filters).
Proof. intros Hk. unfold count_good. by rewrite (count_good_from _ _ _ _ _ Hk). Qed.

Lemma usable_count (filters : list string) (r : Row) :
  bool_decide (0 < length (List.filter (recovered r) filters))%nat = usable filters r.
Proof.
  unfold usable. induction filters as [|f filters IH]; [done|].
  cbn. destruct (recovered r f); cbn; [|done].
  apply bool_decide_eq_true. lia.
Qed.

Lemma good_indxs_mask (asts : Table) (filters : list string) :
  good_indxs asts filters = np_where (map (usable filters) asts).
Proof.
  unfold good_indxs, calc_gtindxs. f_equal.
  rewrite <- (length_replicate (length asts) 1%nat) at 2.
  rewrite foldl_insert_seq_full, length_replicate, map_map.
  apply map_seq_lookup. intros k r Hk. cbn.
  rewrite (count_good_row _ _ _ _ Hk). apply usable_count.
Qed.

Lemma good_indxs_length (asts : Table) (filters : list string) :
  length (good_indxs asts filters) = length (retained filters asts).
Proof. rewrite good_indxs_mask. apply where_from_length. Qed.

(** *** The loop over the filters *)

Lemma insert_at_boundary {A : Type} (pre g : list A) (n : nat) (v : A) :
  length pre = n -> (n < length g)%nat ->
  <[n := v]> (pre ++ drop n g)%list = ((pre ++ [v]) ++ drop (S n) g)%list.
Proof.
  intros Hpre Hn. rewrite insert_app_r_alt by lia.
  rewrite Hpre, Nat.sub_diag, <- app_assoc. f_equal.
  destruct (lookup_lt_is_Some_2 g n) as [x Hx]; [lia|].
  by rewrite (drop_S g x n Hx).
Qed.

Lemma lookup_at_boundary {A : Type} (pre g : list A) (n : nat) (v : A) :
  length pre = n -> (n < length g)%nat ->
  <[n := v]> (pre ++ drop n g)%list !! n = Some v.
Proof.
  intros Hpre Hn. apply list_lookup_insert_eq.
  rewrite length_app, length_drop. lia.
Qed.

Lemma enumerate_snoc {A : Type} (l : list A) (x : A) :
  enumerate (l ++ [x]) = (enumerate l ++ [(length l, x)])%list.
Proof. unfold enumerate. rewrite imap_app. cbn. by rewrite Nat.add_0_r. Qed.

Lemma filter_loop_spec (asts : Table) (indxs : list nat) (l : list string)
    (st0 : filter_arrays) :
  (length l <= length (fa_imags st0))%nat ->
  (length l <= length (fa_diffs st0))%nat ->
  (length l <= length (fa_biases st0))%nat ->
  (length l <= length (fa_stddevs st0))%nat ->
  foldl (filter_step np_power10 np_sqrt asts indxs) st0 (enumerate l)
  = filter_arrays_after np_power10 np_sqrt asts indxs l st0.
Proof.
  induction l as [|x l IH] using rev_ind; intros H1 H2 H3 H4.
  - destruct st0. unfold filter_arrays_after. cbn. by rewrite !drop_0.
  - rewrite length_app in H1, H2, H3, H4. cbn in H1, H2, H3, H4.
    rewrite enumerate_snoc, foldl_app. cbn [foldl].
    rewrite IH by lia. unfold filter_arrays_after, filter_step.
    cbn [fa_imags fa_diffs fa_biases fa_stddevs].
    rewrite lookup_at_boundary by (rewrite ?length_map; lia).
    rewrite !insert_at_boundary by (rewrite ?length_map; lia).
    rewrite !map_app, length_app. cbn [map length default].
    by rewrite Nat.add_1_r.
Qed.

Lemma length_np_empty1 (name : string) (n : nat) : length (np_empty1 uninit name n) = n.
Proof. unfold np_empty1. by rewrite length_map, length_seq. Qed.

Lemma length_np_empty2 (name : string) (n m : nat) :
  length (np_empty2 uninit name n m) = n.
Proof. unfold np_empty2. by rewrite length_map, length_seq. Qed.

(** The arrays when the loop over the filters is over: nothing of the
    initial allocation is left. *)
Lemma filter_loop_full (asts : Table) (indxs : list nat) (filters : list string)
    (n_indxs : nat) :
  foldl (filter_step np_power10 np_sqrt asts indxs)
        (FilterArrays (np_empty1 uninit "imags" (length filters))
                      (np_empty2 uninit "diffs" (length filters) n_indxs)
                      (np_empty1 uninit "biases" (length filters))
                      (np_empty1 uninit "stddevs" (length filters)))
        (enumerate filters)
  = FilterArrays
      (map (fun f => cell asts (f ++ "_IN") (default 0%nat (indxs !! 0%nat))) filters)
      (map (fun f => diff_row np_power10 asts f indxs) filters)
      (map (fun f => np_mean (diff_row np_power10 asts f indxs)) filters)
      (map (fun f => np_std np_sqrt (diff_row np_power10 asts f indxs)) filters).
Proof.
  rewrite filter_loop_spec;
    cbn [fa_imags fa_diffs fa_biases fa_stddevs];
    rewrite ?length_np_empty1, ?length_np_empty2; try lia.
  unfold filter_arrays_after. cbn [fa_imags fa_diffs fa_biases fa_stddevs].
  rewrite !drop_ge, !app_nil_r;
    rewrite ?length_np_empty1, ?length_np_empty2; try lia.
  done.
Qed.

(** *** The covariance and correlation loops *)

Lemma upd2_ext (f g : Qc -> Qc) (i j : nat) (m : mat) :
  (forall c, f c = g c) -> upd2 f i j m = upd2 g i j m.
Proof.
  intros Hfg. unfold upd2. apply list_alter_ext; [|done]. intros r _.
  apply list_alter_ext; [|done]. intros c _. apply Hfg.
Qed.

Lemma cov_accumulate_loop2 (n_filters n_indxs : nat) (diffs : mat) (biases : vec)
    (m : mat) :
  cov_accumulate n_filters n_indxs diffs biases m
  = loop2 (fun ck dk c => c + cov_term diffs biases n_indxs ck dk)
          (seq 0 n_filters) (seq 0 n_filters) m.
Proof.
  unfold cov_accumulate, loop2.
  apply foldl_ext_eq. intros m1 ck. apply foldl_ext_eq. intros m2 dk.
  rewrite (foldl_upd2_same
             (fun ci c => c + (get2 diffs ck ci - get1 biases ck)
                              * (get2 diffs dk ci - get1 biases dk))).
  apply upd2_ext. intros c. apply foldl_add.
Qed.

Lemma corr_fill_loop2 (n_filters : nat) (stddevs : vec) (m : mat) :
  corr_fill n_filters stddevs m
  = loop2 (corr_cell stddevs) (seq 0 n_filters) (seq 0 n_filters) m.
Proof.
  unfold corr_fill, loop2.
  apply foldl_ext_eq. intros m1 ck. apply foldl_ext_eq. intros m2 dk.
  unfold corr_cell. destruct (Qc_ltb _ _); by apply upd2_ext.
Qed.

Lemma lk2_loop2_seq (G : nat -> nat -> Qc -> Qc) (n : nat) (m : mat) (a b : nat) :
  (a < n)%nat -> (b < n)%nat ->
  lk2 (loop2 G (seq 0 n) (seq 0 n) m) a b = G a b <$> lk2 m a b.
Proof.
  intros Ha Hb. rewrite lk2_loop2 by apply NoDup_seq.
  rewrite decide_True; [done|]. split; apply elem_of_seq; lia.
Qed.

(** *** The statistics of a retained model *)

Lemma diff_row_retained (asts : Table) (filters : list string) (cfilter : string) :
  diff_row np_power10 asts cfilter (good_indxs asts filters)
  = flux_diffs np_power10 (retained filters asts) cfilter.
Proof.
  rewrite good_indxs_mask. unfold diff_row, flux_diffs, np_where, retained.
  apply where_from_map. intros k r Hk. cbn.
  by rewrite !(cell_lookup _ _ _ _ Hk).
Qed.

Lemma length_flux_diffs (kept : Table) (cfilter : string) :
  length (flux_diffs np_power10 kept cfilter) = length kept.
Proof. unfold flux_diffs. by rewrite length_map. Qed.

(** The value of [_calc_ast_cov] on a model that is not rejected. *)
Lemma calc_ast_cov_retained (data : Table) (indxs : list nat) (filters : list string)
    (asts : Table) :
  take_indices data indxs = Ok asts ->
  (6 <= length (retained filters asts))%nat ->
  let kept := retained filters asts in
  let n := length filters in
  let diffs := map (flux_diffs np_power10 kept) filters in
  let biases := map (fun f => np_mean (flux_diffs np_power10 kept f)) filters in
  let stddevs := map (fun f => np_std np_sqrt (flux_diffs np_power10 kept f)) filters in
  let cov :=
    map (map (fun c => c / Qc_pred_nat (length kept)))
        (loop2 (fun ck dk c => c + cov_term diffs biases (length kept) ck dk)
               (seq 0 n) (seq 0 n) (np_full2 n n 0)) in
  _calc_ast_cov np_power10 np_sqrt uninit data indxs filters true
  = Ok (CovAll cov biases stddevs
               (loop2 (corr_cell stddevs) (seq 0 n) (seq 0 n) cov)
               diffs
               (map (fun f => cell asts (f ++ "_IN")
                                   (default 0%nat (good_indxs asts filters !! 0%nat)))
                    filters)).
Proof.
  intros Hsel Hn. cbn zeta. unfold _calc_ast_cov. rewrite Hsel. cbn [res_bind].
  rewrite good_indxs_length.
  rewrite bool_decide_false by lia.
  rewrite filter_loop_full. cbn [fa_imags fa_diffs fa_biases fa_stddevs].
  rewrite cov_accumulate_loop2, corr_fill_loop2.
  assert (Hd : map (fun f => diff_row np_power10 asts f (good_indxs asts filters)) filters
               = map (flux_diffs np_power10 (retained filters asts)) filters).
  { apply map_ext. intros f. apply diff_row_retained. }
  assert (Hb : map (fun f => np_mean (diff_row np_power10 asts f (good_indxs asts filters)))
                   filters
               = map (fun f => np_mean (flux_diffs np_power10 (retained filters asts) f)) filters).
  { apply map_ext. intros f. by rewrite diff_row_retained. }
  assert (Hs : map (fun f => np_std np_sqrt
                               (diff_row np_power10 asts f (good_indxs asts filters)))
                   filters
               = map (fun f => np_std np_sqrt (flux_diffs np_power10 (retained filters asts) f))
                     filters).
  { apply map_ext. intros f. by rewrite diff_row_retained. }
  by rewrite Hd, Hb, Hs.
Qed.

Lemma calc_ast_cov_small (data : Table) (indxs : list nat) (filters : list string)
    (return_all : bool) (asts : Table) :
  take_indices data indxs = Ok asts ->
  (length (retained filters asts) < 6)%nat ->
  _calc_ast_cov np_power10 np_sqrt uninit data indxs filters return_all = Ok Rejected.
Proof.
  intros Hsel Hn. unfold _calc_ast_cov. rewrite Hsel. cbn [res_bind].
  rewrite good_indxs_length. by rewrite bool_decide_true by lia.
Qed.

Lemma calc_ast_cov_large (data : Table) (indxs : list nat) (filters : list string)
    (return_all : bool) (asts : Table) :
  take_indices data indxs = Ok asts ->
  (6 <= length (retained filters asts))%nat ->
  exists r, _calc_ast_cov np_power10 np_sqrt uninit data indxs filters return_all = Ok r
            /\ r <> Rejected.
Proof.
  intros Hsel Hn. unfold _calc_ast_cov. rewrite Hsel. cbn [res_bind].
  rewrite good_indxs_length. rewrite bool_decide_false by lia.
  destruct return_all; eexists; (split; [reflexivity|done]).
Qed.

Lemma Qc_pred_nat_minus (n : nat) : Qc_pred_nat n = Qc_of_nat n - 1.
Proof. unfold Qc_pred_nat, Qc_of_nat. by rewrite Z2Qc_inj_sub, Z2Qc_inj_1. Qed.


(** The differences, the biases and the covariance cells of a model
    that is not rejected. *)
Lemma calc_ast_cov_cells (data : Table) (indxs : list nat)
    (filters : list string) (asts : Table)
    (cov : mat) (biases stddevs : vec) (corr diffs : mat) (imags : vec) :
  take_indices data indxs = Ok asts ->
  _calc_ast_cov np_power10 np_sqrt uninit data indxs filters true
  = Ok (CovAll cov biases stddevs corr diffs imags) ->
  let kept := retained filters asts in
  forall i fi, filters !! i = Some fi ->
    diffs !! i = Some (flux_diffs np_power10 kept fi)
    /\ biases !! i = Some (mean_diff (flux_diffs np_power10 kept fi))
    /\ forall j fj, filters !! j = Some fj ->
         lk2 cov i j
         = Some (sample_cov (length kept)
                            (mean_diff (flux_diffs np_power10 kept fi))
                            (mean_diff (flux_diffs np_power10 kept fj))
                            (flux_diffs np_power10 kept fi)
                            (flux_diffs np_power10 kept fj)).
Proof.
  intros Hsel Hres kept i fi Hi.
  destruct (decide (length (retained filters asts) < 6)%nat) as [Hn|Hn].
  { rewrite (calc_ast_cov_small _ _ _ _ _ Hsel Hn) in Hres. discriminate. }
  rewrite (calc_ast_cov_retained _ _ _ _ Hsel) in Hres by lia.
  cbn zeta in Hres. injection Hres as <- <- _ _ <- _. fold kept.
  assert (Hdi : forall k f, filters !! k = Some f ->
                map (flux_diffs np_power10 kept) filters !! k = Some (flux_diffs np_power10 kept f)).
  { intros k f Hk. by rewrite list_lookup_fmap, Hk. }
  assert (Hbi : forall k f, filters !! k = Some f ->
                get1 (map (fun f => np_mean (flux_diffs np_power10 kept f)) filters) k
                = mean_diff (flux_diffs np_power10 kept f)).
  { intros k f Hk. unfold get1. by rewrite list_lookup_fmap, Hk. }
  split; [by apply Hdi|]. split.
  { by rewrite list_lookup_fmap, Hi. }
  intros j fj Hj.
  rewrite lk2_map, lk2_loop2_seq by (by eapply lookup_lt_Some).
  unfold np_full2.
  rewrite lk2_replicate by (by eapply lookup_lt_Some). cbn [fmap option_fmap option_map].
  f_equal. unfold cov_term, get2.
  rewrite (Hdi _ _ Hi), (Hdi _ _ Hj), (Hbi _ _ Hi), (Hbi _ _ Hj).
  cbn [default from_option]. unfold id.
  rewrite <- (length_flux_diffs kept fi).
  rewrite (vsum_seq_zip (fun x y => (x - mean_diff (flux_diffs np_power10 kept fi))
                                    * (y - mean_diff (flux_diffs np_power10 kept fj))))
    by (by rewrite !length_flux_diffs).
  unfold sample_cov. rewrite Qc_pred_nat_minus. unfold Qcdiv. ring.
Qed.

(** For a model that is not rejected, the standard deviation of
    filter [i] is [np.std] of the differences: the square root of the
    sum of squared deviations over [K], not over [K - 1]. *)
Lemma calc_ast_cov_stddev (data : Table) (indxs : list nat)
    (filters : list string) (asts : Table)
    (cov : mat) (biases stddevs : vec) (corr diffs : mat) (imags : vec) :
  take_indices data indxs = Ok asts ->
  _calc_ast_cov np_power10 np_sqrt uninit data indxs filters true
  = Ok (CovAll cov biases stddevs corr diffs imags) ->
  forall i fi, filters !! i = Some fi ->
    stddevs !! i = Some (population_std np_sqrt (flux_diffs np_power10 (retained filters asts) fi)).
Proof.
  intros Hsel Hres i fi Hi.
  destruct (decide (length (retained filters asts) < 6)%nat) as [Hn|Hn].
  { rewrite (calc_ast_cov_small _ _ _ _ _ Hsel Hn) in Hres. discriminate. }
  rewrite (calc_ast_cov_retained _ _ _ _ Hsel) in Hres by lia.
  cbn zeta in Hres. injection Hres as _ _ <- _ _ _.
  rewrite list_lookup_fmap, Hi. cbn. f_equal.
  unfold np_std, population_std, np_mean, mean_diff. by rewrite length_map.
Qed.

(** For a model that is not rejected, the correlation cell [(i, j)]
    is the covariance cell over the product of the two standard
    deviations when that product is positive, and 0 otherwise. *)
Lemma calc_ast_cov_correlation (data : Table) (indxs : list nat)
    (filters : list string) (asts : Table)
    (cov : mat) (biases stddevs : vec) (corr diffs : mat) (imags : vec) :
  take_indices data indxs = Ok asts ->
  _calc_ast_cov np_power10 np_sqrt uninit data indxs filters true
  = Ok (CovAll cov biases stddevs corr diffs imags) ->
  forall i j, (i < length filters)%nat -> (j < length filters)%nat ->
    lk2 corr i j
    = (fun c => if bool_decide (0 < get1 stddevs i * get1 stddevs j)
                then c / (get1 stddevs i * get1 stddevs j) else 0) <$> lk2 cov i j.
Proof.
  intros Hsel Hres i j Hi Hj.
  destruct (decide (length (retained filters asts) < 6)%nat) as [Hn|Hn].
  { rewrite (calc_ast_cov_small _ _ _ _ _ Hsel Hn) in Hres. discriminate. }
  rewrite (calc_ast_cov_retained _ _ _ _ Hsel) in Hres by lia.
  cbn zeta in Hres. injection Hres as <- _ <- <- _ _.
  by rewrite lk2_loop2_seq.
Qed.

(** C2. For a model that is not rejected, with [K] retained
    instances, [_calc_ast_cov] returns statistics in which, for every
    filter [i]: the differences are the recovered flux ratios minus
    [10^(-0.4 * input magnitude)], instance by instance; the bias is
    their mean; and the covariance cell [(i, j)] is [(1/(K-1))] times
    the sum over the instances of
    [(diff_i - bias_i) * (diff_j - bias_j)]. *)
Theorem calc_ast_cov_statistics (data : Table) (indxs : list nat)
    (filters : list string) (asts : Table) :
  take_indices data indxs = Ok asts ->
  let kept := retained filters asts in
  let K := length kept in
  (6 <= K)%nat ->
  exists cov biases stddevs corr diffs imags,
    _calc_ast_cov np_power10 np_sqrt uninit data indxs filters true
    = Ok (CovAll cov biases stddevs corr diffs imags)
    /\ forall i fi, filters !! i = Some fi ->
         exists di bi,
           diffs !! i = Some di /\ biases !! i = Some bi
           /\ di = map (fun r => r (fi ++ "_RATE")
                                 - np_power10 (minus_04 * r (fi ++ "_IN"))) kept
           /\ bi = vsum di / Qc_of_nat K
           /\ forall j fj dj bj,
                filters !! j = Some fj -> diffs !! j = Some dj -> biases !! j = Some bj ->
                lk2 cov i j = Some (sample_cov K bi bj di dj).
Proof.
  intros Hsel kept K HK.
  destruct (calc_ast_cov_large data indxs filters true asts Hsel HK) as (r & Hr & Hne).
  assert (Hall : exists cov biases stddevs corr diffs imags,
             r = CovAll cov biases stddevs corr diffs imags).
  { revert Hr. unfold _calc_ast_cov. rewrite Hsel. cbn [res_bind].
    case_bool_decide; intros [= <-]; [done|]. by do 6 eexists. }
  destruct Hall as (cov & biases & stddevs & corr & diffs & imags & ->).
  exists cov, biases, stddevs, corr, diffs, imags. split; [done|].
  intros i fi Hi.
  destruct (calc_ast_cov_cells _ _ _ _ _ _ _ _ _ _ Hsel Hr i fi Hi) as (Hd & Hb & Hc).
  exists (flux_diffs np_power10 kept fi), (mean_diff (flux_diffs np_power10 kept fi)).
  split; [done|]. split; [done|]. split; [done|]. split.
  { unfold mean_diff. by rewrite length_flux_diffs. }
  intros j fj dj bj Hj Hdj Hbj.
  destruct (calc_ast_cov_cells _ _ _ _ _ _ _ _ _ _ Hsel Hr j fj Hj) as (Hd' & Hb' & _).
  rewrite Hd' in Hdj. rewrite Hb' in Hbj. injection Hdj as <-. injection Hbj as <-.
  by apply Hc.
Qed.

(** Without [return_all] the covariance matrix and the biases are
    the same. *)
Lemma calc_ast_cov_short (data : Table) (indxs : list nat) (filters : list string)
    (cov : mat) (biases stddevs : vec) (corr diffs : mat) (imags : vec) :
  _calc_ast_cov np_power10 np_sqrt uninit data indxs filters true
  = Ok (CovAll cov biases stddevs corr diffs imags) ->
  _calc_ast_cov np_power10 np_sqrt uninit data indxs filters false
  = Ok (CovBias cov biases).
Proof.
  unfold _calc_ast_cov. destruct (take_indices data indxs) as [asts|e]; [|done].
  cbn [res_bind]. case_bool_decide; [done|]. by intros [= <- <- _ _ _ _].
Qed.

Lemma zip_with_diag (F : Qc -> Qc -> Qc) (d : vec) :
  zip_with F d d = map (fun x => F x x) d.
Proof. induction d as [|x d IH]; [done|]. cbn. by rewrite IH. Qed.

Lemma Qc_of_nat_neq (n m : nat) : n <> m -> Qc_of_nat n <> Qc_of_nat m.
Proof. intros Hne H. apply Z2Qc_inj in H. lia. Qed.

(** Where [np.sqrt] is exact on the variance of filter [i] and that
    variance is not zero, the diagonal entry of the correlation
    matrix is [K / (K - 1)]: the covariance divides by [K - 1], the
    standard deviation by [K]. *)
Lemma calc_ast_cov_corr_diagonal (data : Table) (indxs : list nat)
    (filters : list string) (asts : Table)
    (cov : mat) (biases stddevs : vec) (corr diffs : mat) (imags : vec)
    (i : nat) (fi : string) :
  take_indices data indxs = Ok asts ->
  _calc_ast_cov np_power10 np_sqrt uninit data indxs filters true
  = Ok (CovAll cov biases stddevs corr diffs imags) ->
  filters !! i = Some fi ->
  let d := flux_diffs np_power10 (retained filters asts) fi in
  let variance := vsum (map (fun x => (x - mean_diff d) * (x - mean_diff d)) d)
                  / Qc_of_nat (length d) in
  np_sqrt variance * np_sqrt variance = variance ->
  0 < variance ->
  lk2 corr i i = Some (Qc_of_nat (length d) / (Qc_of_nat (length d) - 1)).
Proof.
  intros Hsel Hres Hi d variance Hsqrt Hpos.
  assert (Hlt : (i < length filters)%nat) by (by eapply lookup_lt_Some).
  rewrite (calc_ast_cov_correlation _ _ _ _ _ _ _ _ _ _ Hsel Hres i i Hlt Hlt).
  destruct (calc_ast_cov_cells _ _ _ _ _ _ _ _ _ _ Hsel Hres i fi Hi)
    as (_ & _ & Hcov).
  rewrite (Hcov i fi Hi). cbn [fmap option_fmap option_map]. f_equal.
  pose proof (calc_ast_cov_stddev _ _ _ _ _ _ _ _ _ _ Hsel Hres i fi Hi) as Hsd.
  unfold get1. rewrite Hsd. cbn [default from_option]. unfold id.
  fold d. unfold population_std. fold variance. rewrite Hsqrt.
  rewrite bool_decide_true by done.
  unfold sample_cov. fold d. rewrite zip_with_diag.
  rewrite <- (length_flux_diffs (retained filters asts) fi). fold d.
  destruct (decide (length (retained filters asts) < 6)%nat) as [Hn|Hn].
  { rewrite (calc_ast_cov_small _ _ _ _ _ Hsel Hn) in Hres. discriminate. }
  assert (HK : (6 <= length d)%nat) by (unfold d; rewrite length_flux_diffs; lia).
  assert (HK0 : Qc_of_nat (length d) <> 0).
  { rewrite <- Z2Qc_inj_0. apply (Qc_of_nat_neq _ 0). lia. }
  assert (HK1 : Qc_of_nat (length d) - 1 <> 0).
  { intros H. apply (Qc_of_nat_neq (length d) 1); [lia|].
    change (Qc_of_nat 1) with (Qc_of_Z 1). rewrite Z2Qc_inj_1.
    rewrite <- (Qcplus_0_l 1), <- H. ring. }
  assert (HS : vsum (map (fun x => (x - mean_diff d) * (x - mean_diff d)) d) <> 0).
  { intros H. unfold variance in Hpos. rewrite H in Hpos.
    unfold Qcdiv in Hpos. rewrite Qcmult_0_l in Hpos.
    by apply Qclt_not_eq in Hpos. }
  unfold variance. field. repeat split; done.
Qed.

End Estimator.

(** ** The bulk aggregator *)

Section Aggregator.

Variable np_power10 : Qc -> Qc.
Variable np_sqrt : Qc -> Qc.
Variable uninit : string -> list nat -> Qc.

Lemma take_indices_where {A : Type} (p : A -> bool) (pre l : list A) :
  take_indices (pre ++ l) (where_from (length pre) (map p l)) = Ok (List.filter p l).
Proof.
  revert pre. induction l as [|a l IH]; intros pre; [done|].
  assert (Hrest : take_indices (pre ++ a :: l) (where_from (S (length pre)) (map p l))
                  = Ok (List.filter p l)).
  { specialize (IH (pre ++ [a])%list).
    rewrite <- app_assoc, length_app in IH. cbn in IH.
    by rewrite Nat.add_1_r in IH. }
  cbn. destruct (p a); [|done].
  cbn. unfold subscript. rewrite lookup_app_r by lia.
  rewrite Nat.sub_diag. cbn. by rewrite Hrest.
Qed.

Lemma model_indxs_rows (data : Table) (filtername : string) (uval : Qc) :
  take_indices data (model_indxs data filtername uval)
  = Ok (group_rows data filtername uval).
Proof.
  unfold model_indxs, column, np_where. rewrite map_map.
  apply (take_indices_where (fun r : Row => bool_decide (r filtername = uval)) []).
Qed.

Lemma model_indxs_length (data : Table) (filtername : string) (uval : Qc) :
  length (model_indxs data filtername uval) = length (group_rows data filtername uval).
Proof.
  unfold model_indxs, column, np_where. rewrite map_map.
  apply (where_from_length (fun r : Row => bool_decide (r filtername = uval))).
Qed.

(** A model with five ASTs or fewer keeps its flag, whatever the
    number of its usable instances. *)
Lemma flag_kept_few (data : Table) (filters : list string) (filtername : string)
    (uval : Qc) :
  (length (group_rows data filtername uval) <= 5)%nat ->
  flag_kept data filters filtername uval = true.
Proof. intros H. unfold flag_kept. by rewrite bool_decide_false by lia. Qed.

(** A model with more than five ASTs loses its flag exactly when fewer
    than six of them are usable. *)
Lemma flag_kept_many (data : Table) (filters : list string) (filtername : string)
    (uval : Qc) :
  (5 < length (group_rows data filtername uval))%nat ->
  flag_kept data filters filtername uval
  = bool_decide (6 <= length (retained filters (group_rows data filtername uval)))%nat.
Proof.
  intros H. unfold flag_kept. rewrite bool_decide_true by done. cbn.
  case_bool_decide; case_bool_decide; (done || lia).
Qed.

(** One iteration never raises; it changes the flag of model [i] only,
    and no array changes its length. *)
Lemma agg_step_spec (data : Table) (filters : list string) (filtername : string)
    (uvals : vec) (st : agg_arrays) (i : nat) :
  exists st',
    agg_step np_power10 np_sqrt uninit data filters filtername uvals st i = Ok st'
    /\ good_asts st'
       = (if flag_kept data filters filtername (get1 uvals i)
          then good_asts st else <[i := false]> (good_asts st))
    /\ length (all_covs st') = length (all_covs st)
    /\ length (all_corrs st') = length (all_corrs st)
    /\ length (all_biases st') = length (all_biases st)
    /\ length (all_imags st') = length (all_imags st).
Proof.
  unfold agg_step, flag_kept. rewrite model_indxs_length.
  pose proof (model_indxs_rows data filtername (get1 uvals i)) as Hsel.
  case_bool_decide as Hn; cbn [andb negb]; [|by exists st].
  destruct (decide (length (retained filters
              (group_rows data filtername (get1 uvals i))) < 6)%nat) as [Hk|Hk].
  - rewrite (calc_ast_cov_small _ _ _ _ _ _ _ _ Hsel Hk). cbn [res_bind].
    rewrite bool_decide_true by done. cbn [negb].
    eexists. split; [reflexivity|]. by cbn.
  - rewrite (calc_ast_cov_retained _ _ _ _ _ _ _ Hsel) by lia.
    cbn zeta. cbn [res_bind]. rewrite bool_decide_false by done. cbn [negb].
    eexists. split; [reflexivity|]. cbn. by rewrite !length_insert.
Qed.

Lemma res_foldl_app {A B : Type} (f : A -> B -> res A) (a : A) (l1 l2 : list B) :
  res_foldl f a (l1 ++ l2)
  = (a' <-! res_foldl f a l1 ;; res_foldl f a' l2).
Proof.
  revert a. induction l1 as [|b l1 IH]; intros a; [done|].
  cbn. destruct (f a b); cbn; [apply IH|done].
Qed.

(** The arrays after [k] iterations of the loop over the models. *)
Lemma agg_loop_prefix (data : Table) (filters : list string) (filtername : string)
    (uvals : vec) (k : nat) :
  (k <= length uvals)%nat ->
  exists st,
    res_foldl (agg_step np_power10 np_sqrt uninit data filters filtername uvals)
              (agg_init uninit (length uvals) (length filters)) (seq 0 k) = Ok st
    /\ good_asts st
       = (map (fun i => flag_kept data filters filtername (get1 uvals i)) (seq 0 k)
          ++ drop k (replicate (length uvals) true))%list
    /\ length (all_covs st) = length uvals
    /\ length (all_corrs st) = length uvals
    /\ length (all_biases st) = length uvals
    /\ length (all_imags st) = length uvals.
Proof.
  induction k as [|k IH]; intros Hk.
  - eexists. split; [reflexivity|]. cbn. rewrite drop_0.
    unfold np_empty3, np_empty2. by rewrite !length_map, !length_seq.
  - destruct IH as (st & Hst & Hgood & H1 & H2 & H3 & H4); [lia|].
    destruct (agg_step_spec data filters filtername uvals st k)
      as (st' & Hstep & Hgood' & H1' & H2' & H3' & H4').
    exists st'. rewrite seq_S, res_foldl_app, Hst. cbn [res_bind res_foldl Nat.add].
    rewrite Hstep. cbn [res_bind]. split; [done|].
    split; [|by rewrite H1', H2', H3', H4'].
    rewrite Hgood', Hgood, map_app. cbn [map].
    destruct (flag_kept _ _ _ _).
    + rewrite <- app_assoc. f_equal. cbn.
      apply drop_S. apply lookup_replicate_2. lia.
    + apply insert_at_boundary; [by rewrite length_map, length_seq|].
      rewrite length_replicate. lia.
Qed.

Lemma agg_loop_spec (data : Table) (filters : list string) (filtername : string)
    (uvals : vec) :
  exists st,
    agg_loop np_power10 np_sqrt uninit data filters filtername uvals = Ok st
    /\ good_asts st = map (flag_kept data filters filtername) uvals
    /\ length (all_covs st) = length uvals
    /\ length (all_corrs st) = length uvals
    /\ length (all_biases st) = length uvals
    /\ length (all_imags st) = length uvals.
Proof.
  destruct (agg_loop_prefix data filters filtername uvals (length uvals))
    as (st & Hst & Hgood & Hlen); [lia|].
  exists st. split; [done|]. split; [|done].
  rewrite Hgood, drop_ge, app_nil_r by (rewrite length_replicate; lia).
  apply map_seq_lookup. intros k x Hk. cbn [Nat.add]. unfold get1. by rewrite Hk.
Qed.

(** The aggregator never raises when there is a filter, and the
    length [K] of each array it returns is the number of models whose
    flag was left at [True]. *)
Lemma calc_all_ast_cov_length (data : Table) (filters : list string) (lastf : string) :
  list.last filters = Some lastf ->
  let filtername := lastf ++ "_IN" in
  let uvals := np_unique (column data filtername) in
  exists agg,
    _calc_all_ast_cov np_power10 np_sqrt uninit data filters = Ok agg
    /\ length (agg_covs agg)
       = length (List.filter (flag_kept data filters filtername) uvals)
    /\ length (agg_biases agg) = length (agg_covs agg)
    /\ length (agg_corrs agg) = length (agg_covs agg)
    /\ length (agg_ifluxes agg) = length (agg_covs agg).
Proof.
  intros Hlast filtername uvals. unfold _calc_all_ast_cov. rewrite Hlast.
  cbn [res_bind]. fold filtername. fold uvals.
  destruct (agg_loop_spec data filters filtername uvals)
    as (st & Hst & Hgood & H1 & H2 & H3 & H4).
  rewrite Hst. cbn [res_bind].
  assert (Hin : forall n, n = length uvals ->
                forall k, k ∈ np_where (good_asts st) -> (k < n)%nat).
  { intros n -> k Hk. apply where_from_bound in Hk.
    rewrite Hgood, length_map in Hk. lia. }
  destruct (take_indices_in_range (all_covs st) (np_where (good_asts st)))
    as (covs & -> & Hc); [by apply Hin|].
  destruct (take_indices_in_range (all_biases st) (np_where (good_asts st)))
    as (biases & -> & Hb); [by apply Hin|].
  destruct (take_indices_in_range (all_corrs st) (np_where (good_asts st)))
    as (corrs & -> & Hr); [by apply Hin|].
  destruct (take_indices_in_range (all_imags st) (np_where (good_asts st)))
    as (imags & -> & Hi); [by apply Hin|].
  cbn [res_bind]. eexists. split; [reflexivity|]. cbn.
  rewrite length_map, Hc, Hb, Hr, Hi. repeat split.
  unfold np_where. rewrite Hgood. apply where_from_length.
Qed.

(** [K] is at most the number of distinct reference magnitudes. *)
Lemma calc_all_ast_cov_bound (data : Table) (filters : list string) (lastf : string) :
  list.last filters = Some lastf ->
  exists agg,
    _calc_all_ast_cov np_power10 np_sqrt uninit data filters = Ok agg
    /\ (length (agg_covs agg)
        <= length (np_unique (column data (lastf ++ "_IN"))))%nat.
Proof.
  intros Hlast.
  destruct (calc_all_ast_cov_length data filters lastf Hlast) as (agg & Hagg & Hlen & _).
  exists agg. split; [done|]. rewrite Hlen. apply List.filter_length_le.
Qed.

End Aggregator.

(** ** The grid interpolator: what the loop over the rows preserves *)

Section Preservation.

Variable P : call_state -> Prop.

Lemma preserves_ret {A : Type} (a : A) : preserves P (eff_ret a).
Proof. by intros st H. Qed.

Lemma preserves_lift {A : Type} (r : res A) : preserves P (eff_lift r).
Proof. by intros st H. Qed.

Lemma preserves_bind {A B : Type} (m : eff A) (k : A -> eff B) :
  preserves P m -> (forall a, preserves P (k a)) -> preserves P (eff_bind m k).
Proof.
  intros Hm Hk st H. unfold eff_bind. specialize (Hm st H).
  destruct (m st) as [st' [a|e]]; cbn in *; [by apply Hk|done].
Qed.

Lemma preserves_modify (f : call_state -> call_state) :
  (forall st, P st -> P (f st)) -> preserves P (eff_modify f).
Proof. intros Hf st H. by apply Hf. Qed.

Lemma preserves_for (l : list nat) (body : nat -> eff unit) :
  (forall i, i ∈ l -> preserves P (body i)) -> preserves P (eff_for l body).
Proof.
  induction l as [|i l IH]; intros Hb; cbn; [apply preserves_ret|].
  apply preserves_bind; [apply Hb; by left|].
  intros _. apply IH. intros j Hj. apply Hb. by right.
Qed.

Lemma preserves_foldl {A : Type} (body : A -> nat -> eff A) (a : A) (l : list nat) :
  (forall a i, preserves P (body a i)) -> preserves P (eff_foldl body a l).
Proof.
  intros Hb. revert a. induction l as [|i l IH]; intros a; cbn; [apply preserves_ret|].
  apply preserves_bind; [apply Hb|apply IH].
Qed.

End Preservation.

Section Interpolator.

Variable np_sqrt : Qc -> Qc.
Variable np_log10 : Qc -> Qc.
Variable uninit : string -> list nat -> Qc.
Variable kdtree_query : list vec -> vec -> nat -> vec * list nat.
Variable linalg_inv : mat -> res mat.
Variable linalg_slogdet : mat -> Qc * Qc.

(** The four kinds of store of the loop and the k-d tree query, as
    changes of the arrays. *)
Lemma preserves_pack (P : call_state -> Prop) (inv : mat) (n_filters i : nat) :
  (forall f, preserves P (set_icov_diag (alter f i))) ->
  (forall f, preserves P (set_icov_offdiag (alter f i))) ->
  preserves P (pack_icov inv n_filters i).
Proof.
  intros Hd Ho. unfold pack_icov. destruct n_filters as [|last].
  { apply preserves_lift. }
  apply preserves_bind; [apply Hd|]. intros _.
  apply preserves_bind; [|intros; apply preserves_ret].
  apply preserves_foldl. intros m k. unfold pack_row.
  apply preserves_bind; [apply Hd|]. intros _.
  unfold pack_offdiag_row. apply preserves_foldl. intros m' l.
  apply preserves_bind; [apply Ho|]. intros; apply preserves_ret.
Qed.

Lemma preserves_eval_row (P : call_state -> Prop) (self : MultiFilterASTs)
    (flux : mat) (n_filters i : nat) :
  (forall x, preserves P (query kdtree_query (_kdtree self) x 10)) ->
  (forall v, preserves P (set_sigmas (<[i := v]>))) ->
  (forall f, preserves P (set_icov_diag (alter f i))) ->
  (forall f, preserves P (set_icov_offdiag (alter f i))) ->
  (forall v, preserves P (set_q_norm (<[i := v]>))) ->
  preserves P (eval_row np_sqrt np_log10 kdtree_query linalg_inv linalg_slogdet
                        self flux n_filters i).
Proof.
  intros Hq Hs Hd Ho Hn. unfold eval_row.
  apply preserves_bind; [apply preserves_lift|]. intros row.
  apply preserves_bind; [apply Hq|]. intros result.
  apply preserves_bind; [apply preserves_lift|]. intros covs.
  apply preserves_bind; [apply Hs|]. intros _.
  apply preserves_bind; [apply preserves_lift|]. intros inv.
  apply preserves_bind; [by apply preserves_pack|]. intros _.
  apply Hn.
Qed.

(** *** The arrays that are never stored into *)

Lemma eval_row_frame (b c : mat) (self : MultiFilterASTs) (flux : mat)
    (n_filters i : nat) :
  preserves (fun st => bias st = b /\ compl st = c)
            (eval_row np_sqrt np_log10 kdtree_query linalg_inv linalg_slogdet
                      self flux n_filters i).
Proof. apply preserves_eval_row; by intros ? st H. Qed.

(** *** The number of neighbours asked for *)

Lemma eval_row_queries (self : MultiFilterASTs) (flux : mat) (n_filters i : nat) :
  preserves (fun st => Forall (fun q : vec * nat => q.2 = 10%nat) (queries st))
            (eval_row np_sqrt np_log10 kdtree_query linalg_inv linalg_slogdet
                      self flux n_filters i).
Proof.
  apply preserves_eval_row; try by intros ? st H.
  intros x st H. cbn. apply Forall_app. split; [done|]. by constructor.
Qed.

(** *** The rows of the other iterations *)

Lemma eval_row_other (j : nat) (s d o : option vec) (q : option Qc)
    (self : MultiFilterASTs) (flux : mat) (n_filters i : nat) :
  i <> j ->
  preserves (row_is j s d o q)
            (eval_row np_sqrt np_log10 kdtree_query linalg_inv linalg_slogdet
                      self flux n_filters i).
Proof.
  intros Hij. unfold row_is.
  apply preserves_eval_row; intros ? st H; cbn;
    rewrite ?list_lookup_insert_ne, ?list_lookup_alter_ne by done; done.
Qed.

(** Rows of index 10 and more keep what [np.empty] left in them,
    whatever the number of rows of the grid. *)
Lemma call_loop_rows_beyond (self : MultiFilterASTs) (sedgrid : SedGrid) (j : nat) :
  (10 <= j)%nat ->
  let st0 := call_init uninit (seds_shape sedgrid).1 (seds_shape sedgrid).2 in
  let st := (call_loop np_sqrt np_log10 uninit kdtree_query linalg_inv linalg_slogdet
                       self sedgrid).1 in
  sigmas st !! j = sigmas st0 !! j
  /\ icov_diag st !! j = icov_diag st0 !! j
  /\ icov_offdiag st !! j = icov_offdiag st0 !! j
  /\ q_norm st !! j = q_norm st0 !! j.
Proof.
  intros Hj. unfold call_loop. destruct (seds_shape sedgrid) as [n_models n_filters].
  cbn [fst snd].
  apply (preserves_for (row_is j _ _ _ _)); [|done].
  intros i Hi. apply eval_row_other. apply elem_of_seq in Hi. lia.
Qed.

(** C8, as the code has it. Every query the loop sends to the k-d
    tree asks for 10 neighbours, whatever the number of points in the
    tree. *)
Theorem call_loop_asks_ten (self : MultiFilterASTs) (sedgrid : SedGrid) :
  Forall (fun q : vec * nat => q.2 = 10%nat)
         (queries (call_loop np_sqrt np_log10 uninit kdtree_query linalg_inv
                             linalg_slogdet self sedgrid).1).
Proof.
  unfold call_loop. destruct (seds_shape sedgrid) as [n_models n_filters].
  apply (preserves_for (fun st => Forall (fun q : vec * nat => q.2 = 10%nat) (queries st)));
    [|by constructor].
  intros i _. apply eval_row_queries.
Qed.

(** A query is sent as soon as the grid has a first row. *)
Lemma call_loop_first_query (self : MultiFilterASTs) (sedgrid : SedGrid) (row : vec) :
  seds sedgrid !! 0%nat = Some row ->
  exists rest,
    queries (call_loop np_sqrt np_log10 uninit kdtree_query linalg_inv
                       linalg_slogdet self sedgrid).1
    = ((map np_log10 (zip_with Qcdiv row (vega_flux self)), 10%nat) :: rest).
Proof.
  intros Hrow. unfold call_loop. destruct (seds_shape sedgrid) as [n_models n_filters].
  cbn [seq eff_for].
  set (q := (map np_log10 (zip_with Qcdiv row (vega_flux self)), 10%nat)).
  set (P := fun st : call_state => exists rest, queries st = q :: rest).
  change (P (eff_bind (eval_row np_sqrt np_log10 kdtree_query linalg_inv linalg_slogdet
                                self (seds sedgrid) n_filters 0)
                      (fun _ => eff_for (seq 1 9)
                                  (eval_row np_sqrt np_log10 kdtree_query linalg_inv
                                            linalg_slogdet self (seds sedgrid) n_filters))
                      (call_init uninit n_models n_filters)).1).
  assert (Hkeep : forall i, preserves P
            (eval_row np_sqrt np_log10 kdtree_query linalg_inv linalg_slogdet
                      self (seds sedgrid) n_filters i)).
  { intros i. apply preserves_eval_row; try by intros ? st H.
    intros x st [rest Hst]. exists (rest ++ [(x, 10%nat)])%list. cbn. by rewrite Hst. }
  unfold eff_bind at 1.
  assert (H0 : P (eval_row np_sqrt np_log10 kdtree_query linalg_inv linalg_slogdet
                           self (seds sedgrid) n_filters 0
                           (call_init uninit n_models n_filters)).1).
  { unfold eval_row. unfold eff_bind at 1. unfold eff_lift at 1, subscript.
    rewrite Hrow. cbn iota.
    match goal with
    | |- P (eff_bind (query _ _ ?x _) ?k ?st).1 =>
        assert (Hk : forall r, preserves P (k r))
    end.
    { intros r.
      apply preserves_bind; [apply preserves_lift|]. intros covs.
      apply preserves_bind; [by intros st H|]. intros _.
      apply preserves_bind; [apply preserves_lift|]. intros inv.
      apply preserves_bind; [apply preserves_pack; by intros ? st H|]. intros _.
      by intros st H. }
    unfold eff_bind at 1. cbn [query]. apply Hk. by exists []. }
  destruct (eval_row _ _ _ _ _ _ _ _ _ _) as [st [u|e]]; cbn [fst] in *; [|done].
  by apply preserves_for.
Qed.

(** The frame of the loop, on every run.  No iteration of the loop
    over the rows stores anything in [bias] or in [compl]: when the
    loop ends, by running out of rows or by an exception, both arrays
    are what [np.empty] allocated. *)
Lemma call_loop_frame (self : MultiFilterASTs) (sedgrid : SedGrid) :
  let st := (call_loop np_sqrt np_log10 uninit kdtree_query linalg_inv linalg_slogdet
                       self sedgrid).1 in
  bias st = np_empty2 uninit "bias" (seds_shape sedgrid).1 (seds_shape sedgrid).2
  /\ compl st = np_empty2 uninit "compl" (seds_shape sedgrid).1 (seds_shape sedgrid).2.
Proof.
  unfold call_loop. destruct (seds_shape sedgrid) as [n_models n_filters].
  cbn [fst snd].
  apply (preserves_for (fun st => bias st = _ /\ compl st = _)); [|done].
  intros i _. apply eval_row_frame.
Qed.

(** *** What the loop stores in [sigmas] *)

Lemma eval_row_tail_sigmas (P : call_state -> Prop) (inv_of : res mat)
    (n_filters i : nat) (v : Qc) :
  (forall f, preserves P (set_icov_diag (alter f i))) ->
  (forall f, preserves P (set_icov_offdiag (alter f i))) ->
  (forall v, preserves P (set_q_norm (<[i := v]>))) ->
  preserves P (eff_bind (eff_lift inv_of)
                 (fun inv => eff_bind (pack_icov inv n_filters i)
                               (fun _ => set_q_norm (<[i := v]>)))).
Proof.
  intros Hd Ho Hq.
  apply preserves_bind; [apply preserves_lift|]. intros inv.
  apply preserves_bind; [by apply preserves_pack|]. intros _. apply Hq.
Qed.

(** An iteration that finds its row and its neighbours stores the
    square roots of the diagonal of the interpolated covariance in
    its row of [sigmas]. *)
Lemma eval_row_sigmas (self : MultiFilterASTs) (flux : mat) (n_filters i : nat)
    (st : call_state) (row : vec) (cov : mat) :
  flux !! i = Some row ->
  interpolated_cov np_log10 kdtree_query self n_filters row = Ok cov ->
  (i < length (sigmas st))%nat ->
  sigmas (eval_row np_sqrt np_log10 kdtree_query linalg_inv linalg_slogdet
                   self flux n_filters i st).1 !! i
  = Some (map np_sqrt (np_diagonal n_filters cov)).
Proof.
  intros Hrow Hcov Hi. unfold eval_row, interpolated_cov in *.
  unfold eff_bind at 1. unfold eff_lift at 1, subscript. rewrite Hrow.
  unfold eff_bind at 1. cbn [query].
  unfold eff_bind at 1. unfold eff_lift at 1.
  destruct (take_indices _ _) as [covs|e] eqn:E;
    rewrite ?E in Hcov; cbn in Hcov; [|discriminate].
  injection Hcov as <-.
  unfold eff_bind at 1. cbn [set_sigmas eff_modify].
  apply (eval_row_tail_sigmas
           (fun st => sigmas st !! i = Some _)); try by intros ? st' H.
  cbn. apply list_lookup_insert_eq. done.
Qed.

(** An iteration that ends without an exception has found its row
    and its neighbours. *)
Lemma eval_row_ok (self : MultiFilterASTs) (flux : mat) (n_filters i : nat)
    (st st' : call_state) :
  eval_row np_sqrt np_log10 kdtree_query linalg_inv linalg_slogdet
           self flux n_filters i st = (st', Ok tt) ->
  exists row cov, flux !! i = Some row
                  /\ interpolated_cov np_log10 kdtree_query self n_filters row = Ok cov.
Proof.
  unfold eval_row, interpolated_cov.
  unfold eff_bind at 1. unfold eff_lift at 1, subscript.
  destruct (flux !! i) as [row|]; [|done].
  unfold eff_bind at 1. cbn [query].
  unfold eff_bind at 1. unfold eff_lift at 1.
  intros H. exists row.
  destruct (take_indices _ _) as [covs|e]; [|done].
  by eexists.
Qed.

Lemma eff_for_app (l1 l2 : list nat) (body : nat -> eff unit) (st : call_state) :
  eff_for (l1 ++ l2) body st
  = match eff_for l1 body st with
    | (st1, Ok _) => eff_for l2 body st1
    | (st1, Raise e) => (st1, Raise e)
    end.
Proof.
  revert st. induction l1 as [|i l1 IH]; intros st; [done|].
  cbn [app eff_for]. unfold eff_bind.
  destruct (body i st) as [st1 [u|e]]; [apply IH|done].
Qed.

Lemma eval_row_sigmas_length (n : nat) (self : MultiFilterASTs) (flux : mat)
    (n_filters i : nat) :
  preserves (fun st => length (sigmas st) = n)
            (eval_row np_sqrt np_log10 kdtree_query linalg_inv linalg_slogdet
                      self flux n_filters i).
Proof.
  apply preserves_eval_row; try by intros ? st H.
  intros v st H. cbn. by rewrite length_insert.
Qed.

(** When the loop over the rows ends without an exception, each of
    the ten rows of [sigmas] it has gone through holds the square
    roots of the diagonal of the interpolated covariance of that grid
    row. *)
Lemma call_loop_sigmas (self : MultiFilterASTs) (sedgrid : SedGrid)
    (st : call_state) (i : nat) :
  length (seds sedgrid) = (seds_shape sedgrid).1 ->
  call_loop np_sqrt np_log10 uninit kdtree_query linalg_inv linalg_slogdet
            self sedgrid = (st, Ok tt) ->
  (i < 10)%nat ->
  exists row cov,
    seds sedgrid !! i = Some row
    /\ interpolated_cov np_log10 kdtree_query self (seds_shape sedgrid).2 row = Ok cov
    /\ sigmas st !! i = Some (map np_sqrt (np_diagonal (seds_shape sedgrid).2 cov)).
Proof.
  unfold call_loop. destruct (seds_shape sedgrid) as [n_models n_filters].
  cbn [fst snd]. intros Hshape Hloop Hi.
  set (body := eval_row np_sqrt np_log10 kdtree_query linalg_inv linalg_slogdet
                        self (seds sedgrid) n_filters) in *.
  assert (Hsplit : seq 0 10 = (seq 0 i ++ i :: seq (S i) (10 - S i))%list).
  { replace 10%nat with (i + S (10 - S i))%nat at 1 by lia.
    by rewrite seq_app. }
  rewrite Hsplit, eff_for_app in Hloop.
  pose proof (preserves_for (fun st => length (sigmas st) = n_models)
                (seq 0 i) body
                (fun j _ => eval_row_sigmas_length n_models self _ n_filters j)
                (call_init uninit n_models n_filters)) as Hlen.
  destruct (eff_for (seq 0 i) body _) as [st1 [u|e]]; [|done].
  cbn [fst] in Hlen. specialize (Hlen (length_np_empty2 uninit _ _ _)).
  cbn [eff_for] in Hloop. unfold eff_bind in Hloop.
  destruct (body i st1) as [st2 [[]|e]] eqn:Hbody; [|done].
  destruct (eval_row_ok _ _ _ _ _ _ Hbody) as (row & cov & Hrow & Hcov).
  exists row, cov. split; [done|]. split; [done|].
  assert (Hst2 : sigmas st2 !! i = Some (map np_sqrt (np_diagonal n_filters cov))).
  { change st2 with (st2, @Ok unit tt).1. rewrite <- Hbody.
    apply (eval_row_sigmas _ _ _ _ _ row); [done|done|].
    rewrite Hlen, <- Hshape. by eapply lookup_lt_Some. }
  assert (Hrest : forall j, j ∈ seq (S i) (10 - S i) ->
            preserves (row_is i (Some (map np_sqrt (np_diagonal n_filters cov)))
                              (icov_diag st2 !! i) (icov_offdiag st2 !! i)
                              (q_norm st2 !! i))
                      (body j)).
  { intros j Hj. apply eval_row_other. apply elem_of_seq in Hj. lia. }
  destruct (preserves_for _ _ _ Hrest st2) as [H _]; [by repeat split|].
  by rewrite Hloop in H.
Qed.


(** No run of [__call__] returns: when the loop over the rows does not
    raise, the [return] statement does. *)
Lemma call_raises (self : MultiFilterASTs) (sedgrid : SedGrid) :
  exists e,
    __call__ np_sqrt np_log10 uninit kdtree_query linalg_inv linalg_slogdet
             self sedgrid = Raise e.
Proof.
  unfold __call__. destruct (seds_shape sedgrid) as [n_models n_filters].
  case_bool_decide; [by eexists|].
  destruct (call_loop _ _ _ _ _ _ _ _) as [st [u|e]]; by eexists.
Qed.

End Interpolator.

(** ** The packed inverse covariance *)

Section Packing.

Lemma write_seq_app (m : nat) (a b row : vec) :
  write_seq m (a ++ b) row = write_seq (m + length a) b (write_seq m a row).
Proof.
  revert m row. induction a as [|v a IH]; intros m row; cbn.
  - by rewrite Nat.add_0_r.
  - rewrite IH. f_equal. lia.
Qed.

Lemma write_seq_splice (m : nat) (vals row : vec) :
  (m + length vals <= length row)%nat ->
  write_seq m vals row = (take m row ++ vals ++ drop (m + length vals) row)%list.
Proof.
  revert m row. induction vals as [|v vals IH]; intros m row Hlen; cbn in *.
  - by rewrite Nat.add_0_r, take_drop.
  - rewrite IH by (rewrite length_insert; lia).
    rewrite (take_S_r _ m v) by (apply list_lookup_insert_eq; lia).
    rewrite take_insert_ge, drop_insert_lt by lia.
    rewrite <- app_assoc. cbn [app].
    by replace (S m + length vals)%nat with (m + S (length vals))%nat by lia.
Qed.

Lemma write_seq_all (vals row : vec) :
  length vals = length row -> write_seq 0 vals row = vals.
Proof.
  intros Hlen. rewrite write_seq_splice by (cbn; lia). cbn.
  by rewrite drop_ge, app_nil_r by lia.
Qed.

Lemma with_icov_id (st : call_state) (i : nat) :
  with_icov (alter id i) (alter id i) st = st.
Proof.
  destruct st. unfold with_icov. cbn. by rewrite !list_alter_id.
Qed.

Lemma with_icov_compose (fd fd' fo fo' : vec -> vec) (i : nat) (st : call_state) :
  with_icov (alter fd' i) (alter fo' i) (with_icov (alter fd i) (alter fo i) st)
  = with_icov (alter (fd' ∘ fd) i) (alter (fo' ∘ fo) i) st.
Proof. unfold with_icov. cbn. by rewrite !list_alter_alter_eq. Qed.

Lemma with_icov_ext (fd fd' fo fo' : vec -> vec) (i : nat) (st : call_state) :
  (forall r, fd r = fd' r) -> (forall r, fo r = fo' r) ->
  with_icov (alter fd i) (alter fo i) st = with_icov (alter fd' i) (alter fo' i) st.
Proof.
  intros Hd Ho. unfold with_icov. f_equal; apply list_alter_ext; auto.
Qed.

Lemma store_offdiag_run (inv : mat) (i k m l : nat) (st : call_state) :
  store_offdiag inv i k m l st
  = (with_icov (alter id i) (alter (<[m := get2 inv k l]>) i) st, Ok (S m)).
Proof.
  destruct st. unfold store_offdiag, with_icov. cbn.
  rewrite list_alter_id by done. rewrite Nat.add_1_r. unfold eff_ret, upd2.
  do 2 f_equal.
  apply list_alter_ext; [|done]. intros r _. by rewrite list_insert_alter.
Qed.

(** The inner loop stores the entries [ls] of row [k] from position
    [m] on. *)
Lemma pack_offdiag_row_run (inv : mat) (i k : nat) (ls : list nat)
    (m : nat) (st : call_state) :
  eff_foldl (store_offdiag inv i k) m ls st
  = (with_icov (alter id i) (alter (write_seq m (map (get2 inv k) ls)) i) st,
     Ok (m + length ls)%nat).
Proof.
  revert m st. induction ls as [|l ls IH]; intros m st; cbn [eff_foldl map length].
  - unfold eff_ret. by rewrite with_icov_id, Nat.add_0_r.
  - unfold eff_bind. rewrite store_offdiag_run, IH, with_icov_compose.
    rewrite Nat.add_succ_r. reflexivity.
Qed.

Lemma store_diag_run (i k : nat) (v : Qc) (st : call_state) :
  set_icov_diag (upd2 (fun _ => v) i k) st
  = (with_icov (alter (<[k := v]>) i) (alter id i) st, Ok tt).
Proof.
  destruct st. unfold set_icov_diag, eff_modify, with_icov, upd2. cbn.
  rewrite (list_alter_id id) by done. do 2 f_equal.
  apply list_alter_ext; [|done]. intros r _. by rewrite list_insert_alter.
Qed.

Lemma pack_row_run (inv : mat) (n_filters i m k : nat) (st : call_state) :
  let seg := map (get2 inv k) (seq (k + 1) (n_filters - (k + 1))) in
  pack_row inv n_filters i m k st
  = (with_icov (alter (<[k := get2 inv k k]>) i) (alter (write_seq m seg) i) st,
     Ok (m + length seg)%nat).
Proof.
  cbn zeta. unfold pack_row, eff_bind. rewrite store_diag_run.
  unfold pack_offdiag_row. rewrite pack_offdiag_row_run, with_icov_compose.
  by rewrite length_map.
Qed.

(** What the loop over the rows [ks] has stored, and where [m] is. *)
Lemma pack_rows_run (inv : mat) (n_filters i : nat) (ks : list nat)
    (m : nat) (st : call_state) :
  let upper := flat_map (fun k => map (get2 inv k) (seq (k + 1) (n_filters - (k + 1)))) ks in
  eff_foldl (pack_row inv n_filters i) m ks st
  = (with_icov (alter (fun row => foldl (fun row k => <[k := get2 inv k k]> row) row ks) i)
               (alter (write_seq m upper) i) st,
     Ok (m + length upper)%nat).
Proof.
  cbn zeta. revert m st.
  induction ks as [|k ks IH]; intros m st; cbn [eff_foldl flat_map foldl].
  - unfold eff_ret. cbn. rewrite Nat.add_0_r. f_equal. symmetry. apply with_icov_id.
  - unfold eff_bind. rewrite pack_row_run. cbn zeta. rewrite IH, with_icov_compose.
    rewrite length_app, Nat.add_assoc. f_equal.
    apply with_icov_ext; [done|]. intros r. cbn. by rewrite write_seq_app.
Qed.

(** The two rows of model [i] when the packing is over. *)
Lemma pack_icov_run (inv : mat) (last i : nat) (st : call_state) :
  let n_filters := S last in
  let upper := flat_map (fun k => map (get2 inv k) (seq (k + 1) (n_filters - (k + 1))))
                        (seq 0 last) in
  pack_icov inv n_filters i st
  = (with_icov
       (alter (fun row => foldl (fun row k => <[k := get2 inv k k]> row)
                                (<[last := get2 inv last last]> row) (seq 0 last)) i)
       (alter (write_seq 0 upper) i) st,
     Ok tt).
Proof.
  cbn zeta. unfold pack_icov, eff_bind. rewrite store_diag_run, pack_rows_run.
  cbn zeta. unfold eff_ret. by rewrite with_icov_compose.
Qed.

(** *** The packed rows *)

Lemma upper_triangle_code (inv : mat) (last : nat) :
  flat_map (fun k => map (get2 inv k) (seq (k + 1) (S last - (k + 1)))) (seq 0 last)
  = upper_triangle (S last) inv.
Proof.
  unfold upper_triangle. rewrite (seq_S last), flat_map_app. cbn [flat_map Nat.add].
  rewrite Nat.sub_diag. cbn [seq map]. rewrite !app_nil_r.
  apply flat_map_ext. intros k. by rewrite Nat.add_1_r.
Qed.

Lemma upper_length_upto (inv : mat) (n cnt : nat) :
  (cnt <= n)%nat ->
  (2 * length (flat_map (fun k => map (fun l => get2 inv k l) (seq (S k) (n - S k)))
                        (seq 0 cnt))
   + cnt * (cnt + 1) = 2 * cnt * n)%nat.
Proof.
  induction cnt as [|cnt IH]; intros Hc; [done|].
  rewrite seq_S, flat_map_app, length_app. cbn [flat_map Nat.add].
  rewrite app_nil_r, length_map, length_seq.
  specialize (IH ltac:(lia)). nia.
Qed.

(** The packed row has [n (n - 1) / 2] entries, the width of
    [icov_offdiag]. *)
Lemma upper_triangle_length (inv : mat) (n : nat) :
  length (upper_triangle n inv) = calc_n_offdiag n.
Proof.
  pose proof (upper_length_upto inv n n ltac:(lia)) as H.
  unfold upper_triangle, calc_n_offdiag. cbn [Nat.pow].
  apply (Nat.div_unique _ 2 _ 0); lia.
Qed.



Lemma diag_stores (inv : mat) (last : nat) (row : vec) :
  length row = S last ->
  foldl (fun row k => <[k := get2 inv k k]> row)
        (<[last := get2 inv last last]> row) (seq 0 last)
  = np_diagonal (S last) inv.
Proof.
  intros Hlen.
  rewrite (foldl_insert_seq (fun k => get2 inv k k)) by (rewrite length_insert; lia).
  rewrite (drop_S _ (get2 inv last last) last)
    by (apply list_lookup_insert_eq; lia).
  rewrite drop_ge by (rewrite length_insert; lia).
  unfold np_diagonal. by rewrite seq_S, map_app.
Qed.

Lemma mat_tabulate (inv : mat) (n : nat) :
  length inv = n -> Forall (fun r => length r = n) inv ->
  map (fun a => map (fun b => get2 inv a b) (seq 0 n)) (seq 0 n) = inv.
Proof.
  intros <- Hrows. transitivity (map id inv); [|apply map_id].
  apply map_seq_lookup. intros a r Ha. cbn [Nat.add].
  assert (Hr : length r = length inv).
  { by apply (Forall_lookup_1 _ _ _ _ Hrows Ha). }
  rewrite <- Hr. transitivity (map id r); [|apply map_id].
  apply map_seq_lookup. intros b x Hb. cbn [Nat.add].
  unfold get2, get1. by rewrite Ha; cbn; rewrite Hb.
Qed.



End Packing.

(** ** The model on concrete tables *)

Section Runs.

Import Examples.


(** C2 at the model of six recovered ASTs. *)
Lemma calc_ast_cov_statistics_witness :
  take_indices one_model [0; 1; 2; 3; 4; 5]%nat = Ok one_model
  /\ (6 <= length (retained ["F1"] one_model))%nat
  /\ exists cov biases stddevs corr diffs imags,
       _calc_ast_cov Approx.power10 Approx.sqrt Approx.uninit
                     one_model [0; 1; 2; 3; 4; 5]%nat ["F1"] true
       = Ok (CovAll cov biases stddevs corr diffs imags)
       /\ forall i fi, ["F1"] !! i = Some fi ->
            exists di bi,
              diffs !! i = Some di /\ biases !! i = Some bi
              /\ di = map (fun r => r (fi ++ "_RATE")
                                    - Approx.power10 (minus_04 * r (fi ++ "_IN")))
                          (retained ["F1"] one_model)
              /\ bi = vsum di / Qc_of_nat (length (retained ["F1"] one_model))
              /\ forall j fj dj bj,
                   ["F1"] !! j = Some fj -> diffs !! j = Some dj -> biases !! j = Some bj ->
                   lk2 cov i j
                   = Some (sample_cov (length (retained ["F1"] one_model)) bi bj di dj).
Proof.
  split; [reflexivity|]. split; [vm_compute; lia|].
  apply (calc_ast_cov_statistics Approx.power10 Approx.sqrt Approx.uninit
           one_model [0; 1; 2; 3; 4; 5]%nat ["F1"] one_model).
  - reflexivity.
  - vm_compute; lia.
Defined.

(** C1 on a table with a model of six ASTs and a model of three.  The
    model of three is in the output: [K] is 2, and its row of
    [all_covs] is the memory [np.empty] returned. *)
Theorem aggregate_keeps_small_group :
  exists agg,
    _calc_all_ast_cov Approx.power10 Approx.sqrt Approx.uninit small_group ["F1"]
    = Ok agg
    /\ rationals (np_unique (column small_group "F1_IN")) = [0; 5]%Q
    /\ length (retained ["F1"] (group_rows small_group "F1_IN" (Q2Qc 5))) = 3%nat
    /\ length (agg_covs agg) = 2%nat
    /\ length (agg_biases agg) = 2%nat
    /\ agg_covs agg !! 1%nat = Some [[Approx.uninit "all_covs" [1; 0; 0]%nat]]
    /\ agg_biases agg !! 1%nat = Some [Approx.uninit "all_biases" [1; 0]%nat].
Proof.
  eexists. split; [vm_compute; reflexivity|]. cbn [agg_covs agg_biases].
  repeat split; vm_compute; reflexivity.
Qed.

(** C5 on the model of six recovered ASTs whose flux differences are
    1, -1, 1, -1, 1, -1.  The sum of squared deviations is 6; the
    standard deviation returned is 1, the square root of 6/6, and its
    square is not the variance 6/5 on the diagonal of the covariance
    matrix. *)
Theorem stddev_population_example :
  exists cov biases stddevs corr diffs imags,
    _calc_ast_cov Approx.power10 Approx.sqrt Approx.uninit
                  one_model [0; 1; 2; 3; 4; 5]%nat ["F1"] true
    = Ok (CovAll cov biases stddevs corr diffs imags)
    /\ map rationals diffs = [[1; -1; 1; -1; 1; -1]%Q]
    /\ rationals biases = [0%Q]
    /\ rationals stddevs = [1%Q]
    /\ map rationals cov = [[6 # 5]%Q]
    /\ get1 stddevs 0 * get1 stddevs 0 <> get2 cov 0 0.
Proof.
  do 6 eexists. split; [vm_compute; reflexivity|].
  repeat split; try (vm_compute; reflexivity).
  intros H. apply (f_equal this) in H. vm_compute in H. discriminate.
Qed.

(** C6 on the same model.  The standard deviation of the filter is 1,
    not 0, and the diagonal entry of the correlation matrix is 6/5. *)
Theorem corr_diagonal_example :
  exists cov biases stddevs corr diffs imags,
    _calc_ast_cov Approx.power10 Approx.sqrt Approx.uninit
                  one_model [0; 1; 2; 3; 4; 5]%nat ["F1"] true
    = Ok (CovAll cov biases stddevs corr diffs imags)
    /\ rationals stddevs = [1%Q]
    /\ map rationals corr = [[6 # 5]%Q]
    /\ get2 corr 0 0 <> 1.
Proof.
  do 6 eexists. split; [vm_compute; reflexivity|].
  repeat split; try (vm_compute; reflexivity).
  intros H. apply (f_equal this) in H. vm_compute in H. discriminate.
Qed.

(** C3 on a grid of eleven rows, with ten models in the tree.  The
    loop ends without an exception after ten queries; the eleventh
    row of every output array is the memory [np.empty] returned. *)
Theorem call_leaves_eleventh_row :
  exists st,
    loop ten_models grid11 = Ok (st, Ok tt)
    /\ length (seds grid11) = 11%nat
    /\ length (sigmas st) = 11%nat
    /\ length (queries st) = 10%nat
    /\ sigmas st !! 10%nat = Some [Approx.uninit "sigmas" [10; 0]%nat]
    /\ icov_diag st !! 10%nat = Some [Approx.uninit "icov_diag" [10; 0]%nat]
    /\ q_norm st !! 10%nat = Some (Approx.uninit "q_norm" [10]%nat).
Proof.
  eexists. split; [vm_compute; reflexivity|].
  repeat split; vm_compute; reflexivity.
Qed.

(** C4 on a grid of ten rows, with ten models in the tree.  The loop
    ends without an exception and [sigmas] is bound; the [return]
    statement reads [sigma] and the call ends in [NameError]. *)
Theorem call_ends_in_name_error :
  exists st,
    loop ten_models grid10 = Ok (st, Ok tt)
    /\ local_name st "sigmas" = Ok (Arr2 (sigmas st))
    /\ local_name st "sigma" = Raise NameError
    /\ call ten_models grid10 = Raise NameError.
Proof.
  eexists. split; [vm_compute; reflexivity|].
  repeat split; vm_compute; reflexivity.
Qed.

(** C8 fails with three models in the tree: the only query sent asks
    for 10 neighbours, not for min(10, 3), and the row of covariance
    matrices number 3 that the answer names does not exist. *)
Lemma query_count_counterexample :
  exists self,
    process three_models = Ok self
    /\ length (_kdtree self) = 3%nat
    /\ length (_cov_matrices self) = 3%nat
    /\ (call_loop Approx.sqrt Approx.log10 Approx.uninit Approx.kdtree_query
                  Approx.linalg_inv Approx.linalg_slogdet self grid3).2
       = Raise IndexError
    /\ ~ Forall (fun q : vec * nat => q.2 = Nat.min 10 (length (_kdtree self)))
                (queries (call_loop Approx.sqrt Approx.log10 Approx.uninit
                                    Approx.kdtree_query Approx.linalg_inv
                                    Approx.linalg_slogdet self grid3).1).
Proof.
  eexists. split; [vm_compute; reflexivity|].
  repeat split; try (vm_compute; reflexivity).
  intros H. vm_compute in H. inversion H as [|q l Hq Hl]. discriminate.
Qed.

(** C10 on a grid of ten rows, with ten models in the tree.  The loop
    ends without an exception and has left [bias] and [compl] as
    [np.empty] allocated them, the four other arrays being the only
    ones stored into; but the [return] statement reads [sigma] and
    raises [NameError], so that no tuple is returned whose components
    these allocations would be. *)
Theorem call_returns_no_tuple :
  exists st,
    loop ten_models grid10 = Ok (st, Ok tt)
    /\ bias st = np_empty2 Approx.uninit "bias" 10 1
    /\ compl st = np_empty2 Approx.uninit "compl" 10 1
    /\ sigmas st <> np_empty2 Approx.uninit "sigmas" 10 1
    /\ return_tuple st = Raise NameError
    /\ call ten_models grid10 = Raise NameError
    /\ ~ exists t,
          call ten_models grid10 = Ok t
          /\ t !! 0%nat = Some (Arr2 (bias st))
          /\ t !! 2%nat = Some (Arr2 (compl st)).
Proof.
  eexists. split; [vm_compute; reflexivity|].
  split; [vm_compute; reflexivity|]. split; [vm_compute; reflexivity|].
  split; [intros H; vm_compute in H; discriminate|].
  split; [reflexivity|]. split; [vm_compute; reflexivity|].
  intros (t & H & _). vm_compute in H. discriminate.
Qed.


End Runs.

(** ** The estimator: exceptions, symmetry, variances *)

Section EstimatorMore.

Variable np_power10 : Qc -> Qc.
Variable np_sqrt : Qc -> Qc.
Variable uninit : string -> list nat -> Qc.



Lemma calc_ast_cov_selected (data : Table) (indxs : list nat) (filters : list string)
    (return_all : bool) (r : ast_result) :
  _calc_ast_cov np_power10 np_sqrt uninit data indxs filters return_all = Ok r ->
  exists asts, take_indices data indxs = Ok asts.
Proof.
  unfold _calc_ast_cov. destruct (take_indices data indxs) as [asts|e]; [|done].
  by exists asts.
Qed.

(** Whatever [return_all], the covariance matrix returned is the one
    of the full tuple. *)
Lemma calc_ast_cov_full (data : Table) (indxs : list nat) (filters : list string)
    (return_all : bool) (r : ast_result) (cov : mat) :
  _calc_ast_cov np_power10 np_sqrt uninit data indxs filters return_all = Ok r ->
  result_cov r = Some cov ->
  exists biases stddevs corr diffs imags,
    _calc_ast_cov np_power10 np_sqrt uninit data indxs filters true
    = Ok (CovAll cov biases stddevs corr diffs imags).
Proof.
  unfold _calc_ast_cov. destruct (take_indices data indxs) as [asts|e]; [|done].
  cbn [res_bind]. case_bool_decide; [by intros [= <-]|].
  destruct return_all; intros [= <-] [= <-]; by do 5 eexists.
Qed.

Lemma sample_cov_sym (K : nat) (bi bj : Qc) (di dj : vec) :
  sample_cov K bi bj di dj = sample_cov K bj bi dj di.
Proof.
  unfold sample_cov. f_equal. revert dj.
  induction di as [|x di IH]; intros [|y dj]; try done.
  unfold vsum in *. cbn [zip_with foldr]. rewrite IH. ring.
Qed.




(** The cells of the covariance matrix of a model that is not
    rejected, whatever [return_all]. *)
Lemma result_cov_cells (data : Table) (indxs : list nat) (filters : list string)
    (return_all : bool) (r : ast_result) (cov : mat) :
  _calc_ast_cov np_power10 np_sqrt uninit data indxs filters return_all = Ok r ->
  result_cov r = Some cov ->
  exists asts,
    take_indices data indxs = Ok asts
    /\ (6 <= length (retained filters asts))%nat
    /\ forall i fi j fj, filters !! i = Some fi -> filters !! j = Some fj ->
         lk2 cov i j
         = Some (sample_cov (length (retained filters asts))
                   (mean_diff (flux_diffs np_power10 (retained filters asts) fi))
                   (mean_diff (flux_diffs np_power10 (retained filters asts) fj))
                   (flux_diffs np_power10 (retained filters asts) fi)
                   (flux_diffs np_power10 (retained filters asts) fj)).
Proof.
  intros Hr Hcov.
  destruct (calc_ast_cov_full _ _ _ _ _ _ Hr Hcov) as (b & sd & corr & d & im & Hfull).
  destruct (calc_ast_cov_selected _ _ _ _ _ Hfull) as [asts Hsel].
  exists asts. split; [done|]. split.
  { destruct (decide (length (retained filters asts) < 6)%nat) as [Hn|Hn]; [|lia].
    rewrite (calc_ast_cov_small _ _ _ _ _ _ _ _ Hsel Hn) in Hfull. discriminate. }
  intros i fi j fj Hi Hj.
  destruct (calc_ast_cov_cells _ _ _ _ _ _ _ _ _ _ _ _ _ Hsel Hfull i fi Hi)
    as (_ & _ & Hc).
  by apply Hc.
Qed.

(** X2. The covariance matrix [_calc_ast_cov] returns has a cell for
    every pair of filters and is symmetric. *)
Theorem cov_matrix_symmetric (data : Table) (indxs : list nat)
    (filters : list string) (return_all : bool) (r : ast_result) (cov : mat) :
  _calc_ast_cov np_power10 np_sqrt uninit data indxs filters return_all = Ok r ->
  result_cov r = Some cov ->
  forall i j, (i < length filters)%nat -> (j < length filters)%nat ->
    is_Some (lk2 cov i j) /\ lk2 cov i j = lk2 cov j i.
Proof.
  intros Hr Hcov i j Hi Hj.
  destruct (result_cov_cells _ _ _ _ _ _ Hr Hcov) as (asts & _ & _ & Hcells).
  destruct (lookup_lt_is_Some_2 filters i Hi) as [fi Hfi].
  destruct (lookup_lt_is_Some_2 filters j Hj) as [fj Hfj].
  rewrite (Hcells i fi j fj Hfi Hfj), (Hcells j fj i fi Hfj Hfi).
  split; [by eexists|]. f_equal. apply sample_cov_sym.
Qed.


(** X4. The correlation matrix returned with [return_all] is symmetric
    as well. *)
Theorem corr_matrix_symmetric (data : Table) (indxs : list nat)
    (filters : list string)
    (cov : mat) (biases stddevs : vec) (corr diffs : mat) (imags : vec) :
  _calc_ast_cov np_power10 np_sqrt uninit data indxs filters true
  = Ok (CovAll cov biases stddevs corr diffs imags) ->
  forall i j, (i < length filters)%nat -> (j < length filters)%nat ->
    is_Some (lk2 corr i j) /\ lk2 corr i j = lk2 corr j i.
Proof.
  intros Hr i j Hi Hj.
  destruct (calc_ast_cov_selected _ _ _ _ _ Hr) as [asts Hsel].
  rewrite (calc_ast_cov_correlation _ _ _ _ _ _ _ _ _ _ _ _ _ Hsel Hr i j Hi Hj).
  rewrite (calc_ast_cov_correlation _ _ _ _ _ _ _ _ _ _ _ _ _ Hsel Hr j i Hj Hi).
  destruct (result_cov_cells _ _ _ _ _ cov Hr eq_refl) as (asts' & _ & _ & Hcells).
  destruct (lookup_lt_is_Some_2 filters i Hi) as [fi Hfi].
  destruct (lookup_lt_is_Some_2 filters j Hj) as [fj Hfj].
  rewrite (Hcells i fi j fj Hfi Hfj), (Hcells j fj i fi Hfj Hfi).
  cbn [fmap option_fmap option_map]. split; [by eexists|].
  rewrite (Qcmult_comm (get1 stddevs j) (get1 stddevs i)).
  by rewrite sample_cov_sym.
Qed.

End EstimatorMore.

(** ** The aggregator: which rows it returns *)

Section AggregatorMore.

Variable np_power10 : Qc -> Qc.
Variable np_sqrt : Qc -> Qc.
Variable uninit : string -> list nat -> Qc.

Lemma take_indices_lookup {A : Type} (l : list A) (indxs : list nat) (r : list A)
    (j i : nat) :
  take_indices l indxs = Ok r -> indxs !! j = Some i -> r !! j = l !! i.
Proof.
  revert r j. induction indxs as [|i0 indxs IH]; intros r j; [done|].
  cbn. unfold subscript. destruct (l !! i0) as [a|] eqn:Hi0; [|done]. cbn.
  destruct (take_indices l indxs) as [r'|e']; [|done]. cbn. intros [= <-].
  destruct j as [|j]; cbn.
  - by intros [= <-].
  - by apply IH.
Qed.

(** The [j]-th position [np.where] returns is the position of the
    [j]-th element that passes the test. *)
Lemma where_from_lookup {A : Type} (p : A -> bool) (l : list A) (s j i : nat) :
  where_from s (map p l) !! j = Some i ->
  exists u, (s <= i)%nat /\ l !! (i - s)%nat = Some u /\ List.filter p l !! j = Some u.
Proof.
  revert s j. induction l as [|a l IH]; intros s j; [done|]. cbn.
  assert (Hrest : forall j, where_from (S s) (map p l) !! j = Some i ->
            exists u, (s <= i)%nat /\ (a :: l) !! (i - s)%nat = Some u
                      /\ List.filter p l !! j = Some u).
  { intros j' Hj'. destruct (IH _ _ Hj') as (u & Hs & Hu & Hf).
    exists u. split; [lia|]. split; [|done].
    replace (i - s)%nat with (S (i - S s)) by lia. done. }
  destruct (p a).
  - destruct j as [|j]; cbn.
    + intros [= <-]. exists a. rewrite Nat.sub_diag. by repeat split.
    + apply Hrest.
  - apply Hrest.
Qed.

Lemma agg_step_rows (data : Table) (filters : list string) (filtername : string)
    (uvals : vec) (st st' : agg_arrays) (i : nat) :
  agg_step np_power10 np_sqrt uninit data filters filtername uvals st i = Ok st' ->
  (i < length (all_covs st))%nat -> (i < length (all_corrs st))%nat ->
  (i < length (all_biases st))%nat -> (i < length (all_imags st))%nat ->
  agg_rows st' i
  = model_rows np_power10 np_sqrt uninit data filters filtername (get1 uvals i)
               (agg_rows st i)
  /\ forall k, k <> i -> agg_rows st' k = agg_rows st k.
Proof.
  unfold agg_step, model_rows, agg_rows. intros Hstep H1 H2 H3 H4.
  case_bool_decide; [|by injection Hstep as <-].
  destruct (_calc_ast_cov _ _ _ _ _ _ _) as [[| |cov biases sd corr d imags]|e];
    cbn [res_bind] in Hstep; try discriminate; injection Hstep as <-;
    cbn [all_covs all_corrs all_biases all_imags]; [done|].
  rewrite !list_lookup_insert_eq by done. split; [done|].
  intros k Hk. by rewrite !list_lookup_insert_ne by done.
Qed.

(** The rows after [k] iterations of the loop over the models. *)
Lemma agg_loop_rows_prefix (data : Table) (filters : list string) (filtername : string)
    (uvals : vec) (k : nat) (st : agg_arrays) :
  (k <= length uvals)%nat ->
  res_foldl (agg_step np_power10 np_sqrt uninit data filters filtername uvals)
            (agg_init uninit (length uvals) (length filters)) (seq 0 k) = Ok st ->
  forall i,
    agg_rows st i
    = if decide (i < k)%nat
      then model_rows np_power10 np_sqrt uninit data filters filtername (get1 uvals i)
                      (agg_rows (agg_init uninit (length uvals) (length filters)) i)
      else agg_rows (agg_init uninit (length uvals) (length filters)) i.
Proof.
  revert st. induction k as [|k IH]; intros st Hk.
  - cbn. intros [= <-] i. by destruct (decide _); [lia|].
  - rewrite seq_S, res_foldl_app. cbn [Nat.add].
    destruct (agg_loop_prefix np_power10 np_sqrt uninit data filters filtername uvals k)
      as (st1 & Hst1 & _ & H1 & H2 & H3 & H4); [lia|].
    rewrite Hst1. cbn [res_bind res_foldl].
    destruct (agg_step _ _ _ _ _ _ _ st1 k) as [st2|e] eqn:Hstep; [|done].
    cbn [res_bind]. intros [= <-] i.
    destruct (agg_step_rows _ _ _ _ _ _ _ Hstep) as [Hi Hother]; try lia.
    specialize (IH st1 ltac:(lia) Hst1).
    destruct (decide (i = k)) as [->|Hne].
    + rewrite Hi, IH. destruct (decide (k < k)%nat); [lia|].
      by destruct (decide (k < S k)%nat); [|lia].
    + rewrite (Hother i Hne), IH.
      destruct (decide (i < k)%nat), (decide (i < S k)%nat); (done || lia).
Qed.

(** The rows of the output in terms of the loop over the models: the
    row [j] is the row of the [j]-th model whose flag is left at
    [True]. *)
Lemma calc_all_ast_cov_row (data : Table) (filters : list string) (lastf : string)
    (agg : aggregate) (j : nat) (u : Qc) :
  list.last filters = Some lastf ->
  _calc_all_ast_cov np_power10 np_sqrt uninit data filters = Ok agg ->
  kept_models data filters lastf !! j = Some u ->
  let uvals := np_unique (column data (lastf ++ "_IN")) in
  exists i,
    uvals !! i = Some u
    /\ out_rows agg j
       = to_fluxes np_power10
           (model_rows np_power10 np_sqrt uninit data filters (lastf ++ "_IN") u
              (agg_rows (agg_init uninit (length uvals) (length filters)) i)).
Proof.
  intros Hlast Hagg Hj uvals. unfold _calc_all_ast_cov in Hagg. rewrite Hlast in Hagg.
  cbn [res_bind] in Hagg. fold uvals in Hagg.
  destruct (agg_loop_spec np_power10 np_sqrt uninit data filters (lastf ++ "_IN") uvals)
    as (st & Hst & Hgood & _).
  rewrite Hst in Hagg. cbn [res_bind] in Hagg.
  pose proof (agg_loop_rows_prefix data filters (lastf ++ "_IN") uvals (length uvals) st
                ltac:(lia) Hst) as Hrows.
  assert (Hlen : length (np_where (good_asts st)) = length (kept_models data filters lastf)).
  { unfold np_where, kept_models. rewrite Hgood. apply where_from_length. }
  destruct (lookup_lt_is_Some_2 (np_where (good_asts st)) j) as [i Hi].
  { rewrite Hlen. by eapply lookup_lt_Some. }
  pose proof Hi as Hi'. unfold np_where in Hi'. rewrite Hgood in Hi'.
  apply where_from_lookup in Hi' as (u' & _ & Hu' & Hf).
  rewrite Nat.sub_0_r in Hu'. fold uvals in Hf.
  unfold kept_models in Hj. fold uvals in Hj. rewrite Hj in Hf. injection Hf as <-.
  exists i. split; [done|].
  specialize (Hrows i). destruct (decide (i < length uvals)%nat) as [_|Hge];
    [|by apply lookup_lt_Some in Hu'].
  unfold get1 in Hrows. rewrite Hu' in Hrows. cbn [default from_option] in Hrows.
  unfold id in Hrows. rewrite <- Hrows.
  destruct (take_indices (all_covs st) _) as [covs|e] eqn:Hc; [|done].
  destruct (take_indices (all_biases st) _) as [biases|e] eqn:Hb; [|done].
  destruct (take_indices (all_corrs st) _) as [corrs|e] eqn:Hr; [|done].
  destruct (take_indices (all_imags st) _) as [imags|e] eqn:Hm; [|done].
  cbn [res_bind] in Hagg. injection Hagg as <-.
  unfold out_rows, agg_rows, to_fluxes. cbn [agg_covs agg_corrs agg_biases agg_ifluxes].
  rewrite list_lookup_fmap.
  rewrite (take_indices_lookup _ _ _ _ _ Hc Hi), (take_indices_lookup _ _ _ _ _ Hb Hi),
    (take_indices_lookup _ _ _ _ _ Hr Hi), (take_indices_lookup _ _ _ _ _ Hm Hi).
  done.
Qed.

Lemma kept_models_flag (data : Table) (filters : list string) (lastf : string)
    (j : nat) (u : Qc) :
  kept_models data filters lastf !! j = Some u ->
  flag_kept data filters (lastf ++ "_IN") u = true.
Proof.
  intros Hj. apply list_elem_of_lookup_2, list_elem_of_In in Hj.
  unfold kept_models in Hj. by apply List.filter_In in Hj as [_ H].
Qed.

(** The first usable AST is the one the loop over the filters reads
    the input magnitudes from. *)
Lemma first_good_row (asts : Table) (filters : list string) (name : string) (r0 : Row) :
  list.head (retained filters asts) = Some r0 ->
  cell asts name (default 0%nat (good_indxs asts filters !! 0%nat)) = r0 name.
Proof.
  intros Hhead. rewrite good_indxs_mask. unfold np_where.
  destruct (lookup_lt_is_Some_2 (where_from 0 (map (usable filters) asts)) 0) as [i Hi].
  { rewrite where_from_length. fold (retained filters asts).
    destruct (retained filters asts); [done|cbn; lia]. }
  rewrite Hi. cbn [default from_option]. unfold id.
  apply where_from_lookup in Hi as (u & _ & Hu & Hf).
  rewrite Nat.sub_0_r in Hu. fold (retained filters asts) in Hf.
  rewrite <- head_lookup, Hhead in Hf. injection Hf as <-.
  by apply cell_lookup.
Qed.

Lemma square_upd2 (n : nat) (f : Qc -> Qc) (i j : nat) (m : mat) :
  square n m -> square n (upd2 f i j m).
Proof.
  intros [Hlen Hrows]. unfold upd2. split; [by rewrite length_alter|].
  apply Forall_lookup. intros k r Hk.
  destruct (decide (i = k)) as [->|Hne].
  - rewrite list_lookup_alter_eq in Hk.
    destruct (m !! k) as [r'|] eqn:Hr'; [|done]. injection Hk as <-.
    rewrite length_alter. by apply (Forall_lookup_1 _ _ _ _ Hrows Hr').
  - rewrite list_lookup_alter_ne in Hk by done.
    by apply (Forall_lookup_1 _ _ _ _ Hrows Hk).
Qed.

Lemma square_loop2 (n : nat) (G : nat -> nat -> Qc -> Qc) (rows cols : list nat) (m : mat) :
  square n m -> square n (loop2 G rows cols m).
Proof.
  unfold loop2. revert m. induction rows as [|ck rows IH]; intros m Hm; [done|].
  cbn [foldl]. apply IH. clear IH. revert m Hm.
  induction cols as [|dk cols IH]; intros m Hm; [done|].
  cbn [foldl]. apply IH. by apply square_upd2.
Qed.

Lemma square_map (n : nat) (f : Qc -> Qc) (m : mat) :
  square n m -> square n (map (map f) m).
Proof.
  intros [Hlen Hrows]. split; [by rewrite length_map|].
  apply Forall_lookup. intros k r Hk. rewrite list_lookup_fmap in Hk.
  destruct (m !! k) as [r'|] eqn:Hr'; [|done]. injection Hk as <-.
  rewrite length_map. by apply (Forall_lookup_1 _ _ _ _ Hrows Hr').
Qed.

Lemma square_full (n : nat) (x : Qc) : square n (np_full2 n n x).
Proof.
  unfold np_full2. split; [by rewrite length_replicate|].
  apply Forall_lookup. intros k r [-> _]%lookup_replicate.
  by rewrite length_replicate.
Qed.

(** The shapes of the six arrays of the estimator. *)
Lemma calc_ast_cov_shapes (data : Table) (indxs : list nat) (filters : list string)
    (cov : mat) (biases stddevs : vec) (corr diffs : mat) (imags : vec) :
  _calc_ast_cov np_power10 np_sqrt uninit data indxs filters true
  = Ok (CovAll cov biases stddevs corr diffs imags) ->
  square (length filters) cov /\ square (length filters) corr
  /\ length biases = length filters /\ length stddevs = length filters
  /\ length diffs = length filters /\ length imags = length filters.
Proof.
  intros Hres.
  destruct (calc_ast_cov_selected _ _ _ _ _ _ _ _ Hres) as [asts Hsel].
  destruct (decide (length (retained filters asts) < 6)%nat) as [Hn|Hn].
  { rewrite (calc_ast_cov_small _ _ _ _ _ _ _ _ Hsel Hn) in Hres. discriminate. }
  rewrite (calc_ast_cov_retained _ _ _ _ _ _ _ Hsel) in Hres by lia.
  cbn zeta in Hres. injection Hres as <- <- <- <- <- <-.
  rewrite !length_map.
  assert (Hcov : square (length filters)
            (map (map (fun c => c / Qc_pred_nat (length (retained filters asts))))
               (loop2 (fun ck dk c => c + cov_term
                          (map (flux_diffs np_power10 (retained filters asts)) filters)
                          (map (fun f => np_mean (flux_diffs np_power10
                                                    (retained filters asts) f)) filters)
                          (length (retained filters asts)) ck dk)
                  (seq 0 (length filters)) (seq 0 (length filters))
                  (np_full2 (length filters) (length filters) 0)))).
  { apply square_map, square_loop2, square_full. }
  split; [done|]. split; [by apply square_loop2|]. done.
Qed.


(** X6. The row [j] of each array [_calc_all_ast_cov] returns belongs
    to the [j]-th model, by increasing reference magnitude, whose flag
    the loop left at [True]; when that model has more than five ASTs
    the row holds what [_calc_ast_cov] computes for the ASTs of the
    model: covariance, biases, correlation, and the input magnitudes
    turned into fluxes. *)
Theorem calc_all_ast_cov_rows (data : Table) (filters : list string) (lastf : string)
    (agg : aggregate) (j : nat) (u : Qc) :
  list.last filters = Some lastf ->
  _calc_all_ast_cov np_power10 np_sqrt uninit data filters = Ok agg ->
  kept_models data filters lastf !! j = Some u ->
  (5 < length (group_rows data (lastf ++ "_IN") u))%nat ->
  exists cov biases stddevs corr diffs imags,
    _calc_ast_cov np_power10 np_sqrt uninit data
                  (model_indxs data (lastf ++ "_IN") u) filters true
    = Ok (CovAll cov biases stddevs corr diffs imags)
    /\ agg_covs agg !! j = Some cov
    /\ agg_biases agg !! j = Some biases
    /\ agg_corrs agg !! j = Some corr
    /\ agg_ifluxes agg !! j = Some (map (fun m => np_power10 (minus_04 * m)) imags).
Proof.
  intros Hlast Hagg Hj Hn.
  destruct (calc_all_ast_cov_row _ _ _ _ _ _ Hlast Hagg Hj) as (i & Hi & Hrows).
  pose proof (kept_models_flag _ _ _ _ _ Hj) as Hflag.
  rewrite flag_kept_many in Hflag by done. apply bool_decide_eq_true in Hflag.
  pose proof (model_indxs_rows data (lastf ++ "_IN") u) as Hsel.
  pose proof (calc_ast_cov_retained np_power10 np_sqrt uninit _ _ filters _ Hsel Hflag)
    as Hest.
  cbn zeta in Hest.
  unfold model_rows in Hrows.
  rewrite model_indxs_length, bool_decide_true in Hrows by done.
  rewrite Hest in Hrows. unfold out_rows, to_fluxes in Hrows.
  injection Hrows as Hc Hr Hb Hm.
  do 6 eexists. split; [exact Hest|]. by rewrite Hc, Hr, Hb, Hm.
Qed.

End AggregatorMore.

(** ** [process_asts]: what the object holds for a model *)

Section ProcessAsts.

Variable np_power10 : Qc -> Qc.
Variable np_sqrt : Qc -> Qc.
Variable np_log10 : Qc -> Qc.
Variable uninit : string -> list nat -> Qc.

Lemma process_asts_fields (data : Table) (self_filters : list string) (vega : vec)
    (filters : list string) (self : MultiFilterASTs) :
  process_asts np_power10 np_sqrt np_log10 uninit data self_filters vega filters
  = Ok self ->
  exists agg,
    _calc_all_ast_cov np_power10 np_sqrt uninit data filters = Ok agg
    /\ _cov_matrices self = agg_covs agg /\ _biases self = agg_biases agg
    /\ _corr_matrices self = agg_corrs agg /\ _input_fluxes self = agg_ifluxes agg
    /\ _kdtree self = map (map np_log10) (agg_ifluxes agg).
Proof.
  unfold process_asts.
  destruct (_calc_all_ast_cov _ _ _ _ _) as [agg|e]; [|done].
  cbn [res_bind]. intros [= <-]. by exists agg.
Qed.

(** X7. After [process_asts], the entry [j] of the object belongs to
    the [j]-th retained model; when the model has more than five ASTs,
    at least six of them are usable, its bias is the mean flux
    difference over the usable ASTs in each filter, its covariance
    cell is their unbiased sample covariance, and its point in the
    k-d tree is [log10] of the input fluxes of the first usable AST,
    whose magnitude in the last filter is the reference magnitude of
    the model. *)
Theorem process_asts_statistics (data : Table) (self_filters : list string) (vega : vec)
    (filters : list string) (lastf : string) (self : MultiFilterASTs) (j : nat) (u : Qc) :
  list.last filters = Some lastf ->
  process_asts np_power10 np_sqrt np_log10 uninit data self_filters vega filters
  = Ok self ->
  kept_models data filters lastf !! j = Some u ->
  (5 < length (group_rows data (lastf ++ "_IN") u))%nat ->
  let kept := retained filters (group_rows data (lastf ++ "_IN") u) in
  (6 <= length kept)%nat
  /\ _biases self !! j
     = Some (map (fun f => mean_diff (flux_diffs np_power10 kept f)) filters)
  /\ (exists cov,
        _cov_matrices self !! j = Some cov
        /\ forall a fa b fb, filters !! a = Some fa -> filters !! b = Some fb ->
             lk2 cov a b
             = Some (sample_cov (length kept)
                       (mean_diff (flux_diffs np_power10 kept fa))
                       (mean_diff (flux_diffs np_power10 kept fb))
                       (flux_diffs np_power10 kept fa)
                       (flux_diffs np_power10 kept fb)))
  /\ exists r0,
       list.head kept = Some r0
       /\ r0 (lastf ++ "_IN") = u
       /\ _input_fluxes self !! j
          = Some (map (fun f => np_power10 (minus_04 * r0 (f ++ "_IN"))) filters)
       /\ _kdtree self !! j
          = Some (map (fun f => np_log10 (np_power10 (minus_04 * r0 (f ++ "_IN"))))
                      filters).
Proof.
  intros Hlast Hself Hj Hn kept.
  destruct (process_asts_fields _ _ _ _ _ Hself)
    as (agg & Hagg & Hcovs & Hbiases & _ & Hfluxes & Htree).
  rewrite Hcovs, Hbiases, Hfluxes, Htree. clear Hcovs Hbiases Hfluxes Htree Hself.
  destruct (calc_all_ast_cov_row np_power10 np_sqrt uninit _ _ _ _ _ _ Hlast Hagg Hj)
    as (i & Hi & Hrows).
  pose proof (kept_models_flag _ _ _ _ _ Hj) as Hflag.
  rewrite flag_kept_many in Hflag by done. apply bool_decide_eq_true in Hflag.
  fold kept in Hflag.
  pose proof (model_indxs_rows data (lastf ++ "_IN") u) as Hsel.
  pose proof (calc_ast_cov_retained np_power10 np_sqrt uninit _ _ filters _ Hsel Hflag)
    as Hest.
  cbn zeta in Hest. fold kept in Hest.
  unfold model_rows in Hrows.
  rewrite model_indxs_length, bool_decide_true in Hrows by done.
  pose proof (calc_ast_cov_cells np_power10 np_sqrt uninit _ _ _ _ _ _ _ _ _ _
                Hsel Hest) as Hcells.
  cbn zeta in Hcells. fold kept in Hcells.
  rewrite Hest in Hrows. unfold out_rows, to_fluxes in Hrows.
  injection Hrows as Hc Hr Hb Hm.
  split; [done|]. split; [by rewrite Hb|]. split.
  { eexists. split; [exact Hc|]. intros a fa b fb Ha Hb'.
    destruct (Hcells a fa Ha) as (_ & _ & Hcell). by apply Hcell. }
  destruct (list.head kept) as [r0|] eqn:Hhead.
  2: { destruct kept; [cbn in Hflag; lia|done]. }
  exists r0. split; [done|].
  assert (Hfirst : forall f, cell (group_rows data (lastf ++ "_IN") u) (f ++ "_IN")
             (default 0%nat (good_indxs (group_rows data (lastf ++ "_IN") u) filters
                               !! 0%nat))
           = r0 (f ++ "_IN")).
  { intros f. by apply first_good_row. }
  assert (Hu : r0 (lastf ++ "_IN") = u).
  { rewrite head_lookup in Hhead.
    apply list_elem_of_lookup_2, list_elem_of_In in Hhead.
    unfold kept, retained in Hhead. apply List.filter_In in Hhead as [Hin _].
    unfold group_rows in Hin. apply List.filter_In in Hin as [_ Hin].
    by apply bool_decide_eq_true in Hin. }
  split; [done|].
  assert (Hflux : agg_ifluxes agg !! j
                  = Some (map (fun f => np_power10 (minus_04 * r0 (f ++ "_IN"))) filters)).
  { rewrite Hm. cbn [fmap option_fmap option_map]. f_equal.
    rewrite map_map. apply map_ext. intros f. by rewrite Hfirst. }
  split; [done|].
  rewrite list_lookup_fmap, Hflux. cbn [fmap option_fmap option_map].
  by rewrite map_map.
Qed.

End ProcessAsts.

Section AggregatorShapes.

Variable np_power10 : Qc -> Qc.
Variable np_sqrt : Qc -> Qc.
Variable uninit : string -> list nat -> Qc.

(** X8. A retained model with five ASTs or fewer was never handed to
    the estimator: its rows in the arrays [_calc_all_ast_cov] returns
    are the rows [np.empty] allocated at the position [i] of the model
    among the unique reference magnitudes, and its input fluxes are
    [np.power] of that memory. *)
Theorem calc_all_ast_cov_unprocessed (data : Table) (filters : list string)
    (lastf : string) (agg : aggregate) (j : nat) (u : Qc) :
  list.last filters = Some lastf ->
  _calc_all_ast_cov np_power10 np_sqrt uninit data filters = Ok agg ->
  kept_models data filters lastf !! j = Some u ->
  (length (group_rows data (lastf ++ "_IN") u) <= 5)%nat ->
  let n := length filters in
  exists i,
    np_unique (column data (lastf ++ "_IN")) !! i = Some u
    /\ agg_covs agg !! j
       = Some (map (fun a => map (fun b => uninit "all_covs" [i; a; b]) (seq 0 n))
                   (seq 0 n))
    /\ agg_corrs agg !! j
       = Some (map (fun a => map (fun b => uninit "all_corrs" [i; a; b]) (seq 0 n))
                   (seq 0 n))
    /\ agg_biases agg !! j = Some (map (fun a => uninit "all_biases" [i; a]) (seq 0 n))
    /\ agg_ifluxes agg !! j
       = Some (map (fun a => np_power10 (minus_04 * uninit "all_imags" [i; a]))
                   (seq 0 n)).
Proof.
  intros Hlast Hagg Hj Hn n.
  destruct (calc_all_ast_cov_row np_power10 np_sqrt uninit _ _ _ _ _ _ Hlast Hagg Hj)
    as (i & Hi & Hrows).
  exists i. split; [done|].
  unfold model_rows in Hrows.
  rewrite model_indxs_length, bool_decide_false in Hrows by lia.
  unfold out_rows, to_fluxes, agg_rows, agg_init in Hrows.
  cbn [all_covs all_corrs all_biases all_imags] in Hrows.
  unfold np_empty3, np_empty2 in Hrows.
  rewrite !list_lookup_fmap, lookup_seq_lt in Hrows by (by eapply lookup_lt_Some).
  cbn [fmap option_fmap option_map Nat.add] in Hrows.
  injection Hrows as Hc Hr Hb Hm.
  rewrite Hc, Hr, Hb, Hm. by rewrite map_map.
Qed.

(** X9. The shapes of what [_calc_all_ast_cov] returns: the four
    arrays have one row per retained model, every covariance and
    correlation matrix is [n] by [n] and every row of biases and of
    input fluxes has [n] entries, [n] being the number of filters. *)
Theorem calc_all_ast_cov_shapes (data : Table) (filters : list string) (lastf : string)
    (agg : aggregate) :
  list.last filters = Some lastf ->
  _calc_all_ast_cov np_power10 np_sqrt uninit data filters = Ok agg ->
  let n := length filters in
  let K := length (kept_models data filters lastf) in
  length (agg_covs agg) = K /\ length (agg_biases agg) = K
  /\ length (agg_corrs agg) = K /\ length (agg_ifluxes agg) = K
  /\ Forall (square n) (agg_covs agg)
  /\ Forall (square n) (agg_corrs agg)
  /\ Forall (fun r : vec => length r = n) (agg_biases agg)
  /\ Forall (fun r : vec => length r = n) (agg_ifluxes agg).
Proof.
  intros Hlast Hagg n K.
  pose proof (calc_all_ast_cov_length np_power10 np_sqrt uninit data filters lastf Hlast)
    as Hlen.
  cbn zeta in Hlen. destruct Hlen as (agg' & Hagg' & H1 & H2 & H3 & H4).
  rewrite Hagg in Hagg'. injection Hagg' as <-.
  fold (kept_models data filters lastf) in H1. fold K in H1.
  rewrite H2, H3, H4, H1. do 4 (split; [done|]).
  assert (Hrow : forall j, (j < K)%nat ->
            exists c r b m, out_rows agg j = (Some c, Some r, Some b, Some m)
                            /\ square n c /\ square n r /\ length b = n /\ length m = n).
  { intros j Hj. destruct (lookup_lt_is_Some_2 _ j Hj) as [u Hu].
    destruct (calc_all_ast_cov_row np_power10 np_sqrt uninit _ _ _ _ _ _ Hlast Hagg Hu)
      as (i & Hi & Hrows).
    rewrite Hrows. unfold model_rows, to_fluxes.
    assert (Hinit : exists c r b m,
              agg_rows (agg_init uninit (length (np_unique (column data (lastf ++ "_IN"))))
                                 (length filters)) i
              = (Some c, Some r, Some b, Some m)
              /\ square n c /\ square n r /\ length b = n /\ length m = n).
    { unfold agg_rows, agg_init. cbn [all_covs all_corrs all_biases all_imags].
      unfold np_empty3, np_empty2.
      rewrite !list_lookup_fmap, lookup_seq_lt by (by eapply lookup_lt_Some).
      cbn [fmap option_fmap option_map]. do 4 eexists. split; [done|].
      assert (Hsq : forall name, square n
                (map (fun a => map (fun b => uninit name [(0 + i)%nat; a; b]) (seq 0 n))
                     (seq 0 n))).
      { intros name. split; [by rewrite length_map, length_seq|].
        apply Forall_lookup. intros k r Hk. rewrite list_lookup_fmap in Hk.
        destruct (seq 0 n !! k); [|done]. injection Hk as <-.
        by rewrite length_map, length_seq. }
      split; [apply Hsq|]. split; [apply Hsq|].
      by rewrite !length_map, !length_seq. }
    assert (Hflux : forall c r b m,
              agg_rows (agg_init uninit (length (np_unique (column data (lastf ++ "_IN"))))
                                 (length filters)) i
              = (Some c, Some r, Some b, Some m) ->
              square n c -> square n r -> length b = n -> length m = n ->
              exists c' r' b' m',
                (let '(c0, r0, b0, m0) :=
                   agg_rows (agg_init uninit
                               (length (np_unique (column data (lastf ++ "_IN"))))
                               (length filters)) i in
                 (c0, r0, b0, map (fun x => np_power10 (minus_04 * x)) <$> m0))
                = (Some c', Some r', Some b', Some m')
                /\ square n c' /\ square n r' /\ length b' = n /\ length m' = n).
    { intros c r b m -> Hc Hr Hb Hm. do 4 eexists. split; [done|].
      by rewrite length_map. }
    destruct Hinit as (c0 & r0 & b0 & m0 & Hinit & Hc0 & Hr0 & Hb0 & Hm0).
    case_bool_decide; [|by eapply Hflux].
    destruct (_calc_ast_cov _ _ _ _ _ _ _) as [[| |cov biases sd corr d imags]|e] eqn:Hest;
      try by eapply Hflux.
    destruct (calc_ast_cov_shapes _ _ _ _ _ _ _ _ _ _ _ _ Hest)
      as (Hc & Hr & Hb & _ & _ & Hm).
    do 4 eexists. split; [done|]. by rewrite length_map. }
  assert (Hall : forall j, (j < K)%nat ->
            exists c r b m, agg_covs agg !! j = Some c /\ agg_corrs agg !! j = Some r
                            /\ agg_biases agg !! j = Some b /\ agg_ifluxes agg !! j = Some m
                            /\ square n c /\ square n r /\ length b = n /\ length m = n).
  { intros j Hj. destruct (Hrow j Hj) as (c & r & b & m & Hout & H).
    unfold out_rows in Hout. injection Hout as Hc Hr Hb Hm. by exists c, r, b, m. }
  repeat split; apply Forall_lookup; intros j x Hx;
    (destruct (Hall j) as (c & r & b & m & Hc & Hr & Hb & Hm & Hsc & Hsr & Hlb & Hlm);
     [apply lookup_lt_Some in Hx; lia|]); congruence.
Qed.

End AggregatorShapes.

(** ** The interpolator: exceptions and stored rows *)

Section RaisesOnly.

Variable S : exn -> Prop.







End RaisesOnly.

Section InterpolatorMore.

Variable np_sqrt : Qc -> Qc.
Variable np_log10 : Qc -> Qc.
Variable uninit : string -> list nat -> Qc.
Variable kdtree_query : list vec -> vec -> nat -> vec * list nat.
Variable linalg_inv : mat -> res mat.
Variable linalg_slogdet : mat -> Qc * Qc.






(** What an iteration that ends without an exception has stored in
    its rows of the packed inverse and of [q_norm]. *)
Lemma eval_row_run (self : MultiFilterASTs) (flux : mat) (n_filters i : nat)
    (st st' : call_state) :
  eval_row np_sqrt np_log10 kdtree_query linalg_inv linalg_slogdet
           self flux n_filters i st = (st', Ok tt) ->
  exists row cov inv last,
    flux !! i = Some row
    /\ interpolated_cov np_log10 kdtree_query self n_filters row = Ok cov
    /\ linalg_inv cov = Ok inv
    /\ n_filters = S last
    /\ icov_diag st' !! i
       = (fun r => foldl (fun row k => <[k := get2 inv k k]> row)
                         (<[last := get2 inv last last]> r) (seq 0 last))
           <$> icov_diag st !! i
    /\ icov_offdiag st' !! i
       = write_seq 0 (flat_map (fun k => map (get2 inv k) (seq (k + 1) (S last - (k + 1))))
                               (seq 0 last))
           <$> icov_offdiag st !! i
    /\ q_norm st' = <[i := minus_half * (linalg_slogdet cov).2]> (q_norm st).
Proof.
  unfold eval_row, interpolated_cov.
  unfold eff_bind at 1. unfold eff_lift at 1, subscript.
  destruct (flux !! i) as [row|]; [|done].
  unfold eff_bind at 1. cbn [query].
  unfold eff_bind at 1. unfold eff_lift at 1.
  destruct (take_indices _ _) as [covs|e] eqn:Hsel; [|done].
  unfold eff_bind at 1. cbn [set_sigmas eff_modify].
  unfold eff_bind at 1. unfold eff_lift at 1.
  destruct (linalg_inv _) as [inv|e] eqn:Hinv; [|done].
  destruct n_filters as [|last]; [done|].
  unfold eff_bind at 1. rewrite pack_icov_run. cbn zeta.
  cbn [set_q_norm eff_modify]. intros [= <-].
  exists row. eexists. exists inv, last.
  split; [done|]. split; [by rewrite Hsel|]. split; [exact Hinv|]. split; [done|].
  unfold with_icov. cbn [icov_diag icov_offdiag q_norm].
  by rewrite !list_lookup_alter_eq.
Qed.

(** X13. When the loop over the grid rows ends without an exception,
    each of the ten rows it has gone through holds, for the
    distance-weighted covariance of that grid row and its inverse: the
    diagonal of the inverse in [icov_diag], its strictly-upper entries
    by row then column in [icov_offdiag], and minus half the
    log-determinant of the covariance, whatever its sign, in
    [q_norm]. *)
Theorem call_loop_results (self : MultiFilterASTs) (sedgrid : SedGrid)
    (st : call_state) (i : nat) :
  length (seds sedgrid) = (seds_shape sedgrid).1 ->
  call_loop np_sqrt np_log10 uninit kdtree_query linalg_inv linalg_slogdet
            self sedgrid = (st, Ok tt) ->
  (i < 10)%nat ->
  let n := (seds_shape sedgrid).2 in
  exists row cov inv,
    seds sedgrid !! i = Some row
    /\ interpolated_cov np_log10 kdtree_query self n row = Ok cov
    /\ linalg_inv cov = Ok inv
    /\ icov_diag st !! i = Some (np_diagonal n inv)
    /\ icov_offdiag st !! i = Some (upper_triangle n inv)
    /\ q_norm st !! i = Some (minus_half * (linalg_slogdet cov).2).
Proof.
  unfold call_loop. destruct (seds_shape sedgrid) as [n_models n_filters].
  cbn [fst snd]. intros Hshape Hloop Hi. cbn zeta.
  set (body := eval_row np_sqrt np_log10 kdtree_query linalg_inv linalg_slogdet
                        self (seds sedgrid) n_filters) in *.
  set (st0 := call_init uninit n_models n_filters) in *.
  assert (Hsplit : seq 0 10 = (seq 0 i ++ i :: seq (S i) (10 - S i))%list).
  { replace 10%nat with (i + S (10 - S i))%nat at 1 by lia.
    by rewrite seq_app. }
  rewrite Hsplit, eff_for_app in Hloop.
  assert (Hbefore : forall j, j ∈ seq 0 i ->
            preserves (fun s => row_is i (sigmas st0 !! i) (icov_diag st0 !! i)
                                       (icov_offdiag st0 !! i) (q_norm st0 !! i) s
                                /\ length (q_norm s) = n_models)
                      (body j)).
  { intros j Hj. apply elem_of_seq in Hj.
    apply preserves_eval_row; intros ? s [Hrow Hlen]; (split; [|by cbn; rewrite ?length_insert]);
      revert Hrow; unfold row_is; cbn;
      rewrite ?list_lookup_insert_ne, ?list_lookup_alter_ne by lia; done. }
  pose proof (preserves_for _ (seq 0 i) body Hbefore st0) as Hst1.
  destruct (eff_for (seq 0 i) body st0) as [st1 [u|e]]; [|done].
  cbn [fst] in Hst1.
  destruct Hst1 as [(_ & Hd1 & Ho1 & _) Hq1].
  { split; [done|]. apply length_np_empty1. }
  cbn [eff_for] in Hloop. unfold eff_bind in Hloop.
  destruct (body i st1) as [st2 [[]|e]] eqn:Hbody; [|done].
  destruct (eval_row_run _ _ _ _ _ _ Hbody)
    as (row & cov & inv & last & Hrow & Hcov & Hinv & -> & Hd2 & Ho2 & Hq2).
  assert (Hin : (i < n_models)%nat).
  { rewrite <- Hshape. by eapply lookup_lt_Some. }
  exists row, cov, inv. do 3 (split; [done|]).
  assert (Hst2 : icov_diag st2 !! i = Some (np_diagonal (S last) inv)
                 /\ icov_offdiag st2 !! i = Some (upper_triangle (S last) inv)
                 /\ q_norm st2 !! i = Some (minus_half * (linalg_slogdet cov).2)).
  { rewrite Hd2, Ho2, Hq2, Hd1, Ho1. unfold st0, call_init.
    cbn [icov_diag icov_offdiag]. unfold np_empty2.
    rewrite !list_lookup_fmap, lookup_seq_lt by done.
    cbn [fmap option_fmap option_map].
    rewrite diag_stores by (by rewrite length_map, length_seq).
    rewrite upper_triangle_code, write_seq_all
      by (by rewrite upper_triangle_length, length_map, length_seq).
    repeat split. apply list_lookup_insert_eq. lia. }
  destruct Hst2 as (Hd & Ho & Hq).
  assert (Hrest : forall j, j ∈ seq (S i) (10 - S i) ->
            preserves (row_is i (sigmas st2 !! i) (Some (np_diagonal (S last) inv))
                              (Some (upper_triangle (S last) inv))
                              (Some (minus_half * (linalg_slogdet cov).2)))
                      (body j)).
  { intros j Hj. apply eval_row_other. apply elem_of_seq in Hj. lia. }
  destruct (preserves_for _ _ _ Hrest st2) as (_ & Hd' & Ho' & Hq'); [by repeat split|].
  by rewrite Hloop in Hd', Ho', Hq'.
Qed.

Lemma take_indices_all {A : Type} (l : list A) (indxs : list nat) (c : A) :
  Forall (fun k => l !! k = Some c) indxs ->
  take_indices l indxs = Ok (replicate (length indxs) c).
Proof.
  induction 1 as [|k indxs Hk _ IH]; [done|].
  cbn. unfold subscript. rewrite Hk. cbn. by rewrite IH.
Qed.

Lemma vsum_weighted_constant {A : Type} (g : A -> Qc) (w : vec) (c : A) :
  vsum (zip_with (fun wk mk => wk * g mk) w (replicate (length w) c)) = vsum w * g c.
Proof.
  unfold vsum. induction w as [|x w IH]; cbn; [ring|]. rewrite IH. ring.
Qed.

Lemma vsum_scaled (v : vec) (s : Qc) : vsum (map (fun x => x / s) v) = vsum v / s.
Proof.
  unfold vsum, Qcdiv. induction v as [|x v IH]; cbn; [ring|]. rewrite IH. ring.
Qed.

Lemma vsum_pos (v : vec) : Forall (fun x => 0 < x) v -> v <> [] -> 0 < vsum v.
Proof.
  intros Hv Hne. destruct Hv as [|x v Hx Hv]; [done|]. clear Hne.
  unfold vsum. cbn. apply Qcplus_pos_nonneg; [done|].
  induction Hv as [|y v Hy _ IH]; [done|]. cbn.
  apply Qcplus_nonneg_nonneg; [by apply Qclt_le_weak|done].
Qed.

(** X14. The weights [1/dist], normalised, average the covariance
    matrices of the neighbours: when the neighbours of a grid row, all
    at a positive distance, have the same [n] by [n] covariance
    matrix, the interpolated covariance of the row is that matrix. *)
Theorem interpolated_cov_constant (self : MultiFilterASTs) (n : nat) (row : vec)
    (C : mat) :
  let result := kdtree_query (_kdtree self)
                             (map np_log10 (zip_with Qcdiv row (vega_flux self))) 10 in
  length result.1 = length result.2 -> result.1 <> [] ->
  Forall (fun d => 0 < d) result.1 ->
  Forall (fun k => _cov_matrices self !! k = Some C) result.2 ->
  square n C ->
  interpolated_cov np_log10 kdtree_query self n row = Ok C.
Proof.
  intros result Hlen Hne Hpos Hcov [HC Hrows]. unfold interpolated_cov. fold result.
  rewrite (take_indices_all _ _ _ Hcov). cbn [res_bind]. f_equal.
  set (v := map (fun d => 1 / d) result.1).
  assert (Hv : 0 < vsum v).
  { apply vsum_pos.
    - unfold v. apply Forall_fmap. eapply list.Forall_impl; [exact Hpos|].
      intros d Hd. cbn. unfold Qcdiv. rewrite Qcmult_1_l. by apply Qcinv_pos.
    - unfold v. by destruct result.1. }
  assert (Hone : vsum (map (fun w => w / vsum v) v) = 1).
  { rewrite vsum_scaled. unfold Qcdiv. apply Qcmult_inv_r.
    intros H. rewrite H in Hv. by apply Qclt_not_eq in Hv. }
  unfold np_average. rewrite Hone.
  replace (length result.2) with (length (map (fun w => w / vsum v) v))
    by (unfold v; by rewrite !length_map).
  transitivity (map (fun a => map (fun b => get2 C a b) (seq 0 n)) (seq 0 n));
    [|by apply mat_tabulate].
  apply map_ext. intros a. apply map_ext. intros b.
  rewrite (vsum_weighted_constant (fun mk => get2 mk a b)), Hone.
  unfold Qcdiv. change (/ 1) with 1. ring.
Qed.

End InterpolatorMore.

(** ** Further runs on concrete tables *)

Section MoreRuns.

Import Examples MoreExamples Cases.

(** X2 on the seven ASTs of [two_filters]. *)
Lemma cov_matrix_symmetric_witness :
  is_Some (lk2 two_filter_cov 0 1) /\ lk2 two_filter_cov 0 1 = lk2 two_filter_cov 1 0.
Proof.
  apply (cov_matrix_symmetric Approx.power10 Approx.sqrt Approx.uninit
           two_filters (seq 0 7) ["F1"; "F2"] true two_filter_result two_filter_cov).
  - vm_compute; reflexivity.
  - vm_compute; reflexivity.
  - cbn; lia.
  - cbn; lia.
Defined.


(** X4 on the seven ASTs of [two_filters]. *)
Lemma corr_matrix_symmetric_witness :
  is_Some (lk2 two_filter_corr 0 1) /\ lk2 two_filter_corr 0 1 = lk2 two_filter_corr 1 0.
Proof.
  eapply (corr_matrix_symmetric Approx.power10 Approx.sqrt Approx.uninit
            two_filters (seq 0 7) ["F1"; "F2"] _ _ _ two_filter_corr _ _).
  - vm_compute; reflexivity.
  - cbn; lia.
  - cbn; lia.
Defined.

(** X6 on [small_group]: the first row is the estimate of the model of
    six ASTs. *)
Lemma calc_all_ast_cov_rows_witness :
  exists cov biases stddevs corr diffs imags,
    _calc_ast_cov Approx.power10 Approx.sqrt Approx.uninit small_group
                  (model_indxs small_group "F1_IN" (kept_at small_group 0)) ["F1"] true
    = Ok (CovAll cov biases stddevs corr diffs imags)
    /\ agg_covs (aggregated small_group) !! 0%nat = Some cov
    /\ agg_biases (aggregated small_group) !! 0%nat = Some biases
    /\ agg_corrs (aggregated small_group) !! 0%nat = Some corr
    /\ agg_ifluxes (aggregated small_group) !! 0%nat
       = Some (map (fun m => Approx.power10 (minus_04 * m)) imags).
Proof.
  apply (calc_all_ast_cov_rows Approx.power10 Approx.sqrt Approx.uninit
           small_group ["F1"] "F1" (aggregated small_group) 0 (kept_at small_group 0)).
  - reflexivity.
  - vm_compute; reflexivity.
  - vm_compute; reflexivity.
  - vm_compute; lia.
Defined.

(** X7 on [small_group]: six usable ASTs, and the bias of the first
    model is their mean flux difference. *)
Lemma process_asts_statistics_witness :
  (6 <= length (retained ["F1"] (group_rows small_group "F1_IN" (kept_at small_group 0))))%nat
  /\ _biases (fitted small_group) !! 0%nat
     = Some (map (fun f => mean_diff
                             (flux_diffs Approx.power10
                                (retained ["F1"]
                                   (group_rows small_group "F1_IN" (kept_at small_group 0)))
                                f))
                 ["F1"]).
Proof.
  pose proof (process_asts_statistics Approx.power10 Approx.sqrt Approx.log10 Approx.uninit
                small_group ["F1"] [1] ["F1"] "F1" (fitted small_group) 0
                (kept_at small_group 0)) as H.
  cbn zeta in H. destruct H as (H6 & Hb & _).
  - reflexivity.
  - vm_compute; reflexivity.
  - vm_compute; reflexivity.
  - vm_compute; lia.
  - split; [exact H6|exact Hb].
Defined.

(** X8 on [small_group]: the second row belongs to the model of three
    ASTs and is unwritten memory. *)
Lemma calc_all_ast_cov_unprocessed_witness :
  exists i,
    np_unique (column small_group "F1_IN") !! i = Some (kept_at small_group 1)
    /\ agg_covs (aggregated small_group) !! 1%nat
       = Some [[Approx.uninit "all_covs" [i; 0; 0]%nat]]
    /\ agg_corrs (aggregated small_group) !! 1%nat
       = Some [[Approx.uninit "all_corrs" [i; 0; 0]%nat]]
    /\ agg_biases (aggregated small_group) !! 1%nat
       = Some [Approx.uninit "all_biases" [i; 0]%nat]
    /\ agg_ifluxes (aggregated small_group) !! 1%nat
       = Some [Approx.power10 (minus_04 * Approx.uninit "all_imags" [i; 0]%nat)].
Proof.
  apply (calc_all_ast_cov_unprocessed Approx.power10 Approx.sqrt Approx.uninit
           small_group ["F1"] "F1" (aggregated small_group) 1 (kept_at small_group 1)).
  - reflexivity.
  - vm_compute; reflexivity.
  - vm_compute; reflexivity.
  - vm_compute; lia.
Defined.

(** X9 on [small_group]: two rows of 1 by 1 matrices. *)
Lemma calc_all_ast_cov_shapes_witness :
  length (agg_covs (aggregated small_group)) = 2%nat
  /\ Forall (square 1) (agg_covs (aggregated small_group)).
Proof.
  pose proof (calc_all_ast_cov_shapes Approx.power10 Approx.sqrt Approx.uninit
                small_group ["F1"] "F1" (aggregated small_group)) as H.
  cbn zeta in H. destruct H as (Hlen & _ & _ & _ & Hsq & _).
  - reflexivity.
  - vm_compute; reflexivity.
  - split; [exact Hlen|exact Hsq].
Defined.






(** X13 on ten models and a grid of ten rows, at the fourth row. *)
Lemma call_loop_results_witness :
  exists row cov inv,
    seds grid10 !! 3%nat = Some row
    /\ interpolated_cov Approx.log10 Approx.kdtree_query (fitted ten_models) 1 row = Ok cov
    /\ Approx.linalg_inv cov = Ok inv
    /\ icov_diag (loop_state ten_models grid10) !! 3%nat = Some (np_diagonal 1 inv)
    /\ icov_offdiag (loop_state ten_models grid10) !! 3%nat = Some (upper_triangle 1 inv)
    /\ q_norm (loop_state ten_models grid10) !! 3%nat
       = Some (minus_half * (Approx.linalg_slogdet cov).2).
Proof.
  apply (call_loop_results Approx.sqrt Approx.log10 Approx.uninit Approx.kdtree_query
           Approx.linalg_inv Approx.linalg_slogdet (fitted ten_models) grid10
           (loop_state ten_models grid10) 3).
  - reflexivity.
  - vm_compute; reflexivity.
  - lia.
Defined.

(** X14 on ten models of equal covariance and the grid row of flux
    100, at a positive distance of each of them. *)
Lemma interpolated_cov_constant_witness :
  rationals (concat alike_cov) = [6 # 5]%Q
  /\ interpolated_cov Approx.log10 Approx.kdtree_query (fitted ten_alike) 1 [Qc_of_Z 100]
     = Ok alike_cov.
Proof.
  split; [vm_compute; reflexivity|].
  apply (interpolated_cov_constant Approx.log10 Approx.kdtree_query
           (fitted ten_alike) 1 [Qc_of_Z 100] alike_cov).
  - vm_compute; reflexivity.
  - vm_compute; discriminate.
  - vm_compute. repeat constructor.
  - vm_compute. repeat constructor.
  - vm_compute. repeat constructor.
Defined.

End MoreRuns.

(** * The project pipeline *)

(** ** File names *)

Section FileNames.

Import Pipeline.

Lemma string_app_nil_r (s : string) : s ++ EmptyString = s.
Proof.
  induction s as [|a s IH]; [done|].
  change (String a (s ++ EmptyString) = String a s). by rewrite IH.
Qed.

Lemma string_app_assoc (a b c : string) : (a ++ b) ++ c = a ++ (b ++ c).
Proof.
  induction a as [|x a IH]; [done|].
  change (String x ((a ++ b) ++ c) = String x (a ++ (b ++ c))). by rewrite IH.
Qed.

Lemma string_app_length (a b : string) :
  String.length (a ++ b) = (String.length a + String.length b)%nat.
Proof.
  induction a as [|x a IH]; [done|].
  change (S (String.length (a ++ b)) = S (String.length a + String.length b)).
  by rewrite IH.
Qed.

Lemma string_app_inv_tail (a b s : string) : a ++ s = b ++ s -> a = b.
Proof.
  revert b. induction a as [|x a IH]; intros [|y b] H.
  - done.
  - apply (f_equal String.length) in H.
    change (String.length s = S (String.length (b ++ s))) in H.
    rewrite string_app_length in H. lia.
  - apply (f_equal String.length) in H.
    change (S (String.length (a ++ s)) = String.length s) in H.
    rewrite string_app_length in H. lia.
  - change (String x (a ++ s) = String y (b ++ s)) in H.
    injection H as -> H. f_equal. by apply IH.
Qed.

Lemma split_on_nonempty (c : ascii) (s : string) : split_on c s <> [].
Proof.
  destruct s as [|a s]; [done|]. cbn.
  destruct (Ascii.eqb a c); [done|]. by destruct (split_on c s).
Qed.

(** Joining what [split] gave returns the string. *)
Lemma join_split_on (s : string) : join "." (split_on dot s) = s.
Proof.
  induction s as [|a s IH]; [done|]. cbn [split_on].
  destruct (Ascii.eqb a dot) eqn:Ha.
  - apply Ascii.eqb_eq in Ha as ->. cbn [join].
    destruct (split_on dot s) as [|w ws] eqn:Hs; [by apply split_on_nonempty in Hs|].
    by rewrite IH.
  - destruct (split_on dot s) as [|w ws] eqn:Hs; [by apply split_on_nonempty in Hs|].
    rewrite <- IH. cbn [join]. by destruct ws.
Qed.

Lemma split_on_no_sep (c : ascii) (s : string) :
  Forall (fun w => has_char c w = false) (split_on c s).
Proof.
  induction s as [|a s IH]; [by repeat constructor|]. cbn [split_on].
  destruct (Ascii.eqb a c) eqn:Ha; [by constructor|].
  destruct (split_on c s) as [|w ws]; [repeat constructor; cbn; by rewrite Ha|].
  apply Forall_cons in IH as [Hw Hws]. constructor; [|done]. cbn. by rewrite Ha.
Qed.

Lemma split_on_single (c : ascii) (s : string) :
  has_char c s = false -> split_on c s = [s].
Proof.
  induction s as [|a s IH]; [done|]. cbn. intros [Ha Hs]%orb_false_iff.
  by rewrite Ha, IH.
Qed.

Lemma split_on_several (c : ascii) (s : string) :
  has_char c s = true -> (2 <= length (split_on c s))%nat.
Proof.
  induction s as [|a s IH]; [done|]. cbn.
  destruct (Ascii.eqb a c); cbn.
  - intros _. pose proof (split_on_nonempty c s). destruct (split_on c s); [done|cbn; lia].
  - intros Hs. specialize (IH Hs). destruct (split_on c s); cbn in *; lia.
Qed.

Lemma last_removelast {A : Type} (l : list A) (x : A) :
  list.last l = Some x -> l = (removelast l ++ [x])%list.
Proof.
  induction l as [|a l IH]; [done|]. destruct l as [|b l].
  - by intros [= ->].
  - intros H. change (removelast (a :: b :: l)) with (a :: removelast (b :: l)).
    cbn [app]. f_equal. by apply IH.
Qed.

Lemma join_snoc (sep : string) (l : list string) (x : string) :
  l <> [] -> join sep (l ++ [x]) = join sep l ++ sep ++ x.
Proof.
  induction l as [|a l IH]; [done|]. intros _. destruct l as [|b l]; [done|].
  change (join sep ((a :: b :: l) ++ [x]))
    with (a ++ sep ++ join sep ((b :: l) ++ [x])).
  rewrite IH by done. change (join sep (a :: b :: l)) with (a ++ sep ++ join sep (b :: l)).
  by rewrite !string_app_assoc.
Qed.

Lemma last_item_split (s : string) :
  last_item (split_on dot s) = Returns (ext_of s).
Proof.
  unfold last_item, ext_of.
  destruct (list.last (split_on dot s)) as [x|] eqn:Hl; [done|].
  apply last_None in Hl. by apply split_on_nonempty in Hl.
Qed.

(** The last component [split] gives, and what comes before it. *)
Lemma obsfile_split (obsfile : string) :
  split_on dot obsfile
  = (removelast (split_on dot obsfile) ++ [ext_of obsfile])%list.
Proof.
  unfold ext_of.
  destruct (list.last (split_on dot obsfile)) as [x|] eqn:Hl.
  - by apply last_removelast.
  - apply last_None in Hl. by apply split_on_nonempty in Hl.
Qed.

(** A name with a dot is base, dot, extension; a name without a dot
    is all extension. *)
Lemma obsfile_parts (obsfile : string) :
  (has_char dot obsfile = true ->
   obsfile = base_of obsfile ++ "." ++ ext_of obsfile)
  /\ (has_char dot obsfile = false ->
      base_of obsfile = EmptyString /\ ext_of obsfile = obsfile).
Proof.
  pose proof (obsfile_split obsfile) as Hsplit. split.
  - intros Hdot. apply split_on_several in Hdot.
    rewrite <- (join_split_on obsfile) at 1. rewrite Hsplit at 1.
    apply join_snoc. intros Hnil. rewrite Hsplit, Hnil in Hdot. cbn in Hdot. lia.
  - intros Hdot. unfold base_of, ext_of. by rewrite (split_on_single _ _ Hdot).
Qed.

(** X19. The base name and the extension that
    [prepare_individual_inputs] and [run_chunk_fit] take from a file
    name ([split('.')], [[:-1]], ['.'.join], [[-1]]): the extension
    holds no dot; a name with a dot is base, dot, extension; a name
    without a dot is all extension, with an empty base, so that its
    chunks are named [.part<k>.<name>]. *)
Theorem file_name_parts (obsfile : string) :
  has_char dot (ext_of obsfile) = false
  /\ (has_char dot obsfile = true ->
      obsfile = base_of obsfile ++ "." ++ ext_of obsfile)
  /\ (has_char dot obsfile = false ->
      base_of obsfile = EmptyString /\ ext_of obsfile = obsfile
      /\ forall k, part_name (base_of obsfile) k (ext_of obsfile)
                   = ".part" ++ fmt_d k ++ "." ++ obsfile).
Proof.
  destruct (obsfile_parts obsfile) as [Hdot Hnodot]. split; [|split].
  - pose proof (split_on_no_sep dot obsfile) as Hall.
    rewrite obsfile_split in Hall. exact (Forall_elt _ _ _ Hall).
  - exact Hdot.
  - intros Hc. destruct (Hnodot Hc) as [Hb He]. do 2 (split; [done|]).
    intros k. unfold part_name. by rewrite Hb, He.
Qed.

End FileNames.

(** ** The project directory *)

Section ProjectDir.

Import Pipeline.

Variable E : Externals.

(** X15. [t_project_dir] raises its [Exception] exactly when the path
    exists and is not a directory; when the path exists it touches
    nothing, and when it does not it asks for the directory, once. *)
Theorem t_project_dir_raises (project : string) (st : state E) :
  ((exists msg, (t_project_dir E project st).2 = Raises (PyException msg))
   <-> os_path_exists E project st.1 = true /\ os_path_isdir E project st.1 = false)
  /\ (os_path_exists E project st.1 = true -> (t_project_dir E project st).1 = st)
  /\ (os_path_exists E project st.1 = false ->
      (t_project_dir E project st).1.2 = (st.2 ++ [Mkdir project])%list).
Proof.
  destruct st as [w log].
  cbv [t_project_dir io_bind io_read io_call io_raise io_ret fst snd].
  destruct (os_path_exists E project w) eqn:Hfound.
  - destruct (os_path_isdir E project w) eqn:Hdir; cbv [negb].
    + split; [|done]. split; [by intros [msg ?]|by intros [_ ?]].
    + split; [|done]. split; [done|]. intros _. by eexists.
  - destruct (os_mkdir E project w) as [w' [[]|name]].
    + split; [|done]. split; [by intros [msg ?]|by intros [? _]].
    + split; [|done]. split; [by intros [msg ?]|by intros [? _]].
Qed.

(** X16. When the file system keeps the directories it makes, a call
    of [t_project_dir] that has returned can be repeated: the second
    call returns the same name [<project>/<project>], makes no
    directory and changes nothing. *)
Theorem t_project_dir_idempotent (project : string) (st st' : state E) (name : string) :
  mkdir_makes E ->
  t_project_dir E project st = (st', Returns name) ->
  name = project ++ "/" ++ project
  /\ t_project_dir E project st' = (st', Returns name).
Proof.
  intros Hos. destruct st as [w log].
  cbv [t_project_dir io_bind io_read io_call io_raise io_ret fst snd].
  destruct (os_path_exists E project w) eqn:Hfound.
  - destruct (os_path_isdir E project w) eqn:Hdir; cbv [negb]; [|done].
    intros [= <- <-]. by rewrite Hfound, Hdir.
  - destruct (os_mkdir E project w) as [w' [[]|n]] eqn:Hmk; [|done].
    intros [= <- <-].
    destruct (Hos _ _ _ Hmk) as [-> ->]. done.
Qed.

End ProjectDir.

(** ** The chunks of the observations *)

Section Chunks.

Import Pipeline.

Variable E : Externals.

Lemma written_app (l1 l2 : list event) :
  written (l1 ++ l2) = (written l1 ++ written l2)%list.
Proof. unfold written. by rewrite flat_map_app. Qed.

Lemma written_zip (slices : list (list nat)) (names : list string) :
  length slices = length names -> written (zip_with WriteTable slices names) = names.
Proof.
  revert names. induction slices as [|s slices IH]; intros [|n names] Hlen; try done.
  cbn in Hlen. cbn. f_equal. apply IH. lia.
Qed.

Lemma part_name_inj (base ext : string) (k1 k2 : Z) :
  part_name base k1 ext = part_name base k2 ext -> k1 = k2.
Proof.
  unfold part_name, fmt_d. intros H.
  apply String.app_inj in H. apply String.app_inj in H.
  apply string_app_inv_tail in H. by apply pretty_Z_inj in H.
Qed.

Lemma part_name_length (base ext : string) (k : Z) :
  (String.length base + String.length ext + 6 <= String.length (part_name base k ext))%nat.
Proof.
  unfold part_name. rewrite !string_app_length.
  change (String.length ".part") with 5%nat. change (String.length ".") with 1%nat. lia.
Qed.

(** No chunk can have the name of the catalogue itself. *)
Lemma part_name_not_obsfile (obsfile : string) (k : Z) :
  part_name (base_of obsfile) k (ext_of obsfile) <> obsfile.
Proof.
  intros H. apply (f_equal String.length) in H.
  pose proof (part_name_length (base_of obsfile) (ext_of obsfile) k) as Hlen.
  destruct (obsfile_parts obsfile) as [Hdot Hnodot].
  destruct (has_char dot obsfile) eqn:Hc.
  - specialize (Hdot eq_refl). apply (f_equal String.length) in Hdot.
    rewrite !string_app_length in Hdot. change (String.length ".") with 1%nat in Hdot. lia.
  - destruct (Hnodot eq_refl) as [Hb He]. rewrite Hb, He in H, Hlen.
    change (String.length EmptyString) with 0%nat in Hlen. lia.
Qed.

(** The loop over the chunks: what it returns and what it writes. *)
Lemma write_chunks_run (obs : obs_table E) (outname : string * string)
    (slices : list (list nat)) (obsfiles : list string) (fpart : Z)
    (st st' : state E) (names : list string) :
  write_chunks E obs outname slices obsfiles fpart st = (st', Returns names) ->
  let new := map (fun k => part_name outname.1 (fpart + Z.of_nat k) outname.2)
                 (seq 0 (length slices)) in
  names = (obsfiles ++ new)%list
  /\ st'.2 = (st.2 ++ zip_with WriteTable slices new)%list.
Proof.
  revert obsfiles fpart st.
  induction slices as [|s slices IH]; intros obsfiles fpart st.
  - cbn. intros [= <- <-]. by rewrite !app_nil_r.
  - cbn [write_chunks]. unfold io_bind at 1, io_call at 1. cbn [fst snd].
    destruct (write_table E obs s _ st.1) as [w1 [[]|n]]; cbn [fst snd]; [|done].
    intros Hrest. apply IH in Hrest as [-> ->]. cbn [fst snd length seq map zip_with].
    rewrite <- !app_assoc. cbn [app].
    rewrite <- seq_shift, map_map.
    assert (Hext : map (fun k => part_name outname.1 (fpart + Z.of_nat (S k)) outname.2)
                       (seq 0 (length slices))
                   = map (fun k => part_name outname.1 (fpart + 1 + Z.of_nat k) outname.2)
                         (seq 0 (length slices))).
    { apply map_ext. intros k. f_equal. lia. }
    rewrite Hext, Z.add_0_r. done.
Qed.

(** What a call of [prepare_individual_inputs] that returns has done. *)
Lemma prepare_individual_inputs_run (obsfile : string) (chunksize : Z)
    (st st' : state E) (names : list string) :
  (0 < chunksize)%Z ->
  prepare_individual_inputs E obsfile chunksize st = (st', Returns names) ->
  exists obs w1,
    read_table E obsfile st.1 = (w1, Done obs)
    /\ let slices := chunks E (seq 0 (nrows E obs)) chunksize in
       names = map (fun k => part_name (base_of obsfile) (Z.of_nat k) (ext_of obsfile))
                   (seq 0 (length slices))
       /\ st'.2 = (st.2 ++ ReadTable obsfile :: zip_with WriteTable slices names)%list.
Proof.
  intros Hsize. unfold prepare_individual_inputs.
  rewrite bool_decide_false by lia.
  unfold io_bind at 1, io_call at 1. cbn [fst snd].
  destruct (read_table E obsfile st.1) as [w1 [obs|n]] eqn:Hread; cbn [fst snd]; [|done].
  rewrite last_item_split. unfold io_bind at 1, io_lift at 1.
  intros Hloop. apply write_chunks_run in Hloop as [-> ->].
  exists obs, w1. split; [done|]. cbn [fst snd app]. fold (base_of obsfile).
  by rewrite <- app_assoc.
Qed.

(** X17. [prepare_individual_inputs] with a chunk size of 0 or less
    returns the catalogue name alone and reads and writes nothing;
    with a positive chunk size it reads the catalogue once, then
    writes one table per chunk, in order, the [k]-th under the name
    [<base>.part<k>.<extension>], and returns those names. *)
Theorem prepare_individual_inputs_names (obsfile : string) (chunksize : Z)
    (st st' : state E) (names : list string) :
  prepare_individual_inputs E obsfile chunksize st = (st', Returns names) ->
  ((chunksize <= 0)%Z /\ st' = st /\ names = [obsfile])
  \/ ((0 < chunksize)%Z
      /\ exists obs w1,
           read_table E obsfile st.1 = (w1, Done obs)
           /\ let slices := chunks E (seq 0 (nrows E obs)) chunksize in
              names = map (fun k => part_name (base_of obsfile) (Z.of_nat k)
                                              (ext_of obsfile))
                          (seq 0 (length slices))
              /\ st'.2 = (st.2 ++ ReadTable obsfile
                               :: zip_with WriteTable slices names)%list).
Proof.
  intros Hrun. destruct (decide (chunksize <= 0)%Z) as [Hle|Hgt].
  - left. unfold prepare_individual_inputs in Hrun.
    rewrite bool_decide_true in Hrun by done. by injection Hrun as <- <-.
  - right. split; [lia|]. apply prepare_individual_inputs_run; [lia|done].
Qed.

(** X18. With a positive chunk size, the tables
    [prepare_individual_inputs] writes are the files it returns: no
    two chunks share a file, and no chunk is written over the
    catalogue. *)
Theorem prepare_individual_inputs_fresh (obsfile : string) (chunksize : Z)
    (st st' : state E) (names : list string) :
  (0 < chunksize)%Z ->
  prepare_individual_inputs E obsfile chunksize st = (st', Returns names) ->
  written st'.2 = (written st.2 ++ names)%list
  /\ NoDup names
  /\ obsfile ∉ names.
Proof.
  intros Hsize Hrun.
  destruct (prepare_individual_inputs_run _ _ _ _ _ Hsize Hrun)
    as (obs & w1 & _ & Hnames & Hlog).
  cbn zeta in Hnames, Hlog. split; [|split].
  - rewrite Hlog, written_app. f_equal.
    change (written (ReadTable obsfile :: ?l)) with (written l).
    apply written_zip. by rewrite Hnames, length_map, length_seq.
  - rewrite Hnames. apply (NoDup_fmap_2_strong _); [|apply NoDup_seq].
    intros k1 k2 _ _ Heq. apply part_name_inj in Heq. lia.
  - rewrite Hnames. intros (k & Hk & _)%list_elem_of_fmap.
    symmetry in Hk. by apply part_name_not_obsfile in Hk.
Qed.

End Chunks.

(** ** The fit of one chunk *)

Section ChunkFit.

Import Pipeline.

Variable E : Externals.

(** [run_chunk_fit] up to the test on the number of files found. *)
Lemma run_chunk_fit_glob (project : string) (g : model_grid E) (chunk : Z)
    (a : ast_table E) (obsfile : option string) (st : state E) :
  let name := default (datamodel_obsfile E) obsfile in
  let pattern := base_of name ++ ".part*." ++ ext_of name in
  let lst := glob_glob E pattern st.1 in
  let st1 : state E := (st.1, (st.2 ++ [Glob pattern])%list) in
  run_chunk_fit E project g chunk (Some a) obsfile st
  = if bool_decide (length lst = 0%nat) then
      (st1, Raises (PyValueError
                      "cannot find any chunk. Did you run prepare_individual_inputs?"))
    else
      io_bind E (if bool_decide (Z.of_nat (length lst) <= chunk)%Z
               then print E "Chunk not valid" else io_ret E tt)
              (fun _ =>
                 io_bind E (io_lift E (list_item lst chunk))
                   (fun l_obs =>
                      io_bind E (print E ("running chunk " ++ l_obs))
                        (fun _ =>
                           io_call E (FitData project l_obs
                                              (project ++ "/" ++ project ++ ".part"
                                               ++ fmt_d chunk))
                                   (fit_data E project g a l_obs
                                             (project ++ "/" ++ project ++ ".part"
                                              ++ fmt_d chunk)))))
              st1.
Proof.
  cbn zeta. unfold run_chunk_fit.
  unfold io_bind at 1, io_ret at 1. rewrite last_item_split.
  unfold io_bind at 1, io_lift at 1. unfold io_bind at 1, io_call at 1. cbn [fst snd].
  fold (base_of (default (datamodel_obsfile E) obsfile)).
  by case_bool_decide.
Qed.

Lemma list_item_invalid {A : Type} (l : list A) (i : Z) :
  (Z.of_nat (length l) <= i \/ i < - Z.of_nat (length l))%Z ->
  list_item l i = Raises PyIndexError.
Proof.
  intros Hi. unfold list_item. cbn zeta.
  destruct (decide (i < 0)%Z) as [Hneg|Hpos].
  - rewrite (bool_decide_true (i < 0)%Z) by done. by rewrite bool_decide_false by lia.
  - rewrite (bool_decide_false (i < 0)%Z) by done. by rewrite bool_decide_false by lia.
Qed.

Lemma list_item_valid {A : Type} (l : list A) (i : Z) :
  (- Z.of_nat (length l) <= i < Z.of_nat (length l))%Z ->
  exists x, l !! Z.to_nat (i mod Z.of_nat (length l)) = Some x
            /\ list_item l i = Returns x.
Proof.
  intros Hi. unfold list_item. cbn zeta.
  assert (Hpos : (if bool_decide (i < 0)%Z then (i + Z.of_nat (length l))%Z else i)
                 = (i mod Z.of_nat (length l))%Z).
  { case_bool_decide.
    - apply (Z.mod_unique _ _ (-1)); lia.
    - symmetry. apply Z.mod_small. lia. }
  rewrite Hpos.
  assert (0 <= i mod Z.of_nat (length l) < Z.of_nat (length l))%Z as Hrange
    by (apply Z.mod_pos_bound; lia).
  rewrite bool_decide_true by done.
  destruct (lookup_lt_is_Some_2 l (Z.to_nat (i mod Z.of_nat (length l)))) as [x Hx]; [lia|].
  exists x. by rewrite Hx.
Qed.

(** X20. [run_chunk_fit] with a chunk number that names no file never
    starts the fit: with no chunk file at all it raises [ValueError];
    otherwise it raises [IndexError] at [lst[chunk]], after the
    message 'Chunk not valid' when the number is too large and
    without any message when it is below [-len(lst)]. *)
Theorem run_chunk_fit_invalid_chunk (project : string) (g : model_grid E) (chunk : Z)
    (a : ast_table E) (obsfile : option string) (st : state E) :
  let name := default (datamodel_obsfile E) obsfile in
  let pattern := base_of name ++ ".part*." ++ ext_of name in
  let lst := glob_glob E pattern st.1 in
  (Z.of_nat (length lst) <= chunk \/ chunk < - Z.of_nat (length lst))%Z ->
  run_chunk_fit E project g chunk (Some a) obsfile st
  = ((st.1,
      (st.2 ++ Glob pattern
            :: (if bool_decide (lst <> [] /\ (Z.of_nat (length lst) <= chunk)%Z)
                then [Print "Chunk not valid"] else []))%list),
     Raises (if bool_decide (lst = [])
             then PyValueError
                    "cannot find any chunk. Did you run prepare_individual_inputs?"
             else PyIndexError)).
Proof.
  intros name pattern lst Hchunk. unfold name, pattern, lst in *.
  rewrite run_chunk_fit_glob. cbn zeta.
  set (l := glob_glob E _ st.1) in *. clearbody l.
  destruct (decide (l = [])) as [->|Hne].
  { cbn [length]. rewrite bool_decide_true by done.
    rewrite (bool_decide_true ([] = [])) by done.
    rewrite bool_decide_false by (by intros [? _]). done. }
  rewrite bool_decide_false by (by destruct l).
  rewrite (bool_decide_false (l = [])) by done.
  unfold io_bind at 1. case_bool_decide as Hbig.
  - rewrite bool_decide_true by done.
    unfold print, io_call. cbn [fst snd].
    unfold io_bind at 1, io_lift at 1. rewrite list_item_invalid by done.
    by rewrite <- app_assoc.
  - rewrite bool_decide_false by (intros [_ ?]; lia).
    unfold io_ret at 1. unfold io_bind at 1, io_lift at 1.
    by rewrite list_item_invalid by done.
Qed.

(** X21. With a chunk number in [-len(lst) .. len(lst) - 1],
    [run_chunk_fit] starts the fit once, on the file [lst[chunk]]
    counted from the end when the number is negative, under the
    output name [<project>/<project>.part<chunk>], after printing
    which file it runs and nothing else; what it returns or raises is
    what the fit does. *)
Theorem run_chunk_fit_valid_chunk (project : string) (g : model_grid E) (chunk : Z)
    (a : ast_table E) (obsfile : option string) (st : state E) :
  let name := default (datamodel_obsfile E) obsfile in
  let pattern := base_of name ++ ".part*." ++ ext_of name in
  let lst := glob_glob E pattern st.1 in
  (- Z.of_nat (length lst) <= chunk < Z.of_nat (length lst))%Z ->
  exists l_obs,
    lst !! Z.to_nat (chunk mod Z.of_nat (length lst)) = Some l_obs
    /\ let l_file := project ++ "/" ++ project ++ ".part" ++ fmt_d chunk in
       run_chunk_fit E project g chunk (Some a) obsfile st
       = io_call E (FitData project l_obs l_file)
                 (fit_data E project g a l_obs l_file)
                 (st.1, (st.2 ++ [Glob pattern; Print ("running chunk " ++ l_obs)])%list).
Proof.
  intros name pattern lst Hchunk. unfold name, pattern, lst in *.
  rewrite run_chunk_fit_glob. cbn zeta.
  set (l := glob_glob E _ st.1) in *. clearbody l.
  destruct (list_item_valid l chunk Hchunk) as (l_obs & Hlook & Hitem).
  exists l_obs. split; [done|].
  rewrite bool_decide_false by (intros H; rewrite H in Hchunk; cbn in Hchunk; lia).
  unfold io_bind at 1. rewrite bool_decide_false by lia.
  unfold io_ret at 1. unfold io_bind at 1, io_lift at 1. rewrite Hitem.
  unfold io_bind at 1, print at 1, io_call at 1. cbn [fst snd].
  by rewrite <- app_assoc.
Qed.

(** The search for the chunk files is the first thing
    [run_chunk_fit] does once it has the AST table. *)
Lemma run_chunk_fit_log (project : string) (g : model_grid E) (chunk : Z)
    (a : ast_table E) (obsfile : option string) (st : state E) :
  let name := default (datamodel_obsfile E) obsfile in
  let pattern := base_of name ++ ".part*." ++ ext_of name in
  exists rest,
    (run_chunk_fit E project g chunk (Some a) obsfile st).1.2
    = (st.2 ++ Glob pattern :: rest)%list.
Proof.
  cbn zeta. rewrite run_chunk_fit_glob. cbn zeta.
  case_bool_decide; [by eexists|].
  unfold io_bind at 1.
  assert (Hnext : forall st1 : state E,
            exists rest,
              (io_bind E (io_lift E (list_item
                            (glob_glob E (base_of (default (datamodel_obsfile E) obsfile)
                                          ++ ".part*."
                                          ++ ext_of (default (datamodel_obsfile E) obsfile))
                                       st.1) chunk))
                 (fun l_obs =>
                    io_bind E (print E ("running chunk " ++ l_obs))
                      (fun _ =>
                         io_call E (FitData project l_obs
                                            (project ++ "/" ++ project ++ ".part"
                                             ++ fmt_d chunk))
                                 (fit_data E project g a l_obs
                                           (project ++ "/" ++ project ++ ".part"
                                            ++ fmt_d chunk)))) st1).1.2
              = (st1.2 ++ rest)%list).
  { intros st1. unfold io_bind at 1, io_lift at 1.
    destruct (list_item _ chunk) as [l_obs|e]; [|exists []; by rewrite app_nil_r].
    unfold io_bind, print, io_call. cbn [fst snd].
    rewrite <- app_assoc. by eexists. }
  case_bool_decide.
  - unfold print at 1, io_call at 1. cbn [fst snd].
    destruct (Hnext (st.1, ((st.2 ++ [Glob (base_of (default (datamodel_obsfile E) obsfile)
                                             ++ ".part*."
                                             ++ ext_of (default (datamodel_obsfile E) obsfile))])
                             ++ [Print "Chunk not valid"])%list)) as [rest ->].
    cbn [fst snd]. rewrite <- !app_assoc. by eexists.
  - unfold io_ret at 1.
    destruct (Hnext (st.1, (st.2 ++ [Glob (base_of (default (datamodel_obsfile E) obsfile)
                                            ++ ".part*."
                                            ++ ext_of (default (datamodel_obsfile E) obsfile))])
                             %list)) as [rest ->].
    cbn [fst snd]. rewrite <- !app_assoc. by eexists.
Qed.

(** X22. The two functions agree on the names: the pattern
    [run_chunk_fit] searches for a catalogue is [<p>*<s>] and every
    file [prepare_individual_inputs] returned for that catalogue is
    [<p><k><s>], [k] being the number of the chunk. *)
Theorem chunk_names_match_pattern (obsfile : string) (chunksize : Z)
    (st st' : state E) (names : list string)
    (project : string) (g : model_grid E) (chunk : Z) (a : ast_table E)
    (st2 : state E) :
  (0 < chunksize)%Z ->
  prepare_individual_inputs E obsfile chunksize st = (st', Returns names) ->
  exists p s rest,
    (run_chunk_fit E project g chunk (Some a) (Some obsfile) st2).1.2
    = (st2.2 ++ Glob (p ++ "*" ++ s) :: rest)%list
    /\ forall k name, names !! k = Some name -> name = p ++ fmt_d (Z.of_nat k) ++ s.
Proof.
  intros Hsize Hrun.
  destruct (prepare_individual_inputs_run E _ _ _ _ _ Hsize Hrun)
    as (obs & w1 & _ & Hnames & _).
  cbn zeta in Hnames.
  exists (base_of obsfile ++ ".part"), ("." ++ ext_of obsfile).
  assert (Hpat : (base_of obsfile ++ ".part") ++ "*" ++ "." ++ ext_of obsfile
                 = base_of obsfile ++ ".part*." ++ ext_of obsfile).
  { rewrite string_app_assoc. done. }
  rewrite Hpat.
  pose proof (run_chunk_fit_log project g chunk a (Some obsfile) st2) as Hlog.
  cbn zeta in Hlog. cbn [default from_option] in Hlog. unfold id in Hlog.
  destruct Hlog as [rest Hlog]. exists rest. split; [done|].
  intros k name Hk. rewrite Hnames, list_lookup_fmap in Hk.
  destruct (seq 0 _ !! k) as [k'|] eqn:Hseq; [|done].
  apply lookup_seq in Hseq as [-> _]. injection Hk as <-.
  unfold part_name. cbn [Nat.add]. by rewrite !string_app_assoc.
Qed.

End ChunkFit.

(** ** Runs in the file system in which nothing fails *)

Section PipelineRuns.

Import Pipeline.

Lemma simple_mkdir_makes : mkdir_makes simple.
Proof.
  intros path w w'. cbn. case_match; [done|].
  intros [= <-]. rewrite lookup_insert_eq. split; [|done].
  apply bool_decide_eq_true. by eexists.
Qed.

(** X16 on the empty file system. *)
Lemma t_project_dir_idempotent_witness :
  "run/run" = "run" ++ "/" ++ "run"
  /\ t_project_dir simple "run" after_mkdir = (after_mkdir, Returns "run/run").
Proof.
  apply (t_project_dir_idempotent simple "run" fresh after_mkdir "run/run").
  - exact simple_mkdir_makes.
  - vm_compute; reflexivity.
Defined.

(** X17 on a catalogue of five rows cut in chunks of two. *)
Lemma prepare_individual_inputs_names_witness :
  ((2 <= 0)%Z /\ after_chunks = fresh
   /\ ["obs.part0.fits"; "obs.part1.fits"; "obs.part2.fits"] = ["obs.fits"])
  \/ ((0 < 2)%Z
      /\ exists obs w1,
           read_table simple "obs.fits" fresh.1 = (w1, Done obs)
           /\ let slices := chunks simple (seq 0 (nrows simple obs)) 2 in
              ["obs.part0.fits"; "obs.part1.fits"; "obs.part2.fits"]
              = map (fun k => part_name (base_of "obs.fits") (Z.of_nat k)
                                        (ext_of "obs.fits"))
                    (seq 0 (length slices))
              /\ after_chunks.2
                 = (fresh.2 ++ ReadTable "obs.fits"
                            :: zip_with WriteTable slices
                                 ["obs.part0.fits"; "obs.part1.fits"; "obs.part2.fits"])%list).
Proof.
  apply (prepare_individual_inputs_names simple "obs.fits" 2 fresh after_chunks
           ["obs.part0.fits"; "obs.part1.fits"; "obs.part2.fits"]).
  vm_compute; reflexivity.
Defined.

(** X18 on the same catalogue. *)
Lemma prepare_individual_inputs_fresh_witness :
  written after_chunks.2
  = (written fresh.2 ++ ["obs.part0.fits"; "obs.part1.fits"; "obs.part2.fits"])%list
  /\ NoDup ["obs.part0.fits"; "obs.part1.fits"; "obs.part2.fits"]
  /\ "obs.fits" ∉ ["obs.part0.fits"; "obs.part1.fits"; "obs.part2.fits"].
Proof.
  apply (prepare_individual_inputs_fresh simple "obs.fits" 2 fresh after_chunks).
  - lia.
  - vm_compute; reflexivity.
Defined.

(** X20 with two chunk files and the chunk number 5. *)
Lemma run_chunk_fit_invalid_chunk_witness :
  run_chunk_fit simple "run" tt 5 (Some tt) None fresh
  = ((fresh.1, (fresh.2 ++ [Glob "obs.part*.fits"; Print "Chunk not valid"])%list),
     Raises PyIndexError).
Proof.
  apply (run_chunk_fit_invalid_chunk simple "run" tt 5 tt None fresh).
  vm_compute. left. discriminate.
Defined.

(** X21 with two chunk files and the chunk number -1: the last file,
    under an output name with a minus sign. *)
Lemma run_chunk_fit_valid_chunk_witness :
  exists l_obs,
    ["obs.part0.fits"; "obs.part1.fits"] !! 1%nat = Some l_obs
    /\ run_chunk_fit simple "run" tt (-1) (Some tt) None fresh
       = io_call simple (FitData "run" l_obs "run/run.part-1")
                 (fit_data simple "run" tt tt l_obs "run/run.part-1")
                 (fresh.1, (fresh.2 ++ [Glob "obs.part*.fits";
                                        Print ("running chunk " ++ l_obs)])%list).
Proof.
  apply (run_chunk_fit_valid_chunk simple "run" tt (-1) tt None fresh).
  vm_compute. split; [discriminate|reflexivity].
Defined.

(** X22 on the same catalogue. *)
Lemma chunk_names_match_pattern_witness :
  exists p s rest,
    (run_chunk_fit simple "run" tt 0 (Some tt) (Some "obs.fits") after_chunks).1.2
    = (after_chunks.2 ++ Glob (p ++ "*" ++ s) :: rest)%list
    /\ forall k name,
         ["obs.part0.fits"; "obs.part1.fits"; "obs.part2.fits"] !! k = Some name ->
         name = p ++ fmt_d (Z.of_nat k) ++ s.
Proof.
  apply (chunk_names_match_pattern simple "obs.fits" 2 fresh after_chunks
           ["obs.part0.fits"; "obs.part1.fits"; "obs.part2.fits"]
           "run" tt 0 tt after_chunks).
  - lia.
  - vm_compute; reflexivity.
Defined.

End PipelineRuns.
